(** * CrackScan: the per-image crack analysis of [app.py]

    The script decodes each uploaded photograph, extracts an edge mask
    (grayscale, 5x5 Gaussian blur, Canny, one 3x3 dilation), scores the
    mask by its density, classifies the density into a risk tier, draws
    labelled boxes round the contours above a minimum area and appends
    one record per image to [results_list].

    The development has four layers:
    - [Float64]: Python / NumPy floats as IEEE-754 binary64 values, on
      the Standard Library's [SpecFloat] (round to nearest, ties to even);
    - [Numpy] and [Cv2]: the array type and the OpenCV calls the script
      makes.  What the calls compute is fixed by OpenCV, not by the
      script; the parts that no property below depends on (luma weights,
      blur weights, non-maximum suppression, glyph rasterisation, the
      decoder, the contour tracer) are fields of a [backend] record;
    - [App]: the analysis, statement by statement;
    - [Report]: what the script shows, the summary tab and the grid of
      cards, or the hint when nothing is uploaded. *)

From Stdlib Require Import ZArith QArith Qabs List Bool Lia String Ascii.
From Stdlib Require Import DecimalString DecimalNat DecimalZ.
From Stdlib Require Import Floats.SpecFloat.
From stdpp Require Import gmap.
Import ListNotations.

#[local] Open Scope Z_scope.

(* ================================================================== *)
(** ** Binary64 floats *)
(* ================================================================== *)

Module Float64.

Definition prec : Z := 53.
Definition emax : Z := 1024.

Definition float := spec_float.

(** Conversion of an integer ([np.int64], Python [int]) to a double. *)
Definition of_int (n : Z) : float := binary_normalize prec emax n 0 false.

(** [x / y] and [x * y] on doubles. *)
Definition div (x y : float) : float := SFdiv prec emax x y.
Definition mul (x y : float) : float := SFmul prec emax x y.

(** [x < y] and [x <= y]; both are [false] when an operand is NaN. *)
Definition ltb (x y : float) : bool := SFltb x y.
Definition leb (x y : float) : bool := SFleb x y.

Definition is_nan (x : float) : bool :=
  match x with S754_nan => true | _ => false end.

(** The literals of the script: [0.1] is [0x1.999999999999ap-4]. *)
Definition lit_0_1 : float := S754_finite false 7205759403792794 (-56).
Definition lit_1_0 : float := S754_finite false 4503599627370496 (-52).
Definition lit_2_5 : float := S754_finite false 5629499534213120 (-51).

(** Round half to even of the fraction [N / D] ([0 <= N], [0 < D]). *)
Definition rne (N D : Z) : Z :=
  let q := N / D in
  match Z.compare (2 * (N mod D)) D with
  | Lt => q
  | Eq => if Z.even q then q else q + 1
  | Gt => q + 1
  end.

(** Round half to even of [m * 2^e] to an integer ([m >= 0]). *)
Definition nearest_int (m e : Z) : Z :=
  match e with
  | Zneg p => rne m (2 ^ Zpos p)
  | _ => m * 2 ^ e
  end.

(** [np.rint]: the nearest integer, ties to even, as a double. *)
Definition rint (x : float) : float :=
  match x with
  | S754_finite s m e =>
      binary_normalize prec emax (cond_Zopp s (nearest_int (Zpos m) e)) 0 s
  | _ => x
  end.

(** [floor (x * k)] for the exact value of a finite non-negative [x]. *)
Definition floor_scaled (k : Z) (x : float) : option Z :=
  match x with
  | S754_zero _ => Some 0
  | S754_finite false m e =>
      Some (match e with
            | Zneg p => (Zpos m * k) / 2 ^ Zpos p
            | _ => Zpos m * k * 2 ^ e
            end)
  | _ => None
  end.

(** The order of the doubles that are numbers: a sort key whose
    lexicographic order is the order [SFcompare] computes. *)
Definition key (x : float) : Z * Z * Z :=
  match x with
  | S754_infinity true => (-2, 0, 0)
  | S754_finite true m e => (-1, - e, - Zpos m)
  | S754_zero _ => (0, 0, 0)
  | S754_nan => (0, 0, 0)
  | S754_finite false m e => (1, e, Zpos m)
  | S754_infinity false => (2, 0, 0)
  end.

Definition lex_lt (a b : Z * Z * Z) : Prop :=
  let '(a1, a2, a3) := a in
  let '(b1, b2, b3) := b in
  a1 < b1 \/ (a1 = b1 /\ (a2 < b2 \/ (a2 = b2 /\ a3 < b3))).

Definition lex_le (a b : Z * Z * Z) : Prop :=
  let '(a1, a2, a3) := a in
  let '(b1, b2, b3) := b in
  a1 < b1 \/ (a1 = b1 /\ (a2 < b2 \/ (a2 = b2 /\ a3 <= b3))).

(** The double nearest to [N / D * 2^e], ties to even, for a value with
    [2^52 <= N / D] that neither overflows nor falls into the subnormal
    range: the quotient is cut to 53 bits, rounded, and renormalised
    when rounding carries into a 54th bit. *)
Definition round_pos (N D e : Z) : float :=
  let n := Z.log2 (N / D) - 52 in
  let M := rne N (D * 2 ^ n) in
  if M =? 2 ^ 53 then S754_finite false (Z.to_pos (2 ^ 52)) (e + n + 1)
  else S754_finite false (Z.to_pos M) (e + n).

(** How [SpecFloat] records a truncated quotient: the position of
    [N / D] between [N / D] rounded down and the next integer. *)
Definition loc_of (N D : Z) : location :=
  if N mod D =? 0 then loc_Exact
  else loc_Inexact (Z.compare (2 * (N mod D)) D).

Definition rec_of (N D : Z) : shr_record :=
  shr_record_of_loc (N / D) (loc_of N D).

(** A positive normal double with its exponent in a window. *)
Definition pnormal (lo hi : Z) (x : float) : Prop :=
  match x with
  | S754_finite false m e => 2 ^ 52 <= Zpos m < 2 ^ 53 /\ lo <= e <= hi
  | _ => False
  end.

(** Zero or positive normal. *)
Definition nonneg (lo hi : Z) (x : float) : Prop :=
  x = S754_zero false \/ pnormal lo hi x.

End Float64.

(* ================================================================== *)
(** ** NumPy arrays *)
(* ================================================================== *)

Module Numpy.

(** A two-dimensional array is the list of its rows. *)
Definition ndarray (A : Type) : Type := list (list A).

Definition rows {A} (a : ndarray A) : nat := length a.
Definition cols {A} (a : ndarray A) : nat :=
  match a with [] => 0%nat | r :: _ => length r end.

(** [a.size]: the number of elements. *)
Definition size {A} (a : ndarray A) : Z := Z.of_nat (length (concat a)).

(** [a[i][j]], with [d] for an index outside the array. *)
Definition get {A} (d : A) (a : ndarray A) (i j : Z) : A :=
  if (i <? 0) || (j <? 0) then d
  else nth (Z.to_nat j) (nth (Z.to_nat i) a []) d.

Definition zrange (n : nat) : list Z := List.map Z.of_nat (seq 0 n).

(** The [r] x [c] array whose element [(i, j)] is [f i j]. *)
Definition tabulate {A} (r c : nat) (f : Z -> Z -> A) : ndarray A :=
  List.map (fun i => List.map (fun j => f i j) (zrange c)) (zrange r).

Definition map2d {A B} (f : A -> B) (a : ndarray A) : ndarray B :=
  List.map (List.map f) a.

(** [np.sum(a > 0)]: the number of elements above zero. *)
Definition sum_gt0 (a : ndarray Z) : Z :=
  Z.of_nat (length (List.filter (fun v => 0 <? v) (concat a))).

Definition inside {A} (a : ndarray A) (i j : Z) : Prop :=
  0 <= i < Z.of_nat (rows a) /\ 0 <= j < Z.of_nat (cols a).

(** [a.dtype == np.uint8]: every element is between 0 and 255. *)
Definition is_uint8 (a : ndarray Z) : bool :=
  forallb (forallb (fun v => (0 <=? v) && (v <=? 255))) a.

End Numpy.

(* ================================================================== *)
(** ** The OpenCV calls of the script *)
(* ================================================================== *)

(** OpenCV is a dependency of the script; its code is no part of the
    repository.  Each call is modelled from the specification
    (sections 4.1 to 4.4), with the defaults OpenCV documents for the
    arguments the script leaves out. *)

Module Cv2.
Import Numpy.

(** A colour pixel: three 8-bit channels.  A contour: its vertices
    [(x, y)], [x] the column and [y] the row. *)
Definition pixel : Type := Z * Z * Z.
Definition point : Type := Z * Z.
Definition contour : Type := list point.

(** Modelled from the spec: the parts of OpenCV that the specification
    leaves open and that no property below depends on.
    - [imdecode buf]: the decoded BGR image, [None] for bytes that are
      no image ([cv2.imdecode] returns [None]);
    - [luma]: the weighted sum of [COLOR_BGR2GRAY];
    - [gaussian5]: the weighting and rounding of the 5x5 Gaussian
      kernel, applied to the 25 values of a window;
    - [local_max img i j]: non-maximum suppression along the gradient
      direction at [(i, j)], which does not look at the thresholds;
    - [findContours mask]: the outer contours ([RETR_EXTERNAL],
      [CHAIN_APPROX_SIMPLE]) in discovery order;
    - [rectangle_pixels pt1 pt2 thickness x y]: whether the rasterised
      border of the rectangle covers [(x, y)];
    - [text_pixels text org x y]: whether the rendered text
      ([FONT_HERSHEY_SIMPLEX], scale 0.5, thickness 1) covers [(x, y)]. *)
Record backend : Type := {
  imdecode : list Byte.byte -> option (ndarray pixel);
  luma : pixel -> Z;
  gaussian5 : list Z -> Z;
  local_max : ndarray Z -> Z -> Z -> bool;
  findContours : ndarray Z -> list contour;
  rectangle_pixels : point -> point -> Z -> Z -> Z -> bool;
  text_pixels : string -> point -> Z -> Z -> bool
}.

(** Modelled from the spec: [cv2.cvtColor(img, cv2.COLOR_BGR2RGB)], the
    three channels of every pixel in the other order. *)
Definition BGR2RGB (p : pixel) : pixel := let '(b, g, r) := p in (r, g, b).
Definition cvtColor_BGR2RGB (img : ndarray pixel) : ndarray pixel :=
  map2d BGR2RGB img.

(** Modelled from the spec: [cv2.cvtColor(img, cv2.COLOR_BGR2GRAY)],
    section 4.1, "convert to single-channel intensity using a standard
    luma-weighted conversion": a function of the pixel alone. *)
Definition cvtColor_BGR2GRAY (cv : backend) (img : ndarray pixel) : ndarray Z :=
  map2d (luma cv) img.

(** [BORDER_REFLECT_101]: [gfedcb|abcdefgh|gfedcba]. *)
Definition reflect101 (len p : Z) : Z :=
  if len <=? 1 then 0
  else
    let period := 2 * (len - 1) in
    let q := p mod period in
    if q <? len then q else period - q.

Definition offsets5 : list Z := [-2; -1; 0; 1; 2].

Definition window5 (a : ndarray Z) (i j : Z) : list Z :=
  flat_map (fun di =>
    List.map (fun dj =>
      get 0 a (reflect101 (Z.of_nat (rows a)) (i + di))
              (reflect101 (Z.of_nat (cols a)) (j + dj)))
      offsets5)
    offsets5.

(** Modelled from the spec: [cv2.GaussianBlur(gray, (5, 5), 0)],
    section 4.1, "a smoothing (blur) filter with a fixed small
    neighborhood (5x5)": every output pixel is the kernel applied to
    the 5x5 window round it, the border reflected. *)
Definition GaussianBlur (cv : backend) (gray : ndarray Z) : ndarray Z :=
  tabulate (rows gray) (cols gray) (fun i j => gaussian5 cv (window5 gray i j)).

(** [BORDER_REPLICATE]: [aaaaaa|abcdefgh|hhhhhhh]. *)
Definition clamp (len p : Z) : Z := Z.max 0 (Z.min (len - 1) p).

Definition at_replicate (a : ndarray Z) (i j : Z) : Z :=
  get 0 a (clamp (Z.of_nat (rows a)) i) (clamp (Z.of_nat (cols a)) j).

(** Modelled from the spec: the gradient of section 4.2's
    "gradient-based edge detector", as OpenCV's Canny takes it by
    default: 3x3 Sobel derivatives ([apertureSize = 3]) and their L1
    magnitude ([L2gradient = False]). *)
Definition sobel_x (a : ndarray Z) (i j : Z) : Z :=
  (at_replicate a (i - 1) (j + 1) + 2 * at_replicate a i (j + 1)
     + at_replicate a (i + 1) (j + 1))
  - (at_replicate a (i - 1) (j - 1) + 2 * at_replicate a i (j - 1)
     + at_replicate a (i + 1) (j - 1)).

Definition sobel_y (a : ndarray Z) (i j : Z) : Z :=
  (at_replicate a (i + 1) (j - 1) + 2 * at_replicate a (i + 1) j
     + at_replicate a (i + 1) (j + 1))
  - (at_replicate a (i - 1) (j - 1) + 2 * at_replicate a (i - 1) j
     + at_replicate a (i - 1) (j + 1)).

Definition magnitude (a : ndarray Z) (i j : Z) : Z :=
  Z.abs (sobel_x a i j) + Z.abs (sobel_y a i j).

(** [m > threshold], the threshold a double. *)
Definition exceeds (threshold : Float64.float) (m : Z) : bool :=
  Float64.ltb threshold (Float64.of_int m).

(** Pixels that survive suppression and exceed the low threshold. *)
Definition candidates (cv : backend) (a : ndarray Z) (low : Float64.float)
  : ndarray bool :=
  tabulate (rows a) (cols a)
    (fun i j => exceeds low (magnitude a i j) && local_max cv a i j).

(** Candidates that also exceed the high threshold. *)
Definition seeds (cv : backend) (a : ndarray Z) (low high : Float64.float)
  : ndarray bool :=
  tabulate (rows a) (cols a)
    (fun i j => get false (candidates cv a low) i j
                && exceeds high (magnitude a i j)).

Definition neighbours8 : list (Z * Z) :=
  [(-1, -1); (-1, 0); (-1, 1); (0, -1); (0, 1); (1, -1); (1, 0); (1, 1)].

Definition touches (E : ndarray bool) (i j : Z) : bool :=
  existsb (fun d => get false E (i + fst d) (j + snd d)) neighbours8.

(** One round of hysteresis: a candidate next to an edge pixel becomes
    an edge pixel. *)
Definition grow (cand E : ndarray bool) : ndarray bool :=
  tabulate (rows cand) (cols cand)
    (fun i j => get false E i j || (get false cand i j && touches E i j)).

(** Modelled from the spec: hysteresis, section 4.2, "edges are
    confirmed only where gradient magnitude exceeds the low bound and
    connects to a point exceeding the high bound".  The seeds are grown
    until nothing can change: every round but the last adds a pixel,
    and there are [rows * cols] pixels. *)
Definition hysteresis (cand seed : ndarray bool) : ndarray bool :=
  Nat.iter (rows cand * cols cand) (grow cand) seed.

(** Modelled from the spec: [cv2.Canny(image, threshold1, threshold2)],
    section 4.2, "a dual-threshold gradient-based edge detector": 255
    on edges, else 0. *)
Definition Canny (cv : backend) (image : ndarray Z)
    (threshold1 threshold2 : Float64.float) : ndarray Z :=
  map2d (fun b : bool => if b then 255 else 0)
    (hysteresis (candidates cv image threshold1)
                (seeds cv image threshold1 threshold2)).

Definition window3 : list (Z * Z) :=
  [(-1, -1); (-1, 0); (-1, 1); (0, -1); (0, 0); (0, 1); (1, -1); (1, 0); (1, 1)].

(** Modelled from the spec:
    [cv2.dilate(src, np.ones((3,3), np.uint8), iterations=1)], section
    4.2, "dilate the resulting binary mask using a 3x3 structuring
    element for exactly 1 iteration": the maximum over the 3x3
    neighbourhood, pixels outside the image ignored. *)
Definition dilate (src : ndarray Z) : ndarray Z :=
  tabulate (rows src) (cols src)
    (fun i j =>
       fold_right Z.max 0
         (List.map (fun d => get 0 src (i + fst d) (j + snd d)) window3)).

(** Modelled from the spec: [cv2.contourArea], the area of a component
    (section 4.4), which OpenCV computes by Green's formula over the
    vertices; the rational is the exact value of the double returned. *)
Definition cross (p q : point) : Z := fst p * snd q - fst q * snd p.

Fixpoint shoelace (prev : point) (pts : list point) : Z :=
  match pts with
  | [] => 0
  | p :: rest => cross prev p + shoelace p rest
  end.

Definition contourArea (cnt : contour) : Q :=
  match cnt with
  | [] => 0%Q
  | p0 :: _ => Qabs (shoelace (List.last cnt p0) cnt # 2)
  end.

(** Modelled from the spec: [cv2.boundingRect], section 4.4, the
    "axis-aligned bounding box" [(x, y, w, h)] of the vertices. *)
Definition boundingRect (cnt : contour) : Z * Z * Z * Z :=
  match cnt with
  | [] => (0, 0, 0, 0)
  | (x0, y0) :: rest =>
      let xmin := fold_right Z.min x0 (List.map fst rest) in
      let xmax := fold_right Z.max x0 (List.map fst rest) in
      let ymin := fold_right Z.min y0 (List.map snd rest) in
      let ymax := fold_right Z.max y0 (List.map snd rest) in
      (xmin, ymin, xmax - xmin + 1, ymax - ymin + 1)
  end.

(** Modelled from the spec: drawing (section 4.4) writes [color] on the
    pixels the shape covers, clipped to the image, and leaves the shape
    of the array alone. *)
Definition paint (covered : Z -> Z -> bool) (color : pixel)
    (img : ndarray pixel) : ndarray pixel :=
  tabulate (rows img) (cols img)
    (fun i j => if covered j i then color else get (0, 0, 0) img i j).

(** [cv2.rectangle(img, pt1, pt2, color, thickness)] *)
Definition rectangle (cv : backend) (img : ndarray pixel) (pt1 pt2 : point)
    (color : pixel) (thickness : Z) : ndarray pixel :=
  paint (rectangle_pixels cv pt1 pt2 thickness) color img.

(** [cv2.putText(img, text, org, FONT_HERSHEY_SIMPLEX, 0.5, color, 1)] *)
Definition putText (cv : backend) (img : ndarray pixel) (text : string)
    (org : point) (color : pixel) : ndarray pixel :=
  paint (text_pixels cv text org) color img.

(** Comparison of masks: every pixel set in the first is set in the
    second. *)
Definition included (E1 E2 : ndarray bool) : Prop :=
  forall i j, get false E1 i j = true -> get false E2 i j = true.

Definition below (m1 m2 : ndarray Z) : Prop :=
  forall i j, 0 < get 0 m1 i j -> 0 < get 0 m2 i j.

(** The number of pixels set in a mask. *)
Definition count_true (E : ndarray bool) : nat :=
  length (List.filter id (concat E)).

End Cv2.

(* ================================================================== *)
(** ** The script *)
(* ================================================================== *)

Module App.
Import Numpy Cv2.

(** *** Sidebar (section 2 of the script) *)

Record config : Type := { sensitivity : Z; min_area : Z }.

(** What the user did to the two widgets; [None] leaves the default. *)
Record widgets : Type := {
  sensitivity_input : option Z;
  min_area_input : option Z
}.

(** [st.slider(label, min_value, max_value, value)]: the handle cannot
    leave the track. *)
Definition slider (min_value max_value value : Z) (input : option Z) : Z :=
  match input with
  | None => value
  | Some v => Z.max min_value (Z.min max_value v)
  end.

(** [st.number_input(label, value=...)] with an [int] value and without
    [min_value] and [max_value]: Streamlit bounds an integer input by
    [-(1 << 53) + 1] and [(1 << 53) - 1].  An entry within the bounds is
    delivered as typed; an entry outside them is not committed, and the
    widget keeps its value. *)
Definition number_input (value : Z) (input : option Z) : Z :=
  match input with
  | None => value
  | Some v =>
      if (- (2 ^ 53 - 1) <=? v) && (v <=? 2 ^ 53 - 1) then v else value
  end.

Definition sidebar (ui : widgets) : config :=
  {| sensitivity := slider 20 200 100 (sensitivity_input ui);
     min_area := number_input 100 (min_area_input ui) |}.

(** *** Edge detection logic (lines 45-48) *)

Definition edge_mask (cv : backend) (sensitivity : Z) (img : ndarray pixel)
  : ndarray Z :=
  let gray := cvtColor_BGR2GRAY cv img in
  let blurred := GaussianBlur cv gray in
  let edges :=
    Canny cv blurred (Float64.of_int sensitivity)
          (Float64.mul (Float64.of_int sensitivity) Float64.lit_2_5) in
  dilate edges.

(** *** Risk logic (lines 51-57) *)

Inductive status : Type := SAFE | WARNING | CRITICAL.

(** [(np.sum(dilated > 0) / dilated.size) * 100] *)
Definition density (dilated : ndarray Z) : Float64.float :=
  Float64.mul
    (Float64.div (Float64.of_int (sum_gt0 dilated))
                 (Float64.of_int (size dilated)))
    (Float64.of_int 100).

Definition risk (density : Float64.float) : status * pixel :=
  if Float64.ltb density Float64.lit_0_1 then (SAFE, (0, 255, 0))
  else if Float64.ltb density Float64.lit_1_0 then (WARNING, (255, 255, 0))
  else (CRITICAL, (255, 0, 0)).

Definition tier (density : Float64.float) : status := fst (risk density).

(** *** Labelled bounding boxes (lines 60-68) *)

(** [f"Crack {n}"] *)
Definition label (n : Z) : string :=
  String.append "Crack " (NilZero.string_of_int (Z.to_int n)).

(** [cv2.contourArea(cnt) > min_area], a double against an [int]:
    Python compares the exact values. *)
Definition above_min_area (min_area : Z) (cnt : contour) : bool :=
  negb (Qle_bool (contourArea cnt) (inject_Z min_area)).

(** One iteration of [for cnt in contours]. *)
Definition draw_one (cv : backend) (min_area : Z) (color : pixel)
    (cnt : contour) (state : ndarray pixel * Z) : ndarray pixel * Z :=
  let '(overlay, count) := state in
  if above_min_area min_area cnt then
    let '(x, y, w, h) := boundingRect cnt in
    let overlay := rectangle cv overlay (x, y) (x + w, y + h) color 2 in
    let overlay := putText cv overlay (label (count + 1)) (x, y - 5) color in
    (overlay, count + 1)
  else (overlay, count).

Definition draw_regions (cv : backend) (min_area : Z) (color : pixel)
    (contours : list contour) (state : ndarray pixel * Z)
  : ndarray pixel * Z :=
  fold_left (fun st cnt => draw_one cv min_area color cnt st) contours state.

(** The contours that get a box, in order. *)
Definition surviving (min_area : Z) (contours : list contour) : list contour :=
  List.filter (above_min_area min_area) contours.

(** *** One image, and the batch (lines 36-76) *)

Record result : Type := {
  res_name : string;
  res_density : Float64.float;
  res_count : Z;
  res_status : status;
  res_img : ndarray pixel
}.

(** [round(density, 4)] on an [np.float64]: NumPy scales by [10**4],
    rounds to the nearest integer and divides again. *)
Definition round4 (density : Float64.float) : Float64.float :=
  Float64.div (Float64.rint (Float64.mul density (Float64.of_int 10000)))
              (Float64.of_int 10000).

Record uploaded_file : Type := {
  file_name : string;
  file_bytes : list Byte.byte
}.

(** The body of the loop after a successful decode (lines 42-76). *)
Definition analyse_image (cv : backend) (cfg : config) (name : string)
    (img : ndarray pixel) : result :=
  let img_rgb := cvtColor_BGR2RGB img in
  let dilated := edge_mask cv (sensitivity cfg) img in
  let density := density dilated in
  let '(status, color) := risk density in
  let contours := findContours cv dilated in
  let '(overlay, count) :=
    draw_regions cv (min_area cfg) color contours (img_rgb, 0) in
  {| res_name := name;
     res_density := round4 density;
     res_count := count;
     res_status := status;
     res_img := overlay |}.

(** The script has no [try]: an exception leaves the loop and ends the
    run. *)
Inductive outcome (A : Type) : Type :=
  | Returned (a : A)
  | Raised (message : string).
Arguments Returned {A} a.
Arguments Raised {A} message.

(** [cv2.imdecode] returns [None] for undecodable bytes, and
    [cv2.cvtColor(None, ...)] raises [cv2.error]. *)
Definition analyse (cv : backend) (cfg : config) (uploaded : uploaded_file)
  : outcome result :=
  match imdecode cv (file_bytes uploaded) with
  | None => Raised "cv2.error"
  | Some img => Returned (analyse_image cv cfg (file_name uploaded) img)
  end.

(** [for uploaded_file in uploaded_files: ... results_list.append(...)] *)
Fixpoint for_each (cv : backend) (cfg : config)
    (uploaded_files : list uploaded_file) (results_list : list result)
  : outcome (list result) :=
  match uploaded_files with
  | [] => Returned results_list
  | uploaded :: rest =>
      match analyse cv cfg uploaded with
      | Raised e => Raised e
      | Returned r => for_each cv cfg rest (results_list ++ [r])
      end
  end.

Definition run (cv : backend) (ui : widgets)
    (uploaded_files : list uploaded_file) : outcome (list result) :=
  for_each cv (sidebar ui) uploaded_files [].

(** *** The same drawing loop on the heap of array objects

    [img_rgb.copy()] allocates a new array; [cv2.rectangle] and
    [cv2.putText] write into the array they are given. *)

Abbreviation loc := positive (only parsing).
Abbreviation heap := (gmap positive (ndarray pixel)) (only parsing).

Definition copy (h : heap) (src : loc) : option (loc * heap) :=
  match h !! src with
  | None => None
  | Some a => let l := fresh (dom h) in Some (l, <[l := a]> h)
  end.

Definition update (h : heap) (l : loc)
    (f : ndarray pixel -> ndarray pixel) : option heap :=
  match h !! l with
  | None => None
  | Some a => Some (<[l := f a]> h)
  end.

Fixpoint draw_regions_at (cv : backend) (min_area : Z) (color : pixel)
    (contours : list contour) (overlay : loc) (count : Z) (h : heap)
  : option (Z * heap) :=
  match contours with
  | [] => Some (count, h)
  | cnt :: rest =>
      if above_min_area min_area cnt then
        let '(x, y, w, ht) := boundingRect cnt in
        match update h overlay
                (fun a => rectangle cv a (x, y) (x + w, y + ht) color 2) with
        | None => None
        | Some h1 =>
            match update h1 overlay
                    (fun a => putText cv a (label (count + 1)) (x, y - 5) color) with
            | None => None
            | Some h2 =>
                draw_regions_at cv min_area color rest overlay (count + 1) h2
            end
        end
      else draw_regions_at cv min_area color rest overlay count h
  end.

(** Lines 61-68 with [img_rgb] an object of the heap. *)
Definition extract_regions (cv : backend) (min_area : Z) (color : pixel)
    (contours : list contour) (img_rgb : loc) (h : heap)
  : option (loc * Z * heap) :=
  match copy h img_rgb with
  | None => None
  | Some (overlay, h1) =>
      match draw_regions_at cv min_area color contours overlay 0 h1 with
      | None => None
      | Some (count, h2) => Some (overlay, count, h2)
      end
  end.

End App.


(* ================================================================== *)
(** ** The report of the script (lines 35-36 and 78-123) *)
(* ================================================================== *)

Module Report.
Import Numpy Cv2 App.

(** What the report takes from pandas, from Python's formatting of
    floats and from PIL; no property below depends on what they
    compute.
    - [mean]: [df['density'].mean()];
    - [format_2f x]: [f"{x:.2f}"];
    - [str x]: [f"{x}"] for an [np.float64];
    - [save_png a]: the bytes [Image.fromarray(a).save(buf, format="PNG")]
      leaves in [buf]. *)
Record frontend : Type := {
  mean : list Float64.float -> Float64.float;
  format_2f : Float64.float -> string;
  str : Float64.float -> string;
  save_png : ndarray pixel -> list Byte.byte
}.

(** The strings the loop stores under ["status"] (lines 53-57). *)
Definition status_str (s : status) : string :=
  match s with
  | SAFE => "SAFE"
  | WARNING => "WARNING"
  | CRITICAL => "CRITICAL"
  end.

(** [f"{n}"] for an [int] that is not negative. *)
Definition str_int (n : nat) : string := NilZero.string_of_uint (Nat.to_uint n).

(** Statements in sequence: an exception ends the run. *)
Definition bind {A B : Type} (m : outcome A) (f : A -> outcome B) : outcome B :=
  match m with
  | Returned a => f a
  | Raised e => Raised e
  end.

(** [for x in l: body(x)], the results of the bodies collected. *)
Fixpoint for_in {A B : Type} (body : A -> outcome B) (l : list A)
  : outcome (list B) :=
  match l with
  | [] => Returned []
  | x :: rest =>
      bind (body x) (fun y =>
      bind (for_in body rest) (fun ys => Returned (y :: ys)))
  end.

(** [range(0, stop, step)] for [step > 0]: [0, step, 2 * step, ...]
    below [stop]. *)
Definition range_step (stop step : nat) : list nat :=
  List.map (fun k => (k * step)%nat) (seq 0 ((stop + step - 1) / step)).

(** *** Summary tab (lines 78-89) *)

(** A row of [df.drop(columns=['img'])]. *)
Record row : Type := {
  row_name : string;
  row_density : Float64.float;
  row_count : Z;
  row_status : string
}.

Definition drop_img (res : result) : row :=
  {| row_name := res_name res;
     row_density := res_density res;
     row_count := res_count res;
     row_status := status_str (res_status res) |}.

(** The three metrics and the table. *)
Record summary : Type := {
  total_images : Z;
  critical_risks : Z;
  avg_density : string;
  dataframe : list row
}.

Definition tab1 (fe : frontend) (results_list : list result) : summary :=
  {| total_images := Z.of_nat (length results_list);
     critical_risks :=
       Z.of_nat (length (List.filter
                           (fun res => String.eqb (status_str (res_status res)) "CRITICAL")
                           results_list));
     avg_density :=
       String.append (format_2f fe (mean fe (List.map res_density results_list))) "%";
     dataframe := List.map drop_img results_list |}.

(** *** Grid tab (lines 91-121) *)

(** [st.error], [st.warning] and [st.success] with their text. *)
Inductive alert : Type :=
  | error (body : string)
  | warning (body : string)
  | success (body : string).

(** [st.download_button(label=..., data=..., file_name=..., key=...)] *)
Record download_button : Type := {
  button_label : string;
  button_data : list Byte.byte;
  button_file_name : string;
  button_key : string
}.

(** What one column of the grid shows: the thumbnail, the name, the
    status line and the download button. *)
Record card : Type := {
  card_image : ndarray pixel;
  card_markdown : string;
  card_alert : alert;
  card_button : download_button
}.

(** Lines 103-121 for [res = results_list[index]]. *)
Definition render (fe : frontend) (index : nat) (res : result) : card :=
  {| card_image := res_img res;
     card_markdown := String.append "**" (String.append (res_name res) "**");
     card_alert :=
       if String.eqb (status_str (res_status res)) "CRITICAL" then
         error (String.append "🔴 CRITICAL ("
                  (String.append (str fe (res_density res)) "%)"))
       else if String.eqb (status_str (res_status res)) "WARNING" then
         warning (String.append "🟡 WARNING ("
                    (String.append (str fe (res_density res)) "%)"))
       else success "🟢 SAFE";
     card_button :=
       {| button_label := "💾 Save";
          button_data := save_png fe (res_img res);
          button_file_name := String.append "result_" (res_name res);
          button_key := String.append "dl_" (str_int index) |} |}.

Definition cols_per_row : nat := 3.

(** The body of [for j in range(cols_per_row)]: column [j] of the row
    that starts at [i]; [None] is a column left empty.
    [results_list[i + j]] raises [IndexError] outside the list. *)
Definition column (fe : frontend) (results_list : list result) (i j : nat)
  : outcome (option card) :=
  if (i + j <? length results_list)%nat then
    match nth_error results_list (i + j) with
    | Some res => Returned (Some (render fe (i + j) res))
    | None => Raised "IndexError"
    end
  else Returned None.

(** [for i in range(0, len(results_list), cols_per_row)]: the rows of
    [st.columns(cols_per_row)]. *)
Definition tab2 (fe : frontend) (results_list : list result)
  : outcome (list (list (option card))) :=
  for_in
    (fun i => for_in (fun j => column fe results_list i j) (seq 0 cols_per_row))
    (range_step (length results_list) cols_per_row).

(** *** The script from the upload on (lines 33-123) *)

Inductive page : Type :=
  | Hint (body : string)
  | Tabs (report : summary) (grid : list (list (option card))).

(** [if uploaded_files: ... else: st.info(...)]; an empty list is
    false. *)
Definition main (cv : backend) (fe : frontend) (ui : widgets)
    (uploaded_files : list uploaded_file) : outcome page :=
  match uploaded_files with
  | [] => Returned (Hint "Upload images to view the interactive inspection grid.")
  | _ :: _ =>
      bind (run cv ui uploaded_files) (fun results_list =>
      bind (tab2 fe results_list) (fun grid =>
      Returned (Tabs (tab1 fe results_list) grid)))
  end.

(** [enumerate(l)] *)
Definition enumerate {A : Type} (l : list A) : list (nat * A) :=
  combine (seq 0 (length l)) l.

(** The columns of a grid in reading order, and the cards they hold. *)
Definition cards (grid : list (list (option card))) : list card :=
  flat_map (fun c => match c with Some x => [x] | None => [] end)
           (List.concat grid).

End Report.

(* ================================================================== *)
(** ** Description of the drawn area, and a small backend to run on *)
(* ================================================================== *)

Module Drawn.
Import Numpy Cv2 App.

(** The pixels one iteration of the drawing loop writes for [cnt], the
    [n]-th region: the border of its box and its label. *)
Definition footprint (cv : backend) (n : Z) (cnt : contour) (x y : Z) : bool :=
  let '(x0, y0, w, h) := boundingRect cnt in
  rectangle_pixels cv (x0, y0) (x0 + w, y0 + h) 2 x y
  || text_pixels cv (label n) (x0, y0 - 5) x y.

(** The pixels the whole loop writes, [count] regions drawn so far. *)
Fixpoint covered (cv : backend) (min_area : Z) (contours : list contour)
    (count : Z) (x y : Z) : bool :=
  match contours with
  | [] => false
  | cnt :: rest =>
      if above_min_area min_area cnt then
        footprint cv (count + 1) cnt x y
        || covered cv min_area rest (count + 1) x y
      else covered cv min_area rest count x y
  end.

(** Lines 65-67 for [cnt], the [n]-th region: its box, then its label. *)
Definition annotate (cv : backend) (color : pixel) (n : Z) (cnt : contour)
    (overlay : ndarray pixel) : ndarray pixel :=
  let '(x, y, w, h) := boundingRect cnt in
  putText cv (rectangle cv overlay (x, y) (x + w, y + h) color 2)
          (label n) (x, y - 5) color.

(** Regions with their numbers, [count] regions drawn before them. *)
Definition numbered (count : Z) (regions : list contour) : list (Z * contour) :=
  combine (List.map (fun k => count + Z.of_nat k) (seq 1 (length regions))) regions.

End Drawn.

(** Modelled from the spec: the measure of a region in the words of
    the specification.  Section 3 has a Region as "a maximal connected
    component of the EdgeMask", with "its pixel area", and section 4.4
    says "for each component, compute pixel area; discard if area <=
    min_area".  A component is the set of its pixels, and its pixel
    area the number of them. *)
Module Spec.

Definition component : Type := list Cv2.point.

Definition pixel_area (c : component) : Z := Z.of_nat (length c).

Definition discarded (min_area : Z) (c : component) : bool :=
  pixel_area c <=? min_area.

End Spec.

Module Demo.
Import Numpy Cv2 App.

Definition byte_value (b : Byte.byte) : Z := Z.of_N (Byte.to_N b).

Fixpoint chunks {A} (n : nat) (width : nat) (l : list A) : list (list A) :=
  match n with
  | O => []
  | S n' => firstn width l :: chunks n' width (skipn width l)
  end.

(** A toy image format: the number of rows, the number of columns, then
    one gray byte per pixel, row by row. *)
Definition decode (buf : list Byte.byte) : option (ndarray pixel) :=
  match buf with
  | r :: c :: data =>
      let r := Z.to_nat (byte_value r) in
      let c := Z.to_nat (byte_value c) in
      if ((0 <? r) && (0 <? c) && (length data =? r * c))%nat then
        Some (chunks r c
                (List.map (fun b => (byte_value b, byte_value b, byte_value b)) data))
      else None
  | _ => None
  end.

(** The 8-bit [COLOR_BGR2GRAY] weights, scaled by [2^14]. *)
Definition luma601 (p : pixel) : Z :=
  let '(b, g, r) := p in (b * 1868 + g * 9617 + r * 4899 + 8192) / 16384.

(** The 5x5 kernel [1 4 6 4 1] (x) [1 4 6 4 1] / 256. *)
Definition kernel5 : list Z :=
  [1; 4; 6; 4; 1; 4; 16; 24; 16; 4; 6; 24; 36; 24; 6;
   4; 16; 24; 16; 4; 1; 4; 6; 4; 1].

Definition binomial5 (window : list Z) : Z :=
  (fold_right Z.add 0 (List.map (fun wv => fst wv * snd wv) (combine kernel5 window))
   + 128) / 256.

(** One single-point contour per foreground pixel, row by row. *)
Definition pixel_contours (mask : ndarray Z) : list contour :=
  flat_map (fun i =>
    flat_map (fun j => if 0 <? get 0 mask i j then [[(j, i)]] else [])
      (zrange (cols mask)))
    (zrange (rows mask)).

Definition on_border (pt1 pt2 : point) (thickness x y : Z) : bool :=
  let '(x1, y1) := pt1 in
  let '(x2, y2) := pt2 in
  (x1 <=? x) && (x <=? x2) && (y1 <=? y) && (y <=? y2)
  && ((x <? x1 + thickness) || (x2 - thickness <? x)
      || (y <? y1 + thickness) || (y2 - thickness <? y)).

Definition on_baseline (text : string) (org : point) (x y : Z) : bool :=
  let '(x0, y0) := org in
  (y =? y0) && (x0 <=? x) && (x <? x0 + Z.of_nat (String.length text)).

Definition cv : backend := {|
  imdecode := decode;
  luma := luma601;
  gaussian5 := binomial5;
  local_max := fun _ _ _ => true;
  findContours := pixel_contours;
  rectangle_pixels := on_border;
  text_pixels := on_baseline
|}.

(** A backend whose contour tracer returns a fixed list. *)
Definition with_contours (contours : list contour) : backend := {|
  imdecode := decode;
  luma := luma601;
  gaussian5 := binomial5;
  local_max := fun _ _ _ => true;
  findContours := fun _ => contours;
  rectangle_pixels := on_border;
  text_pixels := on_baseline
|}.

(** A 6x6 photograph, dark on the left and bright on the right, in the
    toy format, and bytes that are no image. *)
Definition step_bytes : list Byte.byte :=
  [Byte.x06; Byte.x06] ++
  concat (repeat [Byte.x00; Byte.x00; Byte.x00; Byte.xff; Byte.xff; Byte.xff] 6).

Definition good_file : uploaded_file :=
  {| file_name := "wall.png"; file_bytes := step_bytes |}.

Definition corrupt_file : uploaded_file :=
  {| file_name := "broken.png"; file_bytes := [Byte.x89; Byte.x50] |}.

Definition defaults : widgets :=
  {| sensitivity_input := None; min_area_input := None |}.

(** A square of side 20 (area 400) and a segment (area 0). *)
Definition square20 : contour := [(0, 0); (20, 0); (20, 20); (0, 20)].
Definition segment : contour := [(3, 3); (4, 3)].

(** A mask whose only cells above zero are the first [set] cells of
    the first row. *)
Definition sparse_mask (rows cols set : nat) : ndarray Z :=
  (repeat 255 set ++ repeat 0 (cols - set)) :: repeat (repeat 0 cols) (rows - 1).

(** The pixels of a mask that are above zero, row by row: the
    component of a mask that holds one. *)
Definition foreground (mask : ndarray Z) : Spec.component :=
  flat_map (fun i =>
    flat_map (fun j => if 0 <? get 0 mask i j then [(j, i)] else [])
      (zrange (cols mask)))
    (zrange (rows mask)).

(** A block of 3 x 3 pixels in a mask of 5 x 5, and its outer contour
    as [CHAIN_APPROX_SIMPLE] gives it: the four corner pixels. *)
Definition block_mask : ndarray Z :=
  tabulate 5 5 (fun i j =>
    if (1 <=? i) && (i <=? 3) && (1 <=? j) && (j <=? 3) then 255 else 0).

Definition block_contour : contour := [(1, 1); (1, 3); (3, 3); (3, 1)].

(** A ring of 23 x 23 pixels, 3 pixels wide, in a mask of 25 x 25, and
    its outer contour ([RETR_EXTERNAL] leaves the hole out). *)
Definition ring_mask : ndarray Z :=
  tabulate 25 25 (fun i j =>
    if (1 <=? i) && (i <=? 23) && (1 <=? j) && (j <=? 23)
       && negb ((4 <=? i) && (i <=? 20) && (4 <=? j) && (j <=? 20))
    then 255 else 0).

Definition ring_contour : contour := [(1, 1); (1, 23); (23, 23); (23, 1)].

End Demo.
(* ================================================================== *)
(** * Properties *)
(* ================================================================== *)

(** ** Arrays *)

Section ArrayFacts.
Import Numpy.
Context {A B : Type}.

Lemma zrange_length (n : nat) : length (zrange n) = n.
Proof. unfold zrange. now rewrite length_map, length_seq. Qed.

Lemma nth_zrange (n k : nat) (d : Z) :
  (k < n)%nat -> nth k (zrange n) d = Z.of_nat k.
Proof.
  intros Hk. unfold zrange.
  rewrite (nth_indep _ d (Z.of_nat 0)) by now rewrite length_map, length_seq.
  rewrite map_nth, seq_nth by assumption. reflexivity.
Qed.

Lemma rows_tabulate (r c : nat) (f : Z -> Z -> A) : rows (tabulate r c f) = r.
Proof. unfold rows, tabulate. now rewrite length_map, zrange_length. Qed.

Lemma cols_tabulate (r c : nat) (f : Z -> Z -> A) :
  cols (tabulate r c f) = match r with O => O | S _ => c end.
Proof.
  destruct r as [|r]; [reflexivity|].
  unfold cols, tabulate, zrange. cbn [seq List.map].
  now rewrite !length_map, length_seq.
Qed.

Lemma cols_tabulate_same (a : ndarray B) (f : Z -> Z -> A) :
  cols (tabulate (rows a) (cols a) f) = cols a.
Proof. rewrite cols_tabulate. now destruct a. Qed.

Lemma get_tabulate (d : A) (r c : nat) (f : Z -> Z -> A) (i j : Z) :
  0 <= i < Z.of_nat r -> 0 <= j < Z.of_nat c ->
  get d (tabulate r c f) i j = f i j.
Proof.
  intros Hi Hj. unfold get, tabulate.
  replace ((i <? 0) || (j <? 0)) with false
    by (symmetry; apply orb_false_iff; split; apply Z.ltb_ge; lia).
  set (row := fun i0 : Z => List.map (fun j0 : Z => f i0 j0) (zrange c)).
  rewrite (nth_indep _ [] (row 0)) by (rewrite length_map, zrange_length; lia).
  rewrite map_nth, nth_zrange by lia. unfold row.
  rewrite (nth_indep _ d ((fun j0 : Z => f (Z.of_nat (Z.to_nat i)) j0) 0))
    by (rewrite length_map, zrange_length; lia).
  rewrite map_nth, nth_zrange by lia.
  now rewrite !Z2Nat.id by lia.
Qed.

Lemma get_outside (d : A) (a : ndarray A) (i j : Z) :
  ~ inside a i j -> (forall row, In row a -> length row = cols a) ->
  get d a i j = d.
Proof.
  intros Hout Hrect. unfold get, inside in *.
  destruct (i <? 0) eqn:Hi; [reflexivity|].
  destruct (j <? 0) eqn:Hj; [reflexivity|]. cbn.
  apply Z.ltb_ge in Hi, Hj.
  destruct (Nat.lt_ge_cases (Z.to_nat i) (length a)) as [Hlt|Hge].
  - apply nth_overflow. rewrite Hrect by (apply nth_In; exact Hlt).
    unfold rows in Hout. lia.
  - rewrite (nth_overflow a) by exact Hge. now destruct (Z.to_nat j).
Qed.

Lemma length_concat_const (X : Type) (g : X -> list A) (c : nat) (l : list X) :
  (forall x, length (g x) = c) ->
  length (concat (List.map g l)) = (length l * c)%nat.
Proof.
  intros Hg. induction l as [|x l IH]; cbn [List.map concat length].
  - reflexivity.
  - rewrite length_app, Hg, IH. lia.
Qed.

Lemma size_tabulate (r c : nat) (f : Z -> Z -> A) :
  size (tabulate r c f) = Z.of_nat r * Z.of_nat c.
Proof.
  unfold size, tabulate.
  rewrite (length_concat_const _ _ c), zrange_length by
    (intros; now rewrite length_map, zrange_length).
  lia.
Qed.

End ArrayFacts.

(** ** The order of doubles *)

Section FloatOrder.
Import Float64.

Lemma compare_key (x y : float) :
  is_nan x = false -> is_nan y = false ->
  match SFcompare x y with
  | Some Lt => lex_lt (key x) (key y)
  | Some Eq => key x = key y
  | Some Gt => lex_lt (key y) (key x)
  | None => False
  end.
Proof.
  destruct x as [sx|sx| |sx mx ex], y as [sy|sy| |sy my ey];
    try discriminate; intros _ _; cbn;
    try (destruct sx; cbn; try lia; fail);
    try (destruct sy; cbn; try lia; fail);
    try (destruct sx, sy; cbn; try lia; reflexivity).
  destruct sx, sy; cbn; try lia;
    destruct (Z.compare_spec ex ey); cbn; try lia;
    change (Pos.compare_cont Eq mx my) with (Pos.compare mx my);
    destruct (Pos.compare_spec mx my); cbn; try lia; subst; reflexivity.
Qed.

Ltac lex_lia :=
  repeat match goal with
         | a : (Z * Z * Z)%type |- _ => destruct a as [[? ?] ?]
         end;
  unfold lex_lt, lex_le in *; cbn in *;
  repeat match goal with
         | H : (_, _) = (_, _) |- _ => injection H as ? ?; subst
         end;
  try lia.

Lemma lex_lt_le (a b : Z * Z * Z) : lex_lt a b -> lex_le a b.
Proof. lex_lia. Qed.

Lemma lex_le_refl (a : Z * Z * Z) : lex_le a a.
Proof. lex_lia. Qed.

Lemma lex_not_lt_le (a b : Z * Z * Z) : ~ lex_lt a b <-> lex_le b a.
Proof. lex_lia. Qed.

Lemma lex_le_trans (a b c : Z * Z * Z) : lex_le a b -> lex_le b c -> lex_le a c.
Proof. lex_lia. Qed.

Lemma lex_le_lt_trans (a b c : Z * Z * Z) : lex_le a b -> lex_lt b c -> lex_lt a c.
Proof. lex_lia. Qed.

Lemma ltb_key (x y : float) :
  is_nan x = false -> is_nan y = false ->
  ltb x y = true <-> lex_lt (key x) (key y).
Proof.
  intros Hx Hy. pose proof (compare_key x y Hx Hy) as H.
  unfold ltb, SFltb. destruct (SFcompare x y) as [[]|]; try contradiction.
  - split; [discriminate|]. rewrite H. generalize (key y). intros. lex_lia.
  - tauto.
  - split; [discriminate|]. revert H. generalize (key x) (key y). intros. lex_lia.
Qed.

Lemma leb_key (x y : float) :
  is_nan x = false -> is_nan y = false ->
  leb x y = true <-> lex_le (key x) (key y).
Proof.
  intros Hx Hy. pose proof (compare_key x y Hx Hy) as H.
  unfold leb, SFleb. destruct (SFcompare x y) as [[]|]; try contradiction.
  - rewrite H. split; [intros _; apply lex_le_refl|reflexivity].
  - split; [intros _; now apply lex_lt_le|reflexivity].
  - split; [discriminate|]. revert H. generalize (key x) (key y). intros. lex_lia.
Qed.

Lemma leb_number (x y : float) :
  leb x y = true -> is_nan x = false /\ is_nan y = false.
Proof.
  unfold leb, SFleb.
  destruct x as [| | |[] ? ?], y as [| | |[] ? ?]; cbn; try discriminate; auto;
    try (destruct s; cbn; auto; discriminate).
Qed.

Lemma ltb_number (x y : float) :
  ltb x y = true -> is_nan x = false /\ is_nan y = false.
Proof.
  unfold ltb, SFltb.
  destruct x as [| | |[] ? ?], y as [| | |[] ? ?]; cbn; try discriminate; auto;
    try (destruct s; cbn; auto; discriminate).
Qed.

Lemma ltb_false_leb (x y : float) :
  is_nan x = false -> is_nan y = false ->
  ltb x y = false <-> leb y x = true.
Proof.
  intros Hx Hy. rewrite leb_key by assumption.
  rewrite <- lex_not_lt_le, <- ltb_key by assumption.
  destruct (ltb x y); split; congruence.
Qed.

Lemma leb_refl (x : float) : is_nan x = false -> leb x x = true.
Proof. intros Hx. apply leb_key; auto. apply lex_le_refl. Qed.

Lemma leb_trans (x y z : float) :
  leb x y = true -> leb y z = true -> leb x z = true.
Proof.
  intros Hxy Hyz.
  destruct (leb_number _ _ Hxy) as [Hx Hy], (leb_number _ _ Hyz) as [_ Hz].
  rewrite leb_key in * by assumption. eapply lex_le_trans; eassumption.
Qed.

Lemma leb_ltb_trans (x y z : float) :
  leb x y = true -> ltb y z = true -> ltb x z = true.
Proof.
  intros Hxy Hyz.
  destruct (leb_number _ _ Hxy) as [Hx Hy], (ltb_number _ _ Hyz) as [_ Hz].
  rewrite leb_key in Hxy by assumption. rewrite ltb_key in * by assumption.
  eapply lex_le_lt_trans; eassumption.
Qed.

Lemma lex_lt_le_trans (a b c : Z * Z * Z) : lex_lt a b -> lex_le b c -> lex_lt a c.
Proof. lex_lia. Qed.

Lemma ltb_leb_trans (x y z : float) :
  ltb x y = true -> leb y z = true -> ltb x z = true.
Proof.
  intros Hxy Hyz.
  destruct (ltb_number _ _ Hxy) as [Hx Hy], (leb_number _ _ Hyz) as [_ Hz].
  rewrite leb_key in Hyz by assumption. rewrite ltb_key in * by assumption.
  eapply lex_lt_le_trans; eassumption.
Qed.

Lemma leb_negb_ltb (x y : float) :
  is_nan x = false -> is_nan y = false -> leb y x = negb (ltb x y).
Proof.
  intros Hx Hy. pose proof (ltb_false_leb x y Hx Hy) as H.
  destruct (ltb x y), (leb y x); cbn; try reflexivity.
  - destruct H as [_ H]. now specialize (H eq_refl).
  - destruct H as [H _]. now specialize (H eq_refl).
Qed.

(** A double that is not a number is below no threshold. *)
Lemma tier_nan : App.tier S754_nan = App.CRITICAL.
Proof. reflexivity. Qed.

End FloatOrder.


(** ** Arrays built by [tabulate] *)

Section TabulateFacts.
Import Numpy.
Context {A : Type}.

Lemma in_zrange (n : nat) (i : Z) : In i (zrange n) <-> 0 <= i < Z.of_nat n.
Proof.
  unfold zrange. rewrite in_map_iff. split.
  - intros (k & <- & Hk). apply in_seq in Hk. lia.
  - intros Hi. exists (Z.to_nat i). split; [lia|]. apply in_seq. lia.
Qed.

Lemma get_tabulate_outside (d : A) (r c : nat) (f : Z -> Z -> A) (i j : Z) :
  ~ (0 <= i < Z.of_nat r /\ 0 <= j < Z.of_nat c) ->
  get d (tabulate r c f) i j = d.
Proof.
  intros Hout. unfold get.
  destruct (i <? 0) eqn:Hi; [reflexivity|].
  destruct (j <? 0) eqn:Hj; [reflexivity|]. cbn [orb].
  apply Z.ltb_ge in Hi, Hj.
  destruct (Z_lt_le_dec i (Z.of_nat r)) as [Hir|Hir].
  - apply nth_overflow.
    unfold tabulate.
    set (row := fun i0 : Z => List.map (fun j0 : Z => f i0 j0) (zrange c)).
    rewrite (nth_indep _ [] (row 0)) by (rewrite length_map, zrange_length; lia).
    rewrite map_nth. unfold row. rewrite length_map, zrange_length. lia.
  - rewrite (nth_overflow (tabulate r c f))
      by (pose proof (rows_tabulate r c f) as Hr; unfold rows in Hr; rewrite Hr; lia).
    now destruct (Z.to_nat j).
Qed.

Lemma tabulate_ext (r c : nat) (f g : Z -> Z -> A) :
  (forall i j, 0 <= i < Z.of_nat r -> 0 <= j < Z.of_nat c -> f i j = g i j) ->
  tabulate r c f = tabulate r c g.
Proof.
  intros H. unfold tabulate.
  apply map_ext_in. intros i Hi. apply map_ext_in. intros j Hj.
  apply H; now apply in_zrange.
Qed.

Lemma in_concat_tabulate (r c : nat) (f : Z -> Z -> A) (v : A) :
  In v (concat (tabulate r c f)) ->
  exists i j, 0 <= i < Z.of_nat r /\ 0 <= j < Z.of_nat c /\ v = f i j.
Proof.
  intros H. apply in_concat in H as (row & Hrow & Hv).
  unfold tabulate in Hrow. apply in_map_iff in Hrow as (i & <- & Hi).
  apply in_map_iff in Hv as (j & <- & Hj).
  exists i, j. rewrite <- !in_zrange. auto.
Qed.

Lemma map2d_tabulate {B : Type} (g : A -> B) (r c : nat) (f : Z -> Z -> A) :
  map2d g (tabulate r c f) = tabulate r c (fun i j => g (f i j)).
Proof.
  unfold map2d, tabulate. rewrite map_map. apply map_ext. intros i.
  now rewrite map_map.
Qed.

Lemma rows_map2d {B : Type} (g : A -> B) (a : ndarray A) : rows (map2d g a) = rows a.
Proof. apply length_map. Qed.

Lemma cols_map2d {B : Type} (g : A -> B) (a : ndarray A) : cols (map2d g a) = cols a.
Proof. destruct a; [reflexivity|apply length_map]. Qed.

Lemma get_map2d {B : Type} (g : A -> B) (d : A) (a : ndarray A) (i j : Z) :
  get (g d) (map2d g a) i j = g (get d a i j).
Proof.
  unfold get, map2d. destruct ((i <? 0) || (j <? 0)); [reflexivity|].
  change (@nil B) with (List.map g []). now rewrite !map_nth.
Qed.

End TabulateFacts.

Section CountFacts.
Import Numpy.

Lemma sum_gt0_bounds (a : ndarray Z) : 0 <= sum_gt0 a <= size a.
Proof.
  unfold sum_gt0, size. split; [lia|].
  apply inj_le. apply List.filter_length_le.
Qed.

Lemma count_rows_le (p : Z -> bool) (f g : Z -> Z -> Z) (li lj : list Z) :
  (forall i j, In i li -> In j lj -> p (f i j) = true -> p (g i j) = true) ->
  (length (List.filter p (concat (List.map (fun i => List.map (f i) lj) li)))
   <= length (List.filter p (concat (List.map (fun i => List.map (g i) lj) li))))%nat.
Proof.
  induction li as [|i li IH]; intros H; cbn [List.map concat]; [cbn; lia|].
  rewrite !List.filter_app, !length_app.
  apply Nat.add_le_mono.
  - assert (forall j, In j lj -> p (f i j) = true -> p (g i j) = true) as Hi
      by (intros; apply H; auto using in_eq).
    clear - Hi. induction lj as [|j lj IHj]; cbn [List.map List.filter]; [lia|].
    pose proof (Hi j (in_eq _ _)) as Hj.
    assert (forall j0, In j0 lj -> p (f i j0) = true -> p (g i j0) = true) as Hrest
      by (intros; apply Hi; auto using in_cons).
    specialize (IHj Hrest).
    destruct (p (f i j)); [rewrite Hj by reflexivity; cbn; lia|].
    destruct (p (g i j)); cbn; lia.
  - apply IH. intros i0 j Hi0 Hj. apply H; auto using in_cons.
Qed.

Lemma sum_gt0_tabulate_le (r c : nat) (f g : Z -> Z -> Z) :
  (forall i j, 0 <= i < Z.of_nat r -> 0 <= j < Z.of_nat c ->
               0 < f i j -> 0 < g i j) ->
  sum_gt0 (tabulate r c f) <= sum_gt0 (tabulate r c g).
Proof.
  intros H. unfold sum_gt0, tabulate. apply inj_le.
  apply (count_rows_le (fun v => 0 <? v)).
  intros i j Hi Hj. rewrite !Z.ltb_lt. apply H; now apply in_zrange.
Qed.

Lemma sum_gt0_zero (r c : nat) (f : Z -> Z -> Z) :
  (forall i j, 0 <= i < Z.of_nat r -> 0 <= j < Z.of_nat c -> f i j = 0) ->
  sum_gt0 (tabulate r c f) = 0.
Proof.
  intros H. unfold sum_gt0.
  assert (forall l : list Z, (forall v, In v l -> v = 0) ->
                             List.filter (fun v => 0 <? v) l = []) as Hnil.
  { induction l as [|v l IH]; intros Hl; [reflexivity|]. cbn [List.filter].
    rewrite (Hl v (in_eq _ _)). cbn. apply IH. auto using in_cons. }
  rewrite Hnil; [reflexivity|].
  intros v Hv. apply in_concat_tabulate in Hv as (i & j & Hi & Hj & ->). now apply H.
Qed.

End CountFacts.

(** ** Rounding to nearest, ties to even *)

Section Rounding.
Import Float64.

Lemma digits2_log2 (p : positive) : Zpos (digits2_pos p) = Z.log2 (Zpos p) + 1.
Proof.
  induction p as [p IH|p IH|]; cbn [digits2_pos]; try reflexivity.
  - rewrite Pos2Z.inj_succ, IH. cbn [Z.log2].
    change (Z.pos (Pos.size p)) with (Z.log2 (Zpos p~0)).
    destruct p; cbn; lia.
  - rewrite Pos2Z.inj_succ, IH. cbn [Z.log2].
    destruct p; cbn; lia.
Qed.

Lemma Zdigits2_log2 (m : Z) : 0 < m -> Zdigits2 m = Z.log2 m + 1.
Proof. destruct m; try lia. intros _. apply digits2_log2. Qed.

Lemma pow2_pos (k : Z) : 0 <= k -> 0 < 2 ^ k.
Proof. intros. apply Z.pow_pos_nonneg; lia. Qed.

Lemma pow2_add (a b : Z) : 0 <= a -> 0 <= b -> 2 ^ (a + b) = 2 ^ a * 2 ^ b.
Proof. intros. now apply Z.pow_add_r. Qed.

Lemma pow2_succ (a : Z) : 0 <= a -> 2 ^ (a + 1) = 2 * 2 ^ a.
Proof. intros. rewrite pow2_add by lia. change (2 ^ 1) with 2. lia. Qed.

Lemma pow2_le (a b : Z) : 0 <= a <= b -> 2 ^ a <= 2 ^ b.
Proof. intros. apply Z.pow_le_mono_r; lia. Qed.

Lemma pow2_lt (a b : Z) : 0 <= a < b -> 2 ^ a < 2 ^ b.
Proof. intros. apply Z.pow_lt_mono_r; lia. Qed.

(** *** The fraction [N / D] *)

Lemma div_mod_double (N D : Z) :
  0 <= N -> 0 < D ->
  N / (2 * D) = (N / D) / 2 /\
  N mod (2 * D) = ((N / D) mod 2) * D + N mod D.
Proof.
  intros HN HD.
  pose proof (Z.div_mod N D ltac:(lia)) as E.
  pose proof (Z.mod_pos_bound N D HD) as B.
  pose proof (Z.div_mod (N / D) 2 ltac:(lia)) as E2.
  pose proof (Z.mod_pos_bound (N / D) 2 ltac:(lia)) as B2.
  assert (N = (N / D / 2) * (2 * D) + ((N / D) mod 2 * D + N mod D)) as EN by nia.
  assert (0 <= (N / D) mod 2 * D + N mod D < 2 * D) as BN by nia.
  split.
  - symmetry. apply (Z.div_unique_pos N (2 * D) _ _ BN). lia.
  - symmetry. apply (Z.mod_unique_pos N (2 * D) (N / D / 2) _ BN). lia.
Qed.

Lemma shr_1_rec_of (N D : Z) :
  0 <= N -> 0 < D -> shr_1 (rec_of N D) = rec_of N (2 * D).
Proof.
  intros HN HD.
  destruct (div_mod_double N D HN HD) as [Hq Hr].
  pose proof (Z.mod_pos_bound N D HD) as B.
  pose proof (Z.div_pos N D HN HD) as Q.
  unfold rec_of, loc_of. rewrite Hq, Hr.
  assert (forall l, shr_1 (shr_record_of_loc (N / D) l) =
     shr_record_of_loc (N / D / 2)
       (if (N / D) mod 2 =? 0
        then match l with loc_Exact => loc_Exact | _ => loc_Inexact Lt end
        else match l with loc_Exact => loc_Inexact Eq | _ => loc_Inexact Gt end))
    as Hshr.
  { intros l. destruct (N / D) as [|[q|q|]|q]; try lia.
    - reflexivity || (destruct l as [|[]]; reflexivity).
    - replace (Z.pos q~1 / 2) with (Zpos q)
        by (apply (Z.div_unique _ 2 _ 1); lia).
      replace (Z.pos q~1 mod 2) with 1
        by (apply (Z.mod_unique _ 2 (Zpos q) 1); lia).
      destruct l as [|[]]; reflexivity.
    - replace (Z.pos q~0 / 2) with (Zpos q)
        by (apply (Z.div_unique _ 2 _ 0); lia).
      replace (Z.pos q~0 mod 2) with 0
        by (apply (Z.mod_unique _ 2 (Zpos q) 0); lia).
      destruct l as [|[]]; reflexivity.
    - destruct l as [|[]]; reflexivity. }
  rewrite Hshr. f_equal.
  pose proof (Z.mod_pos_bound (N / D) 2 ltac:(lia)) as B2.
  destruct ((N / D) mod 2 =? 0) eqn:Eb.
  - apply Z.eqb_eq in Eb. rewrite Eb. rewrite Z.mul_0_l, Z.add_0_l.
    destruct (N mod D =? 0) eqn:Er; [reflexivity|].
    apply Z.eqb_neq in Er. f_equal. symmetry. apply Z.compare_lt_iff. lia.
  - apply Z.eqb_neq in Eb. assert ((N / D) mod 2 = 1) as -> by lia.
    rewrite Z.mul_1_l.
    replace (D + N mod D =? 0) with false by (symmetry; apply Z.eqb_neq; lia).
    destruct (N mod D =? 0) eqn:Er.
    + apply Z.eqb_eq in Er. rewrite Er. f_equal. symmetry. apply Z.compare_eq_iff. lia.
    + apply Z.eqb_neq in Er. f_equal. symmetry. apply Z.compare_gt_iff. lia.
Qed.

Lemma iter_shr_1_rec_of (p : positive) (N D : Z) :
  0 <= N -> 0 < D ->
  SpecFloat.iter_pos shr_1 p (rec_of N D) = rec_of N (D * 2 ^ Zpos p).
Proof.
  intros HN. revert D.
  induction p as [p IH|p IH|]; intros D HD; cbn [SpecFloat.iter_pos].
  - rewrite shr_1_rec_of, IH, IH by (try apply Z.mul_pos_pos; try apply pow2_pos; lia).
    f_equal. replace (Zpos p~1) with (Zpos p + Zpos p + 1) by lia.
    rewrite !pow2_add by lia. change (2 ^ 1) with 2. lia.
  - rewrite IH, IH by (try apply Z.mul_pos_pos; try apply pow2_pos; lia).
    f_equal. replace (Zpos p~0) with (Zpos p + Zpos p) by lia.
    rewrite pow2_add by lia. lia.
  - rewrite shr_1_rec_of by assumption. f_equal. change (2 ^ 1) with 2. lia.
Qed.

Lemma round_rec_of (N D : Z) :
  0 < D ->
  round_nearest_even (shr_m (rec_of N D)) (loc_of_shr_record (rec_of N D)) = rne N D.
Proof.
  intros HD. unfold rec_of, loc_of, rne.
  pose proof (Z.mod_pos_bound N D HD) as B.
  destruct (N mod D =? 0) eqn:Er.
  - apply Z.eqb_eq in Er. rewrite Er. cbn.
    now replace (2 * 0 ?= D) with Lt by (symmetry; apply Z.compare_lt_iff; lia).
  - destruct (2 * (N mod D) ?= D); reflexivity.
Qed.

(** [rne N D] is within one half of [N / D], and even on a tie. *)
Lemma rne_spec (N D : Z) :
  0 < D ->
  2 * Z.abs (rne N D * D - N) <= D /\
  (2 * Z.abs (rne N D * D - N) = D -> Z.even (rne N D) = true).
Proof.
  intros HD. unfold rne.
  pose proof (Z.div_mod N D ltac:(lia)) as E.
  pose proof (Z.mod_pos_bound N D HD) as B.
  destruct (Z.compare_spec (2 * (N mod D)) D) as [C|C|C].
  - destruct (Z.even (N / D)) eqn:Ev.
    + split; [nia|auto].
    + split; [nia|]. intros _. rewrite Z.even_add, Ev. reflexivity.
  - split; nia.
  - split; nia.
Qed.

Lemma rne_mono (N1 D1 N2 D2 : Z) :
  0 < D1 -> 0 < D2 -> N1 * D2 <= N2 * D1 -> rne N1 D1 <= rne N2 D2.
Proof.
  intros H1 H2 Hle.
  destruct (rne_spec N1 D1 H1) as [A1 T1], (rne_spec N2 D2 H2) as [A2 T2].
  set (a := rne N1 D1) in *. set (b := rne N2 D2) in *.
  set (X := 2 * N1 + D1 - 2 * (a * D1)).
  set (Y := 2 * (b * D2) + D2 - 2 * N2).
  set (W := N2 * D1 - N1 * D2).
  assert (0 <= X) as HX by (unfold X; lia).
  assert (0 <= Y) as HY by (unfold Y; lia).
  assert (0 <= W) as HW by (unfold W; lia).
  assert (X * D2 + Y * D1 + 2 * W = 2 * (b + 1 - a) * (D1 * D2)) as Hid
    by (unfold X, Y, W; ring).
  assert (0 < D1 * D2) as HP by now apply Z.mul_pos_pos.
  assert (0 <= X * D2) as HXD by now apply Z.mul_nonneg_nonneg; lia.
  assert (0 <= Y * D1) as HYD by now apply Z.mul_nonneg_nonneg; lia.
  destruct (Z_lt_le_dec (b + 1) a) as [Hgt|Hclose].
  { exfalso. assert (2 * (b + 1 - a) * (D1 * D2) < 0) by nia. lia. }
  destruct (Z.eq_dec a (b + 1)) as [Heq|]; [exfalso|lia].
  assert (X * D2 + Y * D1 + 2 * W = 0) as Hz by (rewrite Hid, Heq; ring).
  assert (X = 0) as X0 by nia.
  assert (Y = 0) as Y0 by nia.
  assert (2 * Z.abs (a * D1 - N1) = D1) as E1 by (unfold X in X0; lia).
  assert (2 * Z.abs (b * D2 - N2) = D2) as E2 by (unfold Y in Y0; lia).
  specialize (T1 E1). specialize (T2 E2).
  rewrite Heq, Z.even_add, T2 in T1. discriminate.
Qed.

Lemma rne_exact (a D : Z) : 0 < D -> rne (a * D) D = a.
Proof.
  intros HD. unfold rne. rewrite Z.div_mul, Z.mod_mul by lia.
  now replace (2 * 0 ?= D) with Lt by (symmetry; apply Z.compare_lt_iff; lia).
Qed.

Lemma rne_ge (a N D : Z) : 0 < D -> a * D <= N -> a <= rne N D.
Proof.
  intros HD H. rewrite <- (rne_exact a D HD). apply rne_mono; nia.
Qed.

Lemma rne_le (b N D : Z) : 0 < D -> N <= b * D -> rne N D <= b.
Proof.
  intros HD H. rewrite <- (rne_exact b D HD). apply rne_mono; nia.
Qed.

(** *** [binary_round_aux] on a normal value *)

Lemma fexp_normal (E : Z) : -1074 <= E - 53 -> fexp prec emax E = E - 53.
Proof. intros H. unfold fexp, emin, prec, emax. lia. Qed.

Lemma shr_rec_of (N D e n : Z) :
  0 <= N -> 0 < D -> 0 <= n ->
  shr (rec_of N D) e n = (rec_of N (D * 2 ^ n), e + n).
Proof.
  intros HN HD Hn. unfold shr. destruct n as [|p|p]; try lia.
  - now rewrite Z.pow_0_r, Z.mul_1_r, Z.add_0_r.
  - now rewrite iter_shr_1_rec_of.
Qed.

Lemma log2_bounds (m : Z) :
  0 < m -> 2 ^ Z.log2 m <= m < 2 ^ (Z.log2 m + 1).
Proof. intros H. pose proof (Z.log2_spec m H). now rewrite <- Z.add_1_r in *. Qed.

(** The quotient cut to 53 bits lies between [2^52] and [2^53]. *)
Lemma cut_bounds (N D : Z) :
  0 < D -> 2 ^ 52 * D <= N ->
  let n := Z.log2 (N / D) - 52 in
  0 <= n /\ 2 ^ 52 * (D * 2 ^ n) <= N < 2 ^ 53 * (D * 2 ^ n).
Proof.
  intros HD HN n.
  assert (2 ^ 52 <= N / D) as Hm by (apply Z.div_le_lower_bound; lia).
  assert (0 < N / D) as Hpos by lia.
  assert (52 <= Z.log2 (N / D)) as Hlog
    by (change 52 with (Z.log2 (2 ^ 52)); now apply Z.log2_le_mono).
  destruct (log2_bounds (N / D) Hpos) as [Hlo Hhi].
  pose proof (Z.div_mod N D ltac:(lia)) as E.
  pose proof (Z.mod_pos_bound N D HD) as B.
  assert (0 <= n) as Hn by (unfold n; lia).
  pose proof (pow2_pos n Hn) as Hp.
  replace (Z.log2 (N / D)) with (52 + n) in Hlo by (unfold n; lia).
  replace (Z.log2 (N / D) + 1) with (53 + n) in Hhi by (unfold n; lia).
  rewrite pow2_add in Hlo, Hhi by lia.
  split; [exact Hn|]. split; nia.
Qed.

Lemma rne_cut_bounds (N D : Z) :
  0 < D -> 2 ^ 52 * D <= N ->
  2 ^ 52 <= rne N (D * 2 ^ (Z.log2 (N / D) - 52)) <= 2 ^ 53.
Proof.
  intros HD HN. destruct (cut_bounds N D HD HN) as (Hn & Hlo & Hhi).
  assert (0 < D * 2 ^ (Z.log2 (N / D) - 52)) as HD'
    by (apply Z.mul_pos_pos; [lia|now apply pow2_pos]).
  split; [apply rne_ge|apply rne_le]; lia.
Qed.

Lemma binary_round_aux_normal (N D e : Z) :
  0 < D -> 2 ^ 52 * D <= N ->
  -1074 <= e + (Z.log2 (N / D) - 52) -> e + (Z.log2 (N / D) - 52) + 1 <= 971 ->
  binary_round_aux prec emax false (N / D) e (loc_of N D) = round_pos N D e.
Proof.
  intros HD HN Hlo Hhi.
  destruct (cut_bounds N D HD HN) as (Hn & _).
  pose proof (rne_cut_bounds N D HD HN) as HM.
  assert (2 ^ 52 <= N / D) as Hm by (apply Z.div_le_lower_bound; lia).
  assert (0 <= N) as HN0 by (assert (0 < 2 ^ 52 * D) by lia; lia).
  unfold binary_round_aux, round_pos, shr_fexp.
  set (n := Z.log2 (N / D) - 52) in *.
  rewrite Zdigits2_log2 by lia.
  rewrite fexp_normal by (unfold n in *; lia).
  replace (Z.log2 (N / D) + 1 + e - 53 - e) with n by (unfold n; lia).
  change (shr_record_of_loc (N / D) (loc_of N D)) with (rec_of N D).
  rewrite shr_rec_of by lia.
  rewrite round_rec_of by (apply Z.mul_pos_pos; [lia|now apply pow2_pos]).
  set (M := rne N (D * 2 ^ n)) in *.
  destruct (M =? 2 ^ 53) eqn:EM.
  - apply Z.eqb_eq in EM. rewrite EM.
    change (Zdigits2 (2 ^ 53)) with 54.
    rewrite fexp_normal by lia.
    replace (54 + (e + n) - 53 - (e + n)) with 1 by lia.
    cbn [shr_record_of_loc shr]. cbn [SpecFloat.iter_pos].
    change (shr_1 {| shr_m := 2 ^ 53; shr_r := false; shr_s := false |})
      with {| shr_m := 2 ^ 52; shr_r := false; shr_s := false |}.
    cbn [shr_m]. change (2 ^ 52) with (Zpos (Z.to_pos (2 ^ 52))) at 1.
    cbn iota.
    replace (e + n + 1 <=? emax - prec) with true
      by (symmetry; apply Z.leb_le; unfold emax, prec; lia).
    reflexivity.
  - apply Z.eqb_neq in EM.
    assert (Z.log2 M = 52) as HlogM.
    { apply Z.log2_unique; [lia|]. change (2 ^ (52 + 1)) with (2 ^ 53). lia. }
    rewrite Zdigits2_log2, HlogM by lia.
    rewrite fexp_normal by lia.
    replace (52 + 1 + (e + n) - 53 - (e + n)) with 0 by lia.
    cbn [shr_record_of_loc shr shr_m].
    destruct M as [|p|p]; try lia.
    replace (e + n <=? emax - prec) with true
      by (symmetry; apply Z.leb_le; unfold emax, prec; lia).
    reflexivity.
Qed.


(** *** Rounding is monotone *)

Lemma leb_finite_pos (m1 m2 : positive) (e1 e2 : Z) :
  e1 < e2 \/ (e1 = e2 /\ Zpos m1 <= Zpos m2) ->
  leb (S754_finite false m1 e1) (S754_finite false m2 e2) = true.
Proof.
  intros H. apply leb_key; try reflexivity. unfold lex_le. cbn. lia.
Qed.

Lemma leb_finite_pos_inv (m1 m2 : positive) (e1 e2 : Z) :
  leb (S754_finite false m1 e1) (S754_finite false m2 e2) = true ->
  e1 < e2 \/ (e1 = e2 /\ Zpos m1 <= Zpos m2).
Proof.
  intros H. apply leb_key in H; try reflexivity. unfold lex_le in H. cbn in H. lia.
Qed.

Lemma round_pos_pnormal (N D e : Z) :
  0 < D -> 2 ^ 52 * D <= N ->
  pnormal (e + (Z.log2 (N / D) - 52)) (e + (Z.log2 (N / D) - 52) + 1)
          (round_pos N D e).
Proof.
  intros HD HN. pose proof (rne_cut_bounds N D HD HN) as HM.
  unfold round_pos. destruct (_ =? 2 ^ 53) eqn:EM.
  - cbn. lia.
  - apply Z.eqb_neq in EM. cbn [pnormal].
    rewrite Z2Pos.id by lia. lia.
Qed.

Lemma round_pos_mono (L N1 D1 e1 N2 D2 e2 : Z) :
  0 < D1 -> 2 ^ 52 * D1 <= N1 -> 0 < D2 -> 2 ^ 52 * D2 <= N2 ->
  0 <= e1 + L -> 0 <= e2 + L ->
  N1 * 2 ^ (e1 + L) * D2 <= N2 * 2 ^ (e2 + L) * D1 ->
  leb (round_pos N1 D1 e1) (round_pos N2 D2 e2) = true.
Proof.
  intros HD1 HN1 HD2 HN2 HL1 HL2 HV.
  destruct (cut_bounds N1 D1 HD1 HN1) as (Hn1 & Hlo1 & Hhi1).
  destruct (cut_bounds N2 D2 HD2 HN2) as (Hn2 & Hlo2 & Hhi2).
  pose proof (rne_cut_bounds N1 D1 HD1 HN1) as HM1.
  pose proof (rne_cut_bounds N2 D2 HD2 HN2) as HM2.
  unfold round_pos.
  set (n1 := Z.log2 (N1 / D1) - 52) in *.
  set (n2 := Z.log2 (N2 / D2) - 52) in *.
  set (D1' := D1 * 2 ^ n1) in *. set (D2' := D2 * 2 ^ n2) in *.
  set (M1 := rne N1 D1') in *. set (M2 := rne N2 D2') in *.
  pose proof (pow2_pos n1 Hn1) as Hp1. pose proof (pow2_pos n2 Hn2) as Hp2.
  assert (0 < D1') as HD1' by (apply Z.mul_pos_pos; lia).
  assert (0 < D2') as HD2' by (apply Z.mul_pos_pos; lia).
  (* the comparison of the two values, at the exponents of the cuts *)
  assert (N1 * 2 ^ (e1 + n1 + L) * D2' <= N2 * 2 ^ (e2 + n2 + L) * D1') as HV'.
  { assert (N1 * 2 ^ (e1 + n1 + L) * D2'
            = N1 * 2 ^ (e1 + L) * D2 * (2 ^ n1 * 2 ^ n2)) as ->.
    { unfold D2'. replace (e1 + n1 + L) with ((e1 + L) + n1) by lia.
      rewrite pow2_add by lia. ring. }
    assert (N2 * 2 ^ (e2 + n2 + L) * D1'
            = N2 * 2 ^ (e2 + L) * D1 * (2 ^ n1 * 2 ^ n2)) as ->.
    { unfold D1'. replace (e2 + n2 + L) with ((e2 + L) + n2) by lia.
      rewrite pow2_add by lia. ring. }
    apply Z.mul_le_mono_nonneg_r; [|exact HV].
    apply Z.mul_nonneg_nonneg; lia. }
  set (t1 := e1 + n1) in *. set (t2 := e2 + n2) in *.
  assert (0 <= t1 + L) as Ht1 by (unfold t1; lia).
  assert (0 <= t2 + L) as Ht2 by (unfold t2; lia).
  pose proof (pow2_pos _ Ht2) as Hq2.
  assert (t1 <= t2) as Hle.
  { destruct (Z_le_gt_dec t1 t2) as [|Hgt]; [assumption|exfalso].
    assert (2 * 2 ^ (t2 + L) <= 2 ^ (t1 + L)) as Hpow.
    { rewrite <- pow2_succ by lia. apply pow2_le. lia. }
    assert (2 ^ 52 * D1' * (2 * 2 ^ (t2 + L)) * D2' <= N1 * 2 ^ (t1 + L) * D2') as A.
    { apply Z.mul_le_mono_nonneg_r; [lia|].
      apply Z.mul_le_mono_nonneg; try lia. }
    assert (N2 * 2 ^ (t2 + L) * D1' < 2 ^ 53 * D2' * 2 ^ (t2 + L) * D1') as B.
    { apply Z.mul_lt_mono_pos_r; [lia|].
      apply Z.mul_lt_mono_pos_r; lia. }
    change (2 ^ 53) with (2 * 2 ^ 52) in B.
    assert (2 ^ 52 * D1' * (2 * 2 ^ (t2 + L)) * D2'
            = 2 * 2 ^ 52 * D2' * 2 ^ (t2 + L) * D1') as Eq by ring.
    lia. }
  assert (Zpos (Z.to_pos (2 ^ 52)) = 2 ^ 52) as E52 by reflexivity.
  destruct (Z.eq_dec t1 t2) as [Heq|Hne].
  - (* the same exponent: the cuts are ordered *)
    assert (M1 <= M2) as HM.
    { apply rne_mono; try assumption.
      rewrite Heq in HV'.
      apply (Zmult_lt_0_le_reg_r _ _ (2 ^ (t2 + L))); [lia|].
      replace (N1 * D2' * 2 ^ (t2 + L)) with (N1 * 2 ^ (t2 + L) * D2') by ring.
      replace (N2 * D1' * 2 ^ (t2 + L)) with (N2 * 2 ^ (t2 + L) * D1') by ring.
      exact HV'. }
    destruct (M1 =? 2 ^ 53) eqn:E1, (M2 =? 2 ^ 53) eqn:E2;
      rewrite ?Z.eqb_eq, ?Z.eqb_neq in *; apply leb_finite_pos;
      rewrite ?Z2Pos.id by lia; rewrite ?E52; lia.
  - (* a smaller exponent: the binade below *)
    destruct (M1 =? 2 ^ 53) eqn:E1, (M2 =? 2 ^ 53) eqn:E2;
      rewrite ?Z.eqb_eq, ?Z.eqb_neq in *; apply leb_finite_pos;
      rewrite ?Z2Pos.id by lia; rewrite ?E52; lia.
Qed.


(** *** The three operations as roundings *)

Lemma loc_of_exact (N : Z) : loc_of N 1 = loc_Exact.
Proof. unfold loc_of. now rewrite Z.mod_1_r. Qed.

Lemma iter_xO (k p : positive) : Zpos (Pos.iter xO p k) = Zpos p * 2 ^ Zpos k.
Proof.
  induction k as [|k IH] using Pos.peano_ind.
  - cbn. lia.
  - rewrite Pos.iter_succ, Pos2Z.inj_xO, IH, Pos2Z.inj_succ.
    unfold Z.succ. rewrite pow2_add by lia. change (2 ^ 1) with 2. lia.
Qed.

Lemma new_location_loc_of (N D : Z) :
  0 < D -> new_location D (N mod D) = loc_of N D.
Proof.
  intros HD. unfold new_location, new_location_even, new_location_odd, loc_of.
  pose proof (Z.mod_pos_bound N D HD) as B.
  destruct (Z.even D) eqn:Ev; destruct (N mod D =? 0); try reflexivity.
  f_equal.
  assert (Z.odd D = true) as Hodd by (rewrite <- Z.negb_even, Ev; reflexivity).
  apply Z.odd_spec in Hodd as [k Hk].
  destruct (Z.compare_spec (2 * (N mod D) + 1) D);
    destruct (Z.compare_spec (2 * (N mod D)) D); try reflexivity; lia.
Qed.

(** [of_int n] rounds [n]. *)
Lemma of_int_round (n : Z) :
  0 < n -> Z.log2 n <= 1022 ->
  of_int n = round_pos (n * 2 ^ Z.max 0 (52 - Z.log2 n)) 1 (- Z.max 0 (52 - Z.log2 n)).
Proof.
  intros Hn Hlog. destruct n as [|p|p]; try lia.
  pose proof (Z.log2_nonneg (Zpos p)) as Hl0.
  destruct (log2_bounds (Zpos p) Hn) as [Hlo Hhi].
  set (s := Z.max 0 (52 - Z.log2 (Zpos p))).
  assert (0 <= s) as Hs by (unfold s; lia).
  assert (Z.log2 (Zpos p * 2 ^ s) = s + Z.log2 (Zpos p)) as Hlogs
    by (apply Z.log2_mul_pow2; lia).
  assert (2 ^ 52 * 1 <= Zpos p * 2 ^ s) as H52.
  { rewrite Z.mul_1_r.
    apply Z.le_trans with (2 ^ Z.log2 (Zpos p) * 2 ^ s).
    - rewrite <- pow2_add by lia. apply pow2_le. unfold s. lia.
    - apply Z.mul_le_mono_nonneg_r; [|exact Hlo]. pose proof (pow2_pos s Hs). lia. }
  rewrite <- (binary_round_aux_normal (Zpos p * 2 ^ s) 1 (- s));
    rewrite ?Z.div_1_r, ?Hlogs; try lia; try (unfold s; lia).
  rewrite loc_of_exact.
  unfold of_int, binary_normalize, binary_round.
  rewrite digits2_log2, Z.add_0_r, fexp_normal by lia.
  unfold shl_align.
  destruct (Z.log2 (Zpos p) + 1 - 53 - 0) as [|k|k] eqn:Ek.
  - assert (s = 0) as -> by (unfold s; lia). now rewrite Z.mul_1_r.
  - assert (s = 0) as -> by (unfold s; lia). now rewrite Z.mul_1_r.
  - assert (s = Zpos k) as -> by (unfold s; lia).
    rewrite iter_xO. f_equal. lia.
Qed.

Lemma of_int_pnormal (n : Z) :
  0 < n -> Z.log2 n <= 1022 ->
  pnormal (Z.log2 n - 52) (Z.log2 n - 51) (of_int n).
Proof.
  intros Hn Hlog. rewrite of_int_round by assumption.
  pose proof (Z.log2_nonneg n) as Hl0.
  destruct (log2_bounds n Hn) as [Hlo Hhi].
  set (s := Z.max 0 (52 - Z.log2 n)).
  assert (0 <= s) as Hs by (unfold s; lia).
  assert (Z.log2 (n * 2 ^ s) = s + Z.log2 n) as Hlogs
    by (apply Z.log2_mul_pow2; lia).
  assert (2 ^ 52 * 1 <= n * 2 ^ s) as H52.
  { rewrite Z.mul_1_r.
    apply Z.le_trans with (2 ^ Z.log2 n * 2 ^ s).
    - rewrite <- pow2_add by lia. apply pow2_le. unfold s. lia.
    - apply Z.mul_le_mono_nonneg_r; [|exact Hlo]. pose proof (pow2_pos s Hs). lia. }
  pose proof (round_pos_pnormal (n * 2 ^ s) 1 (- s) ltac:(lia) H52) as P.
  rewrite Z.div_1_r, Hlogs in P.
  replace (- s + (s + Z.log2 n - 52)) with (Z.log2 n - 52) in P by lia.
  replace (Z.log2 n - 51) with (Z.log2 n - 52 + 1) by lia. exact P.
Qed.

(** [x * y] rounds the product of the mantissas. *)
Lemma mul_round (mx my : positive) (ex ey : Z) :
  2 ^ 52 <= Zpos mx < 2 ^ 53 -> 2 ^ 52 <= Zpos my < 2 ^ 53 ->
  -1126 <= ex + ey <= 917 ->
  mul (S754_finite false mx ex) (S754_finite false my ey)
  = round_pos (Zpos mx * Zpos my) 1 (ex + ey).
Proof.
  intros Hx Hy He.
  assert (2 ^ 104 <= Zpos mx * Zpos my < 2 ^ 106) as HN.
  { change (2 ^ 104) with (2 ^ 52 * 2 ^ 52). change (2 ^ 106) with (2 ^ 53 * 2 ^ 53).
    split; [apply Z.mul_le_mono_nonneg; lia|apply Z.mul_lt_mono_nonneg; lia]. }
  assert (104 <= Z.log2 (Zpos mx * Zpos my) <= 105) as Hlog.
  { split.
    - change 104 with (Z.log2 (2 ^ 104)). apply Z.log2_le_mono. lia.
    - apply Z.lt_succ_r. apply Z.log2_lt_pow2; [lia|]. exact (proj2 HN). }
  rewrite <- (binary_round_aux_normal (Zpos mx * Zpos my) 1 (ex + ey));
    rewrite ?Z.div_1_r; try lia.
  rewrite loc_of_exact. reflexivity.
Qed.

(** [x / y] rounds the quotient of the mantissas. *)
Lemma div_round (mx my : positive) (ex ey : Z) :
  2 ^ 52 <= Zpos mx < 2 ^ 53 -> 2 ^ 52 <= Zpos my < 2 ^ 53 ->
  -1021 <= ex - ey <= 1022 ->
  div (S754_finite false mx ex) (S754_finite false my ey)
  = round_pos (Zpos mx * 2 ^ 53) (Zpos my) (ex - ey - 53).
Proof.
  intros Hx Hy He.
  assert (2 ^ 52 * Zpos my <= Zpos mx * 2 ^ 53) as HN.
  { change (2 ^ 53) with (2 * 2 ^ 52) in *. nia. }
  assert (2 ^ 52 <= Zpos mx * 2 ^ 53 / Zpos my) as Hq
    by (apply Z.div_le_lower_bound; lia).
  assert (Zpos mx * 2 ^ 53 / Zpos my < 2 ^ 54) as Hq'.
  { apply Z.div_lt_upper_bound; [lia|].
    change (2 ^ 54) with (2 ^ 53 * 2) in *. change (2 ^ 53) with (2 ^ 52 * 2) in *. nia. }
  assert (52 <= Z.log2 (Zpos mx * 2 ^ 53 / Zpos my) <= 53) as Hlog.
  { split.
    - change 52 with (Z.log2 (2 ^ 52)). now apply Z.log2_le_mono.
    - apply Z.lt_succ_r. apply Z.log2_lt_pow2; [lia|]. exact Hq'. }
  rewrite <- (binary_round_aux_normal (Zpos mx * 2 ^ 53) (Zpos my) (ex - ey - 53))
    by lia.
  unfold div, SFdiv, SFdiv_core_binary. cbn [xorb].
  rewrite !Zdigits2_log2 by lia.
  assert (Z.log2 (Zpos mx) = 52) as -> by (apply Z.log2_unique; [lia|exact Hx]).
  assert (Z.log2 (Zpos my) = 52) as -> by (apply Z.log2_unique; [lia|exact Hy]).
  rewrite fexp_normal by lia.
  replace (Z.min (52 + 1 + ex - (52 + 1 + ey) - 53) (ex - ey)) with (ex - ey - 53) by lia.
  replace (ex - ey - (ex - ey - 53)) with 53 by lia.
  rewrite Z.shiftl_mul_pow2 by lia.
  unfold Z.div, Z.modulo.
  pose proof (new_location_loc_of (Zpos mx * 2 ^ 53) (Zpos my) ltac:(lia)) as Hloc.
  unfold Z.modulo in Hloc.
  destruct (Z.div_eucl (Zpos mx * 2 ^ 53) (Zpos my)) as [q r].
  now rewrite Hloc.
Qed.


(** *** Windows of exponents *)

Lemma pnormal_weaken (lo hi lo' hi' : Z) (x : float) :
  lo' <= lo -> hi <= hi' -> pnormal lo hi x -> pnormal lo' hi' x.
Proof. destruct x as [| | |[] m e]; cbn; try tauto. lia. Qed.

Lemma nonneg_weaken (lo hi lo' hi' : Z) (x : float) :
  lo' <= lo -> hi <= hi' -> nonneg lo hi x -> nonneg lo' hi' x.
Proof. intros ? ? [H|H]; [now left|right]. eapply pnormal_weaken; eassumption. Qed.

Lemma leb_zero_nonneg (lo hi : Z) (x : float) :
  nonneg lo hi x -> leb (S754_zero false) x = true.
Proof.
  intros [->|H]; [reflexivity|]. now destruct x as [| | |[] m e].
Qed.

Lemma nonneg_number (lo hi : Z) (x : float) : nonneg lo hi x -> is_nan x = false.
Proof. intros [->|H]; [reflexivity|]. now destruct x. Qed.

Lemma of_int_nonneg (n : Z) :
  0 <= n < 2 ^ 63 -> nonneg (-52) 11 (of_int n).
Proof.
  intros Hn. destruct (Z.eq_dec n 0) as [->|Hne]; [now left|right].
  assert (Z.log2 n < 63) as Hlog by (apply Z.log2_lt_pow2; lia).
  pose proof (Z.log2_nonneg n).
  eapply pnormal_weaken; [| |apply of_int_pnormal]; lia.
Qed.

Lemma of_int_pos_pnormal (n : Z) :
  0 < n < 2 ^ 63 -> pnormal (-52) 11 (of_int n).
Proof.
  intros Hn. destruct (of_int_nonneg n ltac:(lia)) as [E|H]; [|exact H].
  pose proof (of_int_pnormal n ltac:(lia)) as P.
  assert (Z.log2 n < 63) as Hlog by (apply Z.log2_lt_pow2; lia).
  rewrite E in P. destruct (P ltac:(lia)).
Qed.

Lemma mul_log2 (mx my : Z) :
  2 ^ 52 <= mx < 2 ^ 53 -> 2 ^ 52 <= my < 2 ^ 53 ->
  104 <= Z.log2 (mx * my) <= 105.
Proof.
  intros Hx Hy.
  assert (2 ^ 104 <= mx * my < 2 ^ 106) as HN.
  { change (2 ^ 104) with (2 ^ 52 * 2 ^ 52). change (2 ^ 106) with (2 ^ 53 * 2 ^ 53).
    split; [apply Z.mul_le_mono_nonneg; lia|apply Z.mul_lt_mono_nonneg; lia]. }
  split.
  - change 104 with (Z.log2 (2 ^ 104)). apply Z.log2_le_mono. lia.
  - apply Z.lt_succ_r. apply Z.log2_lt_pow2; [lia|]. exact (proj2 HN).
Qed.

Lemma div_log2 (mx my : Z) :
  2 ^ 52 <= mx < 2 ^ 53 -> 2 ^ 52 <= my < 2 ^ 53 ->
  2 ^ 52 * my <= mx * 2 ^ 53 /\ 52 <= Z.log2 (mx * 2 ^ 53 / my) <= 53.
Proof.
  intros Hx Hy.
  assert (2 ^ 52 * my <= mx * 2 ^ 53) as HN
    by (change (2 ^ 53) with (2 * 2 ^ 52) in *; nia).
  assert (2 ^ 52 <= mx * 2 ^ 53 / my) as Hq by (apply Z.div_le_lower_bound; lia).
  assert (mx * 2 ^ 53 / my < 2 ^ 54) as Hq'.
  { apply Z.div_lt_upper_bound; [lia|].
    change (2 ^ 54) with (2 ^ 53 * 2) in *. change (2 ^ 53) with (2 ^ 52 * 2) in *. nia. }
  split; [exact HN|]. split.
  - change 52 with (Z.log2 (2 ^ 52)). now apply Z.log2_le_mono.
  - apply Z.lt_succ_r. apply Z.log2_lt_pow2; [lia|]. exact Hq'.
Qed.

Lemma mul_pnormal (lo hi lo' hi' : Z) (x y : float) :
  pnormal lo hi x -> pnormal lo' hi' y -> -1126 <= lo + lo' -> hi + hi' <= 917 ->
  pnormal (lo + lo' + 52) (hi + hi' + 54) (mul x y).
Proof.
  destruct x as [| | |[] mx ex], y as [| | |[] my ey]; cbn [pnormal]; try tauto.
  intros [Hx Hex] [Hy Hey] Hlo Hhi.
  rewrite mul_round by lia.
  pose proof (mul_log2 _ _ Hx Hy) as Hlog.
  eapply pnormal_weaken; [| |apply round_pos_pnormal];
    rewrite ?Z.div_1_r; try lia.
Qed.

Lemma div_pnormal (lo hi lo' hi' : Z) (x y : float) :
  pnormal lo hi x -> pnormal lo' hi' y -> -1021 <= lo - hi' -> hi - lo' <= 1022 ->
  pnormal (lo - hi' - 53) (hi - lo' - 51) (div x y).
Proof.
  destruct x as [| | |[] mx ex], y as [| | |[] my ey]; cbn [pnormal]; try tauto.
  intros [Hx Hex] [Hy Hey] Hlo Hhi.
  rewrite div_round by lia.
  destruct (div_log2 _ _ Hx Hy) as [HN Hlog].
  eapply pnormal_weaken; [| |apply round_pos_pnormal]; lia.
Qed.

(** *** The operations are monotone *)

Lemma lex_value_le (m1 m2 e1 e2 K : Z) :
  2 ^ 52 <= m1 < 2 ^ 53 -> 2 ^ 52 <= m2 -> 0 <= e1 + K ->
  e1 < e2 \/ (e1 = e2 /\ m1 <= m2) ->
  m1 * 2 ^ (e1 + K) <= m2 * 2 ^ (e2 + K).
Proof.
  intros H1 H2 HK [Hlt|[-> Hle]].
  - pose proof (pow2_pos _ HK) as Hp.
    assert (2 * 2 ^ (e1 + K) <= 2 ^ (e2 + K)) as Hpow
      by (rewrite <- pow2_succ by lia; apply pow2_le; lia).
    change (2 ^ 53) with (2 ^ 52 * 2) in H1.
    apply Z.le_trans with (2 ^ 52 * (2 * 2 ^ (e1 + K))); [nia|].
    apply Z.mul_le_mono_nonneg; lia.
  - apply Z.mul_le_mono_nonneg_r; [|exact Hle]. pose proof (pow2_pos _ HK). lia.
Qed.

Lemma of_int_mono (a b : Z) :
  0 <= a <= b -> Z.log2 b <= 1022 -> leb (of_int a) (of_int b) = true.
Proof.
  intros Hab Hlog.
  destruct (Z.eq_dec a 0) as [->|Ha].
  - destruct (Z.eq_dec b 0) as [->|Hb]; [reflexivity|].
    pose proof (of_int_pnormal b ltac:(lia) Hlog) as P.
    now destruct (of_int b) as [| | |[] m e].
  - assert (Z.log2 a <= Z.log2 b) as Hl by (apply Z.log2_le_mono; lia).
    pose proof (Z.log2_nonneg a). pose proof (Z.log2_nonneg b).
    destruct (log2_bounds a ltac:(lia)) as [Hlo1 _].
    destruct (log2_bounds b ltac:(lia)) as [Hlo2 _].
    rewrite !of_int_round by lia.
    set (s1 := Z.max 0 (52 - Z.log2 a)). set (s2 := Z.max 0 (52 - Z.log2 b)).
    assert (0 <= s1 <= 52) as Hs1 by (unfold s1; lia).
    assert (0 <= s2 <= 52) as Hs2 by (unfold s2; lia).
    assert (forall n s, 0 < n -> 0 <= s -> 52 - Z.log2 n <= s ->
                        2 ^ 52 * 1 <= n * 2 ^ s) as H52.
    { intros n s Hn Hs Hsl. rewrite Z.mul_1_r.
      destruct (log2_bounds n Hn) as [Hlo _]. pose proof (Z.log2_nonneg n).
      apply Z.le_trans with (2 ^ Z.log2 n * 2 ^ s).
      - rewrite <- pow2_add by lia. apply pow2_le. lia.
      - apply Z.mul_le_mono_nonneg_r; [|exact Hlo]. pose proof (pow2_pos s Hs). lia. }
    apply (round_pos_mono 52); try lia;
      try (apply H52; unfold s1, s2; lia).
    rewrite !Z.mul_1_r.
    replace (a * 2 ^ s1 * 2 ^ (- s1 + 52)) with (a * 2 ^ 52)
      by (rewrite <- Z.mul_assoc, <- pow2_add by lia; f_equal; f_equal; lia).
    replace (b * 2 ^ s2 * 2 ^ (- s2 + 52)) with (b * 2 ^ 52)
      by (rewrite <- Z.mul_assoc, <- pow2_add by lia; f_equal; f_equal; lia).
    lia.
Qed.

Lemma mul_mono (lo hi lo' hi' : Z) (x1 x2 y : float) :
  nonneg lo hi x1 -> nonneg lo hi x2 -> pnormal lo' hi' y ->
  -1126 <= lo + lo' -> hi + hi' <= 917 ->
  leb x1 x2 = true -> leb (mul x1 y) (mul x2 y) = true.
Proof.
  intros H1 H2 Hy Hlo Hhi Hle.
  destruct H1 as [->|H1].
  - assert (mul (S754_zero false) y = S754_zero false) as ->
      by now destruct y as [| | |[] my ey].
    destruct H2 as [->|H2].
    + now destruct y as [| | |[] my ey].
    + pose proof (mul_pnormal _ _ _ _ _ _ H2 Hy Hlo Hhi) as P.
      now destruct (mul x2 y) as [| | |[] m e].
  - destruct H2 as [->|H2]; [now destruct x1 as [| | |[] m e]|].
    destruct x1 as [| | |[] m1 e1], x2 as [| | |[] m2 e2], y as [| | |[] my ey];
      cbn [pnormal] in *; try tauto.
    destruct H1 as [Hm1 He1], H2 as [Hm2 He2], Hy as [Hmy Hey].
    apply leb_finite_pos_inv in Hle.
    rewrite !mul_round by lia.
    assert (forall m, 2 ^ 52 <= m -> 2 ^ 52 * 1 <= m * Zpos my) as H52
      by (intros; change (2 ^ 52) with 4503599627370496 in *; nia).
    apply (round_pos_mono 1126); try lia; try (apply H52; lia).
    rewrite !Z.mul_1_r.
    pose proof (lex_value_le (Zpos m1) (Zpos m2) e1 e2 (ey + 1126)
                  Hm1 ltac:(lia) ltac:(lia) Hle) as HV.
    replace (e1 + ey + 1126) with (e1 + (ey + 1126)) by lia.
    replace (e2 + ey + 1126) with (e2 + (ey + 1126)) by lia.
    nia.
Qed.

Lemma div_mono (lo hi lo' hi' : Z) (x1 x2 y : float) :
  nonneg lo hi x1 -> nonneg lo hi x2 -> pnormal lo' hi' y ->
  -1021 <= lo - hi' -> hi - lo' <= 1022 ->
  leb x1 x2 = true -> leb (div x1 y) (div x2 y) = true.
Proof.
  intros H1 H2 Hy Hlo Hhi Hle.
  destruct H1 as [->|H1].
  - assert (div (S754_zero false) y = S754_zero false) as ->
      by now destruct y as [| | |[] my ey].
    destruct H2 as [->|H2].
    + now destruct y as [| | |[] my ey].
    + pose proof (div_pnormal _ _ _ _ _ _ H2 Hy Hlo Hhi) as P.
      now destruct (div x2 y) as [| | |[] m e].
  - destruct H2 as [->|H2]; [now destruct x1 as [| | |[] m e]|].
    destruct x1 as [| | |[] m1 e1], x2 as [| | |[] m2 e2], y as [| | |[] my ey];
      cbn [pnormal] in *; try tauto.
    destruct H1 as [Hm1 He1], H2 as [Hm2 He2], Hy as [Hmy Hey].
    apply leb_finite_pos_inv in Hle.
    rewrite !div_round by lia.
    destruct (div_log2 _ _ Hm1 Hmy) as [HN1 _].
    destruct (div_log2 _ _ Hm2 Hmy) as [HN2 _].
    apply (round_pos_mono 1074); try lia.
    pose proof (lex_value_le (Zpos m1) (Zpos m2) e1 e2 (- ey - 53 + 1074)
                  Hm1 ltac:(lia) ltac:(lia) Hle) as HV.
    replace (e1 - ey - 53 + 1074) with (e1 + (- ey - 53 + 1074)) by lia.
    replace (e2 - ey - 53 + 1074) with (e2 + (- ey - 53 + 1074)) by lia.
    change (2 ^ 53) with 9007199254740992. nia.
Qed.

Lemma div_self (lo hi : Z) (y : float) :
  pnormal lo hi y -> div y y = lit_1_0.
Proof.
  destruct y as [| | |[] m e]; cbn [pnormal]; try tauto. intros [Hm _].
  rewrite div_round by lia.
  unfold round_pos.
  rewrite Z.mul_comm, Z.div_mul by lia.
  change (Z.log2 (2 ^ 53) - 52) with 1. change (2 ^ 1) with 2.
  replace (2 ^ 53 * Zpos m) with (2 ^ 52 * (Zpos m * 2)) by (change (2 ^ 53) with (2 ^ 52 * 2); ring).
  rewrite rne_exact by lia.
  change (2 ^ 52 =? 2 ^ 53) with false. cbn iota.
  unfold lit_1_0. f_equal. lia.
Qed.


(** *** A ratio of counts, as a percentage *)

Lemma of_int_100 : of_int 100 = S754_finite false 7036874417766400 (-46).
Proof. reflexivity. Qed.

Lemma of_int_100_pnormal : pnormal (-46) (-45) (of_int 100).
Proof. rewrite of_int_100. cbn [pnormal]. lia. Qed.

Lemma percent_nonneg (count total : Z) :
  0 <= count <= total -> 0 < total < 2 ^ 63 ->
  nonneg (-116) 12 (div (of_int count) (of_int total)) /\
  nonneg (-110) 21 (mul (div (of_int count) (of_int total)) (of_int 100)).
Proof.
  intros Hc Ht.
  pose proof (of_int_pos_pnormal total Ht) as Py.
  pose proof of_int_100_pnormal as P100.
  destruct (of_int_nonneg count ltac:(lia)) as [E|Px].
  - rewrite E.
    assert (div (S754_zero false) (of_int total) = S754_zero false) as ->
      by now destruct (of_int total) as [| | |[] m e].
    split; now left.
  - pose proof (div_pnormal _ _ _ _ _ _ Px Py ltac:(lia) ltac:(lia)) as Pq.
    split; right.
    + eapply pnormal_weaken; [| |exact Pq]; lia.
    + eapply pnormal_weaken; [| |apply (mul_pnormal _ _ _ _ _ _ Pq P100)]; lia.
Qed.

Lemma percent_mono (count1 count2 total : Z) :
  0 <= count1 <= count2 -> count2 < 2 ^ 63 -> 0 < total < 2 ^ 63 ->
  leb (mul (div (of_int count1) (of_int total)) (of_int 100))
      (mul (div (of_int count2) (of_int total)) (of_int 100)) = true.
Proof.
  intros Hc Hc2 Ht.
  pose proof (of_int_pos_pnormal total Ht) as Py.
  pose proof of_int_100_pnormal as P100.
  assert (Z.log2 count2 <= 1022) as Hlog.
  { destruct (Z.eq_dec count2 0) as [->|]; [cbn; lia|].
    assert (Z.log2 count2 < 63) by (apply Z.log2_lt_pow2; lia). lia. }
  assert (forall c, 0 <= c < 2 ^ 63 ->
            nonneg (-116) 12 (div (of_int c) (of_int total))) as Hq.
  { intros c Hcr. destruct (of_int_nonneg c Hcr) as [E|Px].
    - rewrite E. left. now destruct (of_int total) as [| | |[] m e].
    - right. eapply pnormal_weaken;
        [| |apply (div_pnormal _ _ _ _ _ _ Px Py)]; lia. }
  apply (mul_mono (-116) 12 (-46) (-45)); try lia; try assumption;
    try (apply Hq; lia).
  apply (div_mono (-52) 11 (-52) 11); try lia; try assumption;
    try (apply of_int_nonneg; lia).
  apply of_int_mono; lia.
Qed.

Lemma percent_le_100 (count total : Z) :
  0 <= count <= total -> 0 < total < 2 ^ 63 ->
  leb (mul (div (of_int count) (of_int total)) (of_int 100)) (of_int 100) = true.
Proof.
  intros Hc Ht.
  pose proof (percent_mono count total total ltac:(lia) ltac:(lia) Ht) as H.
  rewrite (div_self _ _ _ (of_int_pos_pnormal total Ht)) in H.
  exact H.
Qed.


End Rounding.

(** ** The drawing loop *)

Section RegionFacts.
Import Numpy Cv2 App.

Lemma above_min_area_lt (min_area : Z) (cnt : contour) :
  above_min_area min_area cnt = true <-> (inject_Z min_area < contourArea cnt)%Q.
Proof.
  unfold above_min_area. rewrite negb_true_iff.
  split.
  - intros H. apply Qnot_le_lt. intros C. apply Qle_bool_iff in C. congruence.
  - intros H. destruct (Qle_bool _ _) eqn:E; [|reflexivity].
    apply Qle_bool_iff in E. now apply Qlt_not_le in H.
Qed.

Lemma above_min_area_le (min_area : Z) (cnt : contour) :
  above_min_area min_area cnt = false <-> (contourArea cnt <= inject_Z min_area)%Q.
Proof.
  unfold above_min_area. rewrite negb_false_iff. apply Qle_bool_iff.
Qed.

Lemma contourArea_nonneg (cnt : contour) : (0 <= contourArea cnt)%Q.
Proof. destruct cnt; [apply Qle_refl|apply Qabs_nonneg]. Qed.

Lemma above_min_area_antitone (m1 m2 : Z) (cnt : contour) :
  m1 <= m2 -> above_min_area m2 cnt = true -> above_min_area m1 cnt = true.
Proof.
  rewrite !above_min_area_lt. intros Hm H.
  eapply Qle_lt_trans; [|exact H]. now rewrite <- Zle_Qle.
Qed.

Lemma draw_regions_cons cv min_area color cnt contours st :
  draw_regions cv min_area color (cnt :: contours) st =
  draw_regions cv min_area color contours (draw_one cv min_area color cnt st).
Proof. reflexivity. Qed.

Lemma draw_one_count cv min_area color cnt overlay count :
  snd (draw_one cv min_area color cnt (overlay, count)) =
  if above_min_area min_area cnt then count + 1 else count.
Proof.
  unfold draw_one. destruct (above_min_area min_area cnt); [|reflexivity].
  now destruct (boundingRect cnt) as [[[x y] w] h].
Qed.

Lemma draw_regions_count cv min_area color contours overlay count :
  snd (draw_regions cv min_area color contours (overlay, count)) =
  count + Z.of_nat (length (surviving min_area contours)).
Proof.
  revert overlay count.
  induction contours as [|cnt rest IH]; intros overlay count.
  - cbn. lia.
  - rewrite draw_regions_cons.
    pose proof (draw_one_count cv min_area color cnt overlay count) as Hc.
    destruct (draw_one cv min_area color cnt (overlay, count)) as [o c].
    rewrite IH. cbn [snd] in Hc. subst c. unfold surviving. cbn [List.filter].
    destruct (above_min_area min_area cnt); cbn [length]; lia.
Qed.

Lemma surviving_antitone (m1 m2 : Z) (contours : list contour) :
  m1 <= m2 ->
  (length (surviving m2 contours) <= length (surviving m1 contours))%nat.
Proof.
  intros Hm. unfold surviving.
  induction contours as [|cnt rest IH]; cbn [List.filter]; [lia|].
  destruct (above_min_area m2 cnt) eqn:E2.
  - rewrite (above_min_area_antitone m1 m2 cnt Hm E2). cbn [length]. lia.
  - destruct (above_min_area m1 cnt); cbn [length]; lia.
Qed.

End RegionFacts.

(** ** The batch loop and the sidebar *)

Section BatchFacts.
Import Numpy Cv2 App.

Lemma for_each_raised cv cfg files acc :
  Exists (fun f => imdecode cv (file_bytes f) = None) files ->
  for_each cv cfg files acc = Raised "cv2.error".
Proof.
  intros H. revert acc. induction files as [|f rest IH]; intros acc.
  - inversion H.
  - cbn [for_each]. unfold analyse.
    destruct (imdecode cv (file_bytes f)) as [img|] eqn:E; [|reflexivity].
    apply IH. inversion H; subst; [congruence|assumption].
Qed.

Lemma for_each_returned cv cfg files imgs acc :
  Forall2 (fun f img => imdecode cv (file_bytes f) = Some img) files imgs ->
  for_each cv cfg files acc =
  Returned (acc ++ List.map (fun fi => analyse_image cv cfg (file_name (fst fi)) (snd fi))
                            (combine files imgs)).
Proof.
  intros H. revert acc. induction H as [|f img rest imgs Hf _ IH]; intros acc.
  - cbn. now rewrite app_nil_r.
  - cbn [for_each combine List.map]. unfold analyse. rewrite Hf, IH.
    now rewrite <- app_assoc.
Qed.

Lemma surviving_all (min_area : Z) (contours : list contour) :
  min_area < 0 -> surviving min_area contours = contours.
Proof.
  intros Hm. unfold surviving. induction contours as [|cnt rest IH]; [reflexivity|].
  cbn [List.filter].
  assert (above_min_area min_area cnt = true) as ->.
  { apply above_min_area_lt. eapply Qlt_le_trans; [|apply contourArea_nonneg].
    change 0%Q with (inject_Z 0). now rewrite <- Zlt_Qlt. }
  now rewrite IH.
Qed.

End BatchFacts.


(** ** Drawing on an array, and on the heap *)

Section DrawingFacts.
Import Numpy Cv2 App Drawn.

Lemma rows_paint covered color img : rows (paint covered color img) = rows img.
Proof. apply rows_tabulate. Qed.

Lemma cols_paint covered color img : cols (paint covered color img) = cols img.
Proof. apply cols_tabulate_same. Qed.

Lemma get_paint covered color img i j :
  inside img i j ->
  get (0, 0, 0) (paint covered color img) i j =
  if covered j i then color else get (0, 0, 0) img i j.
Proof. intros [Hi Hj]. unfold paint. now rewrite get_tabulate. Qed.

Lemma inside_same_shape {X Y} (a : ndarray X) (b : ndarray Y) i j :
  rows b = rows a -> cols b = cols a -> inside a i j -> inside b i j.
Proof. unfold inside. intros -> ->. tauto. Qed.

(** One iteration keeps the shape and every pixel it does not cover. *)
Lemma draw_one_frame cv min_area color cnt a count :
  let b := fst (draw_one cv min_area color cnt (a, count)) in
  rows b = rows a /\ cols b = cols a /\
  forall i j, inside a i j ->
    (if above_min_area min_area cnt then footprint cv (count + 1) cnt j i else false)
    = false ->
    get (0, 0, 0) b i j = get (0, 0, 0) a i j.
Proof.
  unfold draw_one, footprint. destruct (above_min_area min_area cnt).
  - destruct (boundingRect cnt) as [[[x y] w] h]. cbn [fst].
    unfold putText, rectangle. rewrite !rows_paint, !cols_paint.
    split; [reflexivity|]. split; [reflexivity|].
    intros i j Hin Hfp. apply orb_false_iff in Hfp as [Hr Ht].
    rewrite get_paint by
      (eapply inside_same_shape; [apply rows_paint|apply cols_paint|exact Hin]).
    rewrite Ht, get_paint by exact Hin. now rewrite Hr.
  - cbn. auto.
Qed.

Lemma draw_regions_frame cv min_area color contours a count :
  let b := fst (draw_regions cv min_area color contours (a, count)) in
  rows b = rows a /\ cols b = cols a /\
  forall i j, inside a i j ->
    covered cv min_area contours count j i = false ->
    get (0, 0, 0) b i j = get (0, 0, 0) a i j.
Proof.
  revert a count. induction contours as [|cnt rest IH]; intros a count.
  - cbn. auto.
  - rewrite draw_regions_cons.
    pose proof (draw_one_frame cv min_area color cnt a count) as (Hr & Hc & Hpx).
    pose proof (draw_one_count cv min_area color cnt a count) as Hn.
    destruct (draw_one cv min_area color cnt (a, count)) as [a1 count1].
    cbn [fst snd] in *.
    specialize (IH a1 count1) as (IHr & IHc & IHpx).
    split; [congruence|]. split; [congruence|].
    intros i j Hin Hcov. cbn [covered] in Hcov.
    rewrite IHpx.
    + apply Hpx; [exact Hin|].
      destruct (above_min_area min_area cnt); [|reflexivity].
      now apply orb_false_iff in Hcov.
    + eapply inside_same_shape; eassumption.
    + subst count1. destruct (above_min_area min_area cnt); [|exact Hcov].
      now apply orb_false_iff in Hcov.
Qed.

Lemma update_lookup (h : heap) (l : loc) f a :
  h !! l = Some a -> update h l f = Some (<[l := f a]> h).
Proof. unfold update. now intros ->. Qed.

(** The loop on the heap writes the overlay object only, and what it
    leaves there is what the loop on array values computes. *)
Lemma draw_regions_at_spec cv min_area color contours (overlay : loc) count
    (h : heap) a :
  h !! overlay = Some a ->
  draw_regions_at cv min_area color contours overlay count h =
  Some (snd (draw_regions cv min_area color contours (a, count)),
        <[overlay := fst (draw_regions cv min_area color contours (a, count))]> h).
Proof.
  revert count h a. induction contours as [|cnt rest IH]; intros count h a Ha.
  - unfold draw_regions. cbn [draw_regions_at fold_left fst snd].
    now rewrite insert_id.
  - cbn [draw_regions_at]. rewrite draw_regions_cons. unfold draw_one.
    destruct (above_min_area min_area cnt); [|now apply IH].
    destruct (boundingRect cnt) as [[[x y] w] ht].
    rewrite (update_lookup _ _ _ a Ha).
    rewrite (update_lookup _ _ _ (rectangle cv a (x, y) (x + w, y + ht) color 2))
      by apply lookup_insert_eq.
    rewrite insert_insert_eq.
    erewrite IH by apply lookup_insert_eq.
    now rewrite insert_insert_eq.
Qed.

End DrawingFacts.


(** ** Edge masks *)

Section CannyFacts.
Import Numpy Cv2.

Lemma get_tabulate_true (r c : nat) (f : Z -> Z -> bool) (i j : Z) :
  get false (tabulate r c f) i j = true <->
  (0 <= i < Z.of_nat r /\ 0 <= j < Z.of_nat c) /\ f i j = true.
Proof.
  destruct (Z_lt_le_dec i 0); [|destruct (Z_lt_le_dec i (Z.of_nat r));
    [destruct (Z_lt_le_dec j 0); [|destruct (Z_lt_le_dec j (Z.of_nat c))]|]];
    try (rewrite get_tabulate_outside by lia; split; [discriminate|lia]).
  rewrite get_tabulate by lia. tauto.
Qed.

Lemma get_tabulate_pos (r c : nat) (f : Z -> Z -> Z) (i j : Z) :
  0 < get 0 (tabulate r c f) i j <->
  (0 <= i < Z.of_nat r /\ 0 <= j < Z.of_nat c) /\ 0 < f i j.
Proof.
  destruct (Z_lt_le_dec i 0); [|destruct (Z_lt_le_dec i (Z.of_nat r));
    [destruct (Z_lt_le_dec j 0); [|destruct (Z_lt_le_dec j (Z.of_nat c))]|]];
    try (rewrite get_tabulate_outside by lia; lia).
  rewrite get_tabulate by lia. tauto.
Qed.

Lemma exceeds_antitone (t1 t2 : Float64.float) (m : Z) :
  Float64.leb t1 t2 = true -> exceeds t2 m = true -> exceeds t1 m = true.
Proof. unfold exceeds. apply leb_ltb_trans. Qed.

Lemma candidates_antitone cv a low1 low2 :
  Float64.leb low1 low2 = true ->
  included (candidates cv a low2) (candidates cv a low1).
Proof.
  intros Hle i j. unfold candidates. rewrite !get_tabulate_true.
  intros [Hin H]. split; [exact Hin|].
  apply andb_true_iff in H as [Hm Hl]. apply andb_true_iff. split; [|exact Hl].
  eapply exceeds_antitone; eassumption.
Qed.

Lemma seeds_antitone cv a low1 low2 high1 high2 :
  Float64.leb low1 low2 = true -> Float64.leb high1 high2 = true ->
  included (seeds cv a low2 high2) (seeds cv a low1 high1).
Proof.
  intros Hlow Hhigh i j. unfold seeds. rewrite !get_tabulate_true.
  intros [Hin H]. split; [exact Hin|].
  apply andb_true_iff in H as [Hc Hm]. apply andb_true_iff. split.
  - now apply (candidates_antitone cv a low1 low2 Hlow).
  - eapply exceeds_antitone; eassumption.
Qed.

Lemma touches_monotone (E1 E2 : ndarray bool) (i j : Z) :
  included E1 E2 -> touches E1 i j = true -> touches E2 i j = true.
Proof.
  intros Hsub. unfold touches. rewrite !existsb_exists.
  intros (d & Hd & H). exists d. split; [exact Hd|]. now apply Hsub.
Qed.

Lemma rows_candidates cv a low : rows (candidates cv a low) = rows a.
Proof. apply rows_tabulate. Qed.

Lemma cols_candidates cv a low : cols (candidates cv a low) = cols a.
Proof. apply cols_tabulate_same. Qed.

Lemma grow_monotone (cand1 cand2 E1 E2 : ndarray bool) :
  rows cand1 = rows cand2 -> cols cand1 = cols cand2 ->
  included cand1 cand2 -> included E1 E2 ->
  included (grow cand1 E1) (grow cand2 E2).
Proof.
  intros Hr Hc Hcand HE i j. unfold grow. rewrite Hr, Hc, !get_tabulate_true.
  intros [Hin H]. split; [exact Hin|].
  apply orb_true_iff in H as [H|H]; apply orb_true_iff.
  - left. now apply HE.
  - right. apply andb_true_iff in H as [H1 H2]. apply andb_true_iff. split.
    + now apply Hcand.
    + eapply touches_monotone; eassumption.
Qed.

Lemma iter_grow_monotone (n : nat) (cand1 cand2 E1 E2 : ndarray bool) :
  rows cand1 = rows cand2 -> cols cand1 = cols cand2 ->
  included cand1 cand2 -> included E1 E2 ->
  included (Nat.iter n (grow cand1) E1) (Nat.iter n (grow cand2) E2).
Proof.
  intros Hr Hc Hcand HE. induction n as [|n IH]; [exact HE|].
  rewrite !Nat.iter_succ. now apply grow_monotone.
Qed.

(** Raising either threshold removes edge pixels and adds none. *)
Lemma Canny_antitone cv a low1 low2 high1 high2 :
  Float64.leb low1 low2 = true -> Float64.leb high1 high2 = true ->
  below (Canny cv a low2 high2) (Canny cv a low1 high1).
Proof.
  intros Hlow Hhigh i j. unfold Canny.
  rewrite !(get_map2d (fun b : bool => if b then 255 else 0) false).
  pose proof (iter_grow_monotone (rows a * cols a)
                (candidates cv a low2) (candidates cv a low1)
                (seeds cv a low2 high2) (seeds cv a low1 high1)) as H.
  unfold hysteresis. rewrite !rows_candidates, !cols_candidates.
  specialize (H ltac:(now rewrite !rows_candidates) ltac:(now rewrite !cols_candidates)
                (candidates_antitone cv a low1 low2 Hlow)
                (seeds_antitone cv a low1 low2 high1 high2 Hlow Hhigh) i j).
  destruct (get false (Nat.iter _ (grow (candidates cv a low2)) _) i j); [|cbn; lia].
  now rewrite H.
Qed.

Lemma rows_Canny cv a low high : rows (Canny cv a low high) = rows a.
Proof.
  unfold Canny, hysteresis. rewrite rows_map2d.
  induction (rows (candidates cv a low) * cols (candidates cv a low))%nat as [|n IH].
  - apply rows_tabulate.
  - rewrite Nat.iter_succ. unfold grow. now rewrite rows_tabulate, rows_candidates.
Qed.

Lemma cols_Canny cv a low high : cols (Canny cv a low high) = cols a.
Proof.
  unfold Canny, hysteresis. rewrite cols_map2d.
  induction (rows (candidates cv a low) * cols (candidates cv a low))%nat as [|n IH].
  - apply cols_tabulate_same.
  - rewrite Nat.iter_succ. unfold grow. now rewrite cols_tabulate_same, cols_candidates.
Qed.

Lemma fold_max_pos (l : list Z) :
  0 < fold_right Z.max 0 l <-> exists v, In v l /\ 0 < v.
Proof.
  induction l as [|x l IH]; cbn [fold_right In].
  - split; [lia|]. intros (v & [] & _).
  - rewrite Z.max_lt_iff, IH. split.
    + intros [H|(v & Hv & H)]; eauto.
    + intros (v & [->|Hv] & H); eauto.
Qed.

Lemma dilate_pixel_monotone (e1 e2 : ndarray Z) (i j : Z) :
  below e1 e2 ->
  0 < fold_right Z.max 0 (List.map (fun d => get 0 e1 (i + fst d) (j + snd d)) window3) ->
  0 < fold_right Z.max 0 (List.map (fun d => get 0 e2 (i + fst d) (j + snd d)) window3).
Proof.
  intros Hb. rewrite !fold_max_pos.
  intros (v & Hv & Hpos). apply in_map_iff in Hv as (d & <- & Hd).
  exists (get 0 e2 (i + fst d) (j + snd d)). split; [|now apply Hb].
  apply in_map_iff. now exists d.
Qed.

Lemma sum_gt0_dilate_monotone (e1 e2 : ndarray Z) :
  rows e1 = rows e2 -> cols e1 = cols e2 -> below e1 e2 ->
  sum_gt0 (dilate e1) <= sum_gt0 (dilate e2).
Proof.
  intros Hr Hc Hb. unfold dilate. rewrite Hr, Hc.
  apply sum_gt0_tabulate_le. intros i j _ _. now apply dilate_pixel_monotone.
Qed.

Lemma size_dilate (e : ndarray Z) :
  size (dilate e) = Z.of_nat (rows e) * Z.of_nat (cols e).
Proof. apply size_tabulate. Qed.

End CannyFacts.

(** ** The pipeline up to the mask *)

Section PipelineFacts.
Import Numpy Cv2 App.

Lemma rows_blurred cv img :
  rows (GaussianBlur cv (cvtColor_BGR2GRAY cv img)) = rows img.
Proof. unfold GaussianBlur, cvtColor_BGR2GRAY. now rewrite rows_tabulate, rows_map2d. Qed.

Lemma cols_blurred cv img :
  cols (GaussianBlur cv (cvtColor_BGR2GRAY cv img)) = cols img.
Proof. unfold GaussianBlur, cvtColor_BGR2GRAY. now rewrite cols_tabulate_same, cols_map2d. Qed.

Lemma size_edge_mask cv sensitivity img :
  size (edge_mask cv sensitivity img) = Z.of_nat (rows img) * Z.of_nat (cols img).
Proof.
  unfold edge_mask. now rewrite size_dilate, rows_Canny, cols_Canny, rows_blurred, cols_blurred.
Qed.

Lemma lit_2_5_pnormal : Float64.pnormal (-51) (-51) Float64.lit_2_5.
Proof. cbn. lia. Qed.

Lemma thresholds_monotone (s1 s2 : Z) :
  0 <= s1 <= s2 -> s2 < 2 ^ 63 ->
  Float64.leb (Float64.of_int s1) (Float64.of_int s2) = true /\
  Float64.leb (Float64.mul (Float64.of_int s1) Float64.lit_2_5)
              (Float64.mul (Float64.of_int s2) Float64.lit_2_5) = true.
Proof.
  intros Hs Hs2.
  assert (Z.log2 s2 <= 1022) as Hlog.
  { destruct (Z.eq_dec s2 0) as [->|]; [cbn; lia|].
    assert (Z.log2 s2 < 63) by (apply Z.log2_lt_pow2; lia). lia. }
  pose proof (of_int_mono s1 s2 Hs Hlog) as Hlow.
  split; [exact Hlow|].
  apply (mul_mono (-52) 11 (-51) (-51)); try lia; try exact Hlow;
    try (apply of_int_nonneg; lia).
  exact lit_2_5_pnormal.
Qed.

End PipelineFacts.


(** ** Hysteresis reaches its fixed point *)

Section HysteresisFacts.
Import Numpy Cv2.

Lemma count_row_eq (f g : Z -> bool) (lj : list Z) :
  (forall j, In j lj -> f j = true -> g j = true) ->
  (length (List.filter id (List.map f lj))
   <= length (List.filter id (List.map g lj)))%nat /\
  (length (List.filter id (List.map f lj))
   = length (List.filter id (List.map g lj)) -> List.map f lj = List.map g lj).
Proof.
  induction lj as [|j lj IH]; intros H; cbn [List.map List.filter]; [auto|].
  destruct IH as [IHle IHeq]; [intros; apply H; auto using in_cons|].
  pose proof (H j (in_eq _ _)) as Hj.
  destruct (f j) eqn:Ef.
  - rewrite Hj by reflexivity. cbn [id length]. split; [lia|].
    intros E. f_equal. apply IHeq. lia.
  - destruct (g j) eqn:Eg; cbn [id length]; split; try lia.
    intros E. f_equal. now apply IHeq.
Qed.

Lemma count_rows_eq (f g : Z -> Z -> bool) (li lj : list Z) :
  (forall i j, In i li -> In j lj -> f i j = true -> g i j = true) ->
  (length (List.filter id (concat (List.map (fun i => List.map (f i) lj) li)))
   <= length (List.filter id (concat (List.map (fun i => List.map (g i) lj) li))))%nat /\
  (length (List.filter id (concat (List.map (fun i => List.map (f i) lj) li)))
   = length (List.filter id (concat (List.map (fun i => List.map (g i) lj) li))) ->
   List.map (fun i => List.map (f i) lj) li = List.map (fun i => List.map (g i) lj) li).
Proof.
  induction li as [|i li IH]; intros H; cbn [List.map concat]; [auto|].
  destruct IH as [IHle IHeq]; [intros; apply H; auto using in_cons|].
  destruct (count_row_eq (f i) (g i) lj) as [Hle Heq];
    [intros; apply H; auto using in_eq|].
  rewrite !List.filter_app, !length_app. split; [lia|].
  intros E. f_equal; [apply Heq|apply IHeq]; lia.
Qed.

Lemma count_true_bound (r c : nat) (f : Z -> Z -> bool) :
  (count_true (tabulate r c f) <= r * c)%nat.
Proof.
  unfold count_true.
  eapply Nat.le_trans; [apply List.filter_length_le|].
  pose proof (size_tabulate r c f) as H. unfold size in H. lia.
Qed.

Lemma count_true_tabulate (r c : nat) (f g : Z -> Z -> bool) :
  (forall i j, 0 <= i < Z.of_nat r -> 0 <= j < Z.of_nat c ->
               f i j = true -> g i j = true) ->
  (count_true (tabulate r c f) <= count_true (tabulate r c g))%nat /\
  (count_true (tabulate r c f) = count_true (tabulate r c g) ->
   tabulate r c f = tabulate r c g).
Proof.
  intros H. unfold count_true, tabulate. apply count_rows_eq.
  intros i j Hi Hj. apply H; now apply in_zrange.
Qed.

Section Iteration.
Variable cand : ndarray bool.
Variable s : Z -> Z -> bool.

Let seed : ndarray bool := tabulate (rows cand) (cols cand) s.

Lemma iter_grow_shape (k : nat) :
  exists e, Nat.iter k (grow cand) seed = tabulate (rows cand) (cols cand) e.
Proof.
  destruct k as [|k]; [now exists s|].
  rewrite Nat.iter_succ. unfold grow. eauto.
Qed.

(** A round of growing either changes nothing or adds a pixel. *)
Lemma grow_step (e : Z -> Z -> bool) :
  let E := tabulate (rows cand) (cols cand) e in
  grow cand E = E \/ (count_true E < count_true (grow cand E))%nat.
Proof.
  intros E. unfold grow.
  destruct (count_true_tabulate (rows cand) (cols cand) e
              (fun i j => get false E i j || (get false cand i j && touches E i j)))
    as [Hle Heq].
  { intros i j Hi Hj He. unfold E. rewrite get_tabulate by assumption.
    now rewrite He. }
  fold E in Hle, Heq.
  destruct (Nat.eq_dec (count_true E)
              (count_true (tabulate (rows cand) (cols cand)
                 (fun i j => get false E i j || (get false cand i j && touches E i j)))))
    as [Hc|Hc].
  - left. symmetry. now apply Heq.
  - right. lia.
Qed.

Lemma iter_grow_progress (k : nat) :
  grow cand (Nat.iter k (grow cand) seed) = Nat.iter k (grow cand) seed \/
  (k <= count_true (Nat.iter k (grow cand) seed))%nat.
Proof.
  induction k as [|k IH]; [right; lia|].
  rewrite Nat.iter_succ.
  destruct IH as [Hfix|Hcount].
  - left. now rewrite !Hfix.
  - destruct (iter_grow_shape k) as [e He]. rewrite He in *.
    destruct (grow_step e) as [Hfix|Hlt].
    + left. now rewrite !Hfix.
    + right. lia.
Qed.

Theorem hysteresis_closed :
  grow cand (hysteresis cand seed) = hysteresis cand seed.
Proof.
  unfold hysteresis.
  destruct (iter_grow_progress (rows cand * cols cand)) as [Hfix|Hcount];
    [exact Hfix|].
  destruct (iter_grow_shape (rows cand * cols cand)) as [e He]. rewrite He in *.
  destruct (grow_step e) as [Hfix|Hlt]; [exact Hfix|].
  pose proof (count_true_bound (rows cand) (cols cand)
                (fun i j => get false (tabulate (rows cand) (cols cand) e) i j
                            || (get false cand i j
                                && touches (tabulate (rows cand) (cols cand) e) i j))) as B.
  unfold grow in Hlt. lia.
Qed.

Lemma hysteresis_contains_seed : included seed (hysteresis cand seed).
Proof.
  unfold hysteresis. induction (rows cand * cols cand)%nat as [|k IH];
    [now intros i j|].
  rewrite Nat.iter_succ. intros i j Hs. specialize (IH i j Hs).
  destruct (iter_grow_shape k) as [e He]. rewrite He in *.
  unfold grow. apply get_tabulate_true.
  apply get_tabulate_true in IH as [Hin Hij]. split; [exact Hin|].
  rewrite get_tabulate by tauto. now rewrite Hij.
Qed.

(** It is the least mask that holds the seeds and is closed under
    growing. *)
Lemma hysteresis_least (E : ndarray bool) :
  included seed E -> included (grow cand E) E ->
  included (hysteresis cand seed) E.
Proof.
  intros Hseed Hclosed. unfold hysteresis.
  induction (rows cand * cols cand)%nat as [|k IH]; [exact Hseed|].
  rewrite Nat.iter_succ. intros i j H. apply Hclosed.
  revert i j H. apply grow_monotone; auto. now intros i j.
Qed.

End Iteration.

(** The edge set of [Canny] is closed: no candidate outside it touches
    it. *)
Lemma Canny_edges_closed cv a low high :
  grow (candidates cv a low)
       (hysteresis (candidates cv a low) (seeds cv a low high))
  = hysteresis (candidates cv a low) (seeds cv a low high).
Proof.
  pose proof (hysteresis_closed (candidates cv a low)
                (fun i j => get false (candidates cv a low) i j
                            && exceeds high (magnitude a i j))) as H.
  rewrite rows_candidates, cols_candidates in H. exact H.
Qed.

End HysteresisFacts.

(** ** Uniform images *)

Section UniformFacts.
Import Numpy Cv2 App.

Lemma reflect101_range (len p : Z) : 0 < len -> 0 <= reflect101 len p < len.
Proof.
  intros Hlen. unfold reflect101.
  destruct (len <=? 1) eqn:E; [lia|]. apply Z.leb_gt in E.
  pose proof (Z.mod_pos_bound p (2 * (len - 1)) ltac:(lia)) as B.
  destruct (p mod (2 * (len - 1)) <? len) eqn:Eq;
    [apply Z.ltb_lt in Eq|apply Z.ltb_ge in Eq]; lia.
Qed.

Lemma clamp_range (len p : Z) : 0 < len -> 0 <= clamp len p < len.
Proof. unfold clamp. lia. Qed.

Section Constant.
Context {A : Type} (r c : nat) (k : A).
Hypothesis Hr : (0 < r)%nat.
Hypothesis Hc : (0 < c)%nat.

Lemma rows_constant : rows (tabulate r c (fun _ _ => k)) = r.
Proof. apply rows_tabulate. Qed.

Lemma cols_constant : cols (tabulate r c (fun _ _ => k)) = c.
Proof. rewrite cols_tabulate. destruct r; [lia|reflexivity]. Qed.

Lemma get_constant (d : A) (i j : Z) :
  0 <= i < Z.of_nat r -> 0 <= j < Z.of_nat c ->
  get d (tabulate r c (fun _ _ => k)) i j = k.
Proof. intros. now rewrite get_tabulate. Qed.

End Constant.

Lemma get_all_false (r c : nat) (i j : Z) :
  get false (tabulate r c (fun _ _ => false)) i j = false.
Proof.
  destruct (get false _ i j) eqn:E; [|reflexivity].
  apply get_tabulate_true in E as [_ E]. discriminate.
Qed.

Lemma get_all_zero (r c : nat) (i j : Z) :
  get 0 (tabulate r c (fun _ _ => 0)) i j = 0.
Proof.
  destruct (Z_lt_le_dec 0 (get 0 (tabulate r c (fun _ _ => 0)) i j)) as [H|H].
  - apply get_tabulate_pos in H. lia.
  - destruct (Z_lt_le_dec i 0); [|destruct (Z_lt_le_dec i (Z.of_nat r));
      [destruct (Z_lt_le_dec j 0); [|destruct (Z_lt_le_dec j (Z.of_nat c))]|]];
      try (rewrite get_tabulate_outside by lia; reflexivity).
    now rewrite get_tabulate by lia.
Qed.

Section UniformImage.
Variable cv : backend.
Variables (r c : nat) (k : Z).
Hypothesis Hr : (0 < r)%nat.
Hypothesis Hc : (0 < c)%nat.

Let flat : ndarray Z := tabulate r c (fun _ _ => k).

Lemma window5_constant (i j : Z) : window5 flat i j = repeat k 25.
Proof.
  unfold window5, flat. rewrite rows_constant, cols_constant by assumption.
  assert (forall di dj,
    get 0 (tabulate r c (fun _ _ => k))
      (reflect101 (Z.of_nat r) (i + di)) (reflect101 (Z.of_nat c) (j + dj)) = k) as H
    by (intros; apply get_constant; apply reflect101_range; lia).
  cbn [offsets5 flat_map List.map app]. now rewrite !H.
Qed.

Lemma GaussianBlur_constant :
  GaussianBlur cv flat = tabulate r c (fun _ _ => gaussian5 cv (repeat k 25)).
Proof.
  unfold GaussianBlur. unfold flat at 1 2.
  rewrite rows_constant, cols_constant by assumption.
  apply tabulate_ext. intros i j _ _. now rewrite window5_constant.
Qed.

Lemma magnitude_constant (i j : Z) : magnitude flat i j = 0.
Proof.
  assert (forall i' j', at_replicate flat i' j' = k) as H.
  { intros. unfold at_replicate, flat. rewrite rows_constant, cols_constant by assumption.
    apply get_constant; apply clamp_range; lia. }
  unfold magnitude, sobel_x, sobel_y. rewrite !H. lia.
Qed.

(** No gradient: no candidate, no seed, no edge. *)
Lemma Canny_constant (low high : Float64.float) :
  exceeds low 0 = false ->
  Canny cv flat low high = tabulate r c (fun _ _ => 0).
Proof.
  intros Hlow.
  assert (candidates cv flat low = tabulate r c (fun _ _ => false)) as Hcand.
  { unfold candidates, flat at 1 2. rewrite rows_constant, cols_constant by assumption.
    apply tabulate_ext. intros i j _ _. now rewrite magnitude_constant, Hlow. }
  assert (seeds cv flat low high = tabulate r c (fun _ _ => false)) as Hseed.
  { unfold seeds. rewrite Hcand. unfold flat at 1 2.
    rewrite rows_constant, cols_constant by assumption.
    apply tabulate_ext. intros i j _ _. now rewrite get_all_false. }
  unfold Canny, hysteresis. rewrite Hcand, Hseed.
  assert (forall n, Nat.iter n (grow (tabulate r c (fun _ _ => false)))
                      (tabulate r c (fun _ _ => false))
                    = tabulate r c (fun _ _ => false)) as Hiter.
  { induction n as [|n IH]; [reflexivity|]. rewrite Nat.iter_succ, IH.
    unfold grow. rewrite rows_constant, cols_constant by assumption.
    apply tabulate_ext. intros i j _ _. now rewrite !get_all_false. }
  rewrite Hiter. apply map2d_tabulate.
Qed.

Lemma dilate_zero : dilate (tabulate r c (fun _ _ => 0)) = tabulate r c (fun _ _ => 0).
Proof.
  unfold dilate. rewrite rows_constant, cols_constant by assumption.
  apply tabulate_ext. intros i j _ _.
  cbn [window3 List.map fold_right fst snd]. rewrite !get_all_zero. reflexivity.
Qed.

End UniformImage.

Lemma exceeds_zero (s : Z) :
  0 <= s < 2 ^ 63 -> exceeds (Float64.of_int s) 0 = false.
Proof.
  intros Hs. unfold exceeds.
  apply ltb_false_leb.
  - exact (nonneg_number _ _ _ (of_int_nonneg s Hs)).
  - reflexivity.
  - apply of_int_mono; [lia|].
    destruct (Z.eq_dec s 0) as [->|]; [cbn; lia|].
    assert (Z.log2 s < 63) by (apply Z.log2_lt_pow2; lia). lia.
Qed.

(** The mask of a uniform image is zero everywhere. *)
Lemma edge_mask_uniform cv (r c : nat) (p : pixel) (s : Z) :
  (0 < r)%nat -> (0 < c)%nat -> 0 <= s < 2 ^ 63 ->
  edge_mask cv s (tabulate r c (fun _ _ => p)) = tabulate r c (fun _ _ => 0).
Proof.
  intros Hr Hc Hs. unfold edge_mask, cvtColor_BGR2GRAY.
  rewrite map2d_tabulate, GaussianBlur_constant by assumption.
  rewrite Canny_constant by (try assumption; now apply exceeds_zero).
  now apply dilate_zero.
Qed.

Lemma density_zero_mask (r c : nat) :
  0 < Z.of_nat r * Z.of_nat c < 2 ^ 63 ->
  density (tabulate r c (fun _ _ => 0)) = S754_zero false.
Proof.
  intros Hsize. unfold density.
  rewrite sum_gt0_zero by reflexivity. rewrite size_tabulate.
  pose proof (of_int_pos_pnormal _ Hsize) as P.
  now destruct (Float64.of_int (Z.of_nat r * Z.of_nat c)) as [| | |[] m e].
Qed.

End UniformFacts.

Section SidebarFacts.
Import Numpy Cv2 App.

Lemma sensitivity_range (ui : widgets) : 20 <= sensitivity (sidebar ui) <= 200.
Proof. unfold sidebar, slider. cbn. destruct (sensitivity_input ui); lia. Qed.

Lemma no_contours_in_zero_mask cv (r c : nat) :
  (forall mask cnt, In cnt (findContours cv mask) ->
     exists x y, In (x, y) cnt /\ 0 < get 0 mask y x) ->
  findContours cv (tabulate r c (fun _ _ => 0)) = [].
Proof.
  intros Hlaw. destruct (findContours cv _) as [|cnt rest] eqn:E; [reflexivity|].
  destruct (Hlaw (tabulate r c (fun _ _ => 0)) cnt) as (x & y & _ & H).
  - rewrite E. apply in_eq.
  - rewrite get_all_zero in H. lia.
Qed.

Lemma pixel_contours_sound (mask : ndarray Z) (cnt : contour) :
  In cnt (Demo.pixel_contours mask) ->
  exists x y, In (x, y) cnt /\ 0 < get 0 mask y x.
Proof.
  unfold Demo.pixel_contours. rewrite in_flat_map. intros (i & _ & H).
  apply in_flat_map in H as (j & _ & H).
  destruct (0 <? get 0 mask i j) eqn:E; [|destruct H].
  destruct H as [<-|[]]. exists j, i. split; [apply in_eq|]. now apply Z.ltb_lt.
Qed.

End SidebarFacts.


(** ** Rounding the density for the record *)

Section Round4Facts.
Import Numpy Cv2 App.

Lemma of_int_10000_pnormal : Float64.pnormal (-39) (-39) (Float64.of_int 10000).
Proof. vm_compute. repeat split; discriminate. Qed.

Lemma of_int_1000000 :
  Float64.of_int 1000000 = S754_finite false 8589934592000000 (-33).
Proof. reflexivity. Qed.

Lemma nearest_int_le_1000000 (m : positive) (e : Z) :
  2 ^ 52 <= Zpos m < 2 ^ 53 ->
  Float64.leb (S754_finite false m e) (Float64.of_int 1000000) = true ->
  0 <= Float64.nearest_int (Zpos m) e <= 1000000.
Proof.
  intros Hm Hle. rewrite of_int_1000000 in Hle.
  apply leb_finite_pos_inv in Hle.
  destruct e as [|p|p]; try lia. unfold Float64.nearest_int.
  pose proof (pow2_pos (Zpos p) ltac:(lia)) as Hp.
  split.
  - apply rne_ge; lia.
  - apply rne_le; [lia|].
    destruct Hle as [Hlt|[He Hle]].
    + assert (2 ^ 34 <= 2 ^ Zpos p) as Hpow by (apply pow2_le; lia).
      change (2 ^ 53) with 9007199254740992 in Hm.
      change (2 ^ 34) with 17179869184 in Hpow. lia.
    + injection He as ->. change (2 ^ 33) with 8589934592. lia.
Qed.

(** The rounded density is the double nearest to [k / 10000] for an
    integer [k] between 0 and 1000000. *)
Lemma round4_percent (d : Float64.float) :
  Float64.nonneg (-110) 21 d -> Float64.leb d (Float64.of_int 100) = true ->
  exists k, 0 <= k <= 1000000 /\
            round4 d = Float64.div (Float64.of_int k) (Float64.of_int 10000).
Proof.
  intros Hd Hle. destruct Hd as [->|Hd].
  - exists 0. split; [lia|reflexivity].
  - pose proof (mul_pnormal _ _ _ _ _ _ Hd of_int_10000_pnormal ltac:(lia) ltac:(lia)) as Px.
    assert (Float64.leb (Float64.mul d (Float64.of_int 10000))
                        (Float64.of_int 1000000) = true) as Hx.
    { change (Float64.of_int 1000000)
        with (Float64.mul (Float64.of_int 100) (Float64.of_int 10000)).
      apply (mul_mono (-110) 21 (-39) (-39)); try lia; try assumption.
      - now right.
      - right. eapply pnormal_weaken; [| |exact of_int_100_pnormal]; lia.
      - exact of_int_10000_pnormal. }
    unfold round4.
    destruct (Float64.mul d (Float64.of_int 10000)) as [| | |[] m e];
      cbn [Float64.pnormal] in Px; try tauto.
    destruct Px as [Hm _].
    exists (Float64.nearest_int (Zpos m) e). split.
    + now apply nearest_int_le_1000000.
    + reflexivity.
Qed.

Lemma analyse_image_fields cv cfg name img :
  res_name (analyse_image cv cfg name img) = name /\
  res_density (analyse_image cv cfg name img)
    = round4 (density (edge_mask cv (sensitivity cfg) img)) /\
  res_status (analyse_image cv cfg name img)
    = tier (density (edge_mask cv (sensitivity cfg) img)) /\
  (res_img (analyse_image cv cfg name img), res_count (analyse_image cv cfg name img))
    = draw_regions cv (min_area cfg)
        (snd (risk (density (edge_mask cv (sensitivity cfg) img))))
        (findContours cv (edge_mask cv (sensitivity cfg) img))
        (cvtColor_BGR2RGB img, 0).
Proof.
  unfold analyse_image, tier.
  destruct (risk (density (edge_mask cv (sensitivity cfg) img))) as [status color].
  cbn [fst snd].
  destruct (draw_regions cv (min_area cfg) color _ _) as [overlay count].
  repeat split.
Qed.

End Round4Facts.


(** ** The tiers in exact arithmetic *)

Section Thresholds.
Import Float64.

(** A normal double is the rounding of its own value. *)
Lemma pnormal_round_pos (m : positive) (e : Z) :
  2 ^ 52 <= Zpos m < 2 ^ 53 ->
  S754_finite false m e = round_pos (Zpos m) 1 e.
Proof.
  intros Hm. unfold round_pos. rewrite Z.div_1_r.
  assert (Z.log2 (Zpos m) = 52) as -> by (apply Z.log2_unique; [lia|exact Hm]).
  change (52 - 52) with 0. change (1 * 2 ^ 0) with 1.
  assert (rne (Zpos m) 1 = Zpos m) as ->
    by (pose proof (rne_exact (Zpos m) 1 ltac:(lia)) as R; now rewrite Z.mul_1_r in R).
  destruct (Zpos m =? 2 ^ 53) eqn:E; [apply Z.eqb_eq in E; lia|].
  f_equal; lia.
Qed.

(** An integer below [2^53] is a double. *)
Lemma of_int_exact (n : Z) :
  0 < n < 2 ^ 53 ->
  of_int n = S754_finite false (Z.to_pos (n * 2 ^ (52 - Z.log2 n))) (Z.log2 n - 52) /\
  2 ^ 52 <= n * 2 ^ (52 - Z.log2 n) < 2 ^ 53 /\ 0 <= Z.log2 n <= 52.
Proof.
  intros Hn.
  assert (Z.log2 n < 53) as Hlog by (apply Z.log2_lt_pow2; lia).
  pose proof (Z.log2_nonneg n) as Hl0.
  destruct (log2_bounds n ltac:(lia)) as [Hlo Hhi].
  set (s := 52 - Z.log2 n). assert (0 <= s) as Hs by (unfold s; lia).
  pose proof (pow2_pos s Hs) as Hp.
  assert (2 ^ 52 <= n * 2 ^ s < 2 ^ 53) as Hm.
  { split.
    - apply Z.le_trans with (2 ^ Z.log2 n * 2 ^ s).
      + rewrite <- pow2_add by lia. apply pow2_le. unfold s. lia.
      + apply Z.mul_le_mono_nonneg_r; lia.
    - apply Z.lt_le_trans with (2 ^ (Z.log2 n + 1) * 2 ^ s).
      + apply Z.mul_lt_mono_pos_r; lia.
      + rewrite <- pow2_add by lia. apply pow2_le. unfold s. lia. }
  split; [|split; [exact Hm|lia]].
  rewrite of_int_round by lia.
  replace (Z.max 0 (52 - Z.log2 n)) with s by (unfold s; lia).
  replace (Z.log2 n - 52) with (- s) by (unfold s; lia).
  destruct (n * 2 ^ s) as [|m|m] eqn:E; try lia.
  now rewrite <- pnormal_round_pos.
Qed.

(** The quotient of two integers below [2^53] is the rounding of their
    ratio. *)
Lemma ratio_round (a b : Z) :
  0 < a < 2 ^ 53 -> 0 < b < 2 ^ 53 ->
  div (of_int a) (of_int b)
  = round_pos (a * 2 ^ (52 - Z.log2 a) * 2 ^ 53) (b * 2 ^ (52 - Z.log2 b))
              (Z.log2 a - 52 - (Z.log2 b - 52) - 53).
Proof.
  intros Ha Hb.
  destruct (of_int_exact a Ha) as (-> & Hma & Hla).
  destruct (of_int_exact b Hb) as (-> & Hmb & Hlb).
  rewrite div_round; rewrite ?Z2Pos.id by lia; try lia.
  reflexivity.
Qed.

(** Comparison of the quotient with the rounding of another ratio, by
    cross-multiplication. *)
Lemma ratio_le (a b N D e : Z) :
  0 < a < 2 ^ 53 -> 0 < b < 2 ^ 53 -> 0 < D -> 2 ^ 52 * D <= N ->
  -200 <= e ->
  a * 2 ^ 200 * D <= N * 2 ^ (e + 200) * b ->
  leb (div (of_int a) (of_int b)) (round_pos N D e) = true.
Proof.
  intros Ha Hb HD HN He HV.
  rewrite ratio_round by assumption.
  destruct (of_int_exact a Ha) as (_ & Hma & Hla).
  destruct (of_int_exact b Hb) as (_ & Hmb & Hlb).
  set (sa := 52 - Z.log2 a) in *. set (sb := 52 - Z.log2 b) in *.
  replace (Z.log2 a - 52 - (Z.log2 b - 52) - 53) with (sb - sa - 53) by (unfold sa, sb; lia).
  pose proof (pow2_pos sa ltac:(lia)) as Hpa. pose proof (pow2_pos sb ltac:(lia)) as Hpb.
  apply (round_pos_mono 200); try lia.
  replace (sb - sa - 53 + 200) with (sb + (147 - sa)) by lia.
    rewrite (pow2_add sb (147 - sa)) by lia.
    assert (2 ^ 200 = 2 ^ sa * 2 ^ (147 - sa) * 2 ^ 53) as E200.
    { rewrite <- !pow2_add by lia. f_equal. lia. }
    rewrite E200 in HV.
    pose proof (pow2_pos (147 - sa) ltac:(lia)) as Hpc.
    replace (a * 2 ^ sa * 2 ^ 53 * (2 ^ sb * 2 ^ (147 - sa)) * D)
      with (a * (2 ^ sa * 2 ^ (147 - sa) * 2 ^ 53) * D * 2 ^ sb) by ring.
    replace (N * 2 ^ (e + 200) * (b * 2 ^ sb))
      with (N * 2 ^ (e + 200) * b * 2 ^ sb) by ring.
    apply Z.mul_le_mono_nonneg_r; lia.
Qed.

Lemma ratio_ge (a b N D e : Z) :
  0 < a < 2 ^ 53 -> 0 < b < 2 ^ 53 -> 0 < D -> 2 ^ 52 * D <= N ->
  -200 <= e ->
  N * 2 ^ (e + 200) * b <= a * 2 ^ 200 * D ->
  leb (round_pos N D e) (div (of_int a) (of_int b)) = true.
Proof.
  intros Ha Hb HD HN He HV.
  rewrite ratio_round by assumption.
  destruct (of_int_exact a Ha) as (_ & Hma & Hla).
  destruct (of_int_exact b Hb) as (_ & Hmb & Hlb).
  set (sa := 52 - Z.log2 a) in *. set (sb := 52 - Z.log2 b) in *.
  replace (Z.log2 a - 52 - (Z.log2 b - 52) - 53) with (sb - sa - 53) by (unfold sa, sb; lia).
  pose proof (pow2_pos sa ltac:(lia)) as Hpa. pose proof (pow2_pos sb ltac:(lia)) as Hpb.
  apply (round_pos_mono 200); try lia.
  replace (sb - sa - 53 + 200) with (sb + (147 - sa)) by lia.
    rewrite (pow2_add sb (147 - sa)) by lia.
    assert (2 ^ 200 = 2 ^ sa * 2 ^ (147 - sa) * 2 ^ 53) as E200.
    { rewrite <- !pow2_add by lia. f_equal. lia. }
    rewrite E200 in HV.
    pose proof (pow2_pos (147 - sa) ltac:(lia)) as Hpc.
    replace (a * 2 ^ sa * 2 ^ 53 * (2 ^ sb * 2 ^ (147 - sa)) * D)
      with (a * (2 ^ sa * 2 ^ (147 - sa) * 2 ^ 53) * D * 2 ^ sb) by ring.
    replace (N * 2 ^ (e + 200) * (b * 2 ^ sb))
      with (N * 2 ^ (e + 200) * b * 2 ^ sb) by ring.
    apply Z.mul_le_mono_nonneg_r; lia.
Qed.


(** *** The two thresholds of the risk logic *)

Lemma percent_zero (b : Z) :
  0 < b < 2 ^ 63 ->
  mul (div (of_int 0) (of_int b)) (of_int 100) = S754_zero false.
Proof.
  intros Hb. pose proof (of_int_pos_pnormal b Hb) as P.
  now destruct (of_int b) as [| | |[] m e].
Qed.

Lemma percent_pos (a b : Z) :
  0 < a <= b -> 0 < b < 2 ^ 63 ->
  pnormal (-110) 21 (mul (div (of_int a) (of_int b)) (of_int 100)).
Proof.
  intros Ha Hb.
  pose proof (of_int_pos_pnormal a ltac:(lia)) as Px.
  pose proof (of_int_pos_pnormal b Hb) as Py.
  pose proof (div_pnormal _ _ _ _ _ _ Px Py ltac:(lia) ltac:(lia)) as Pq.
  eapply pnormal_weaken; [| |apply (mul_pnormal _ _ _ _ _ _ Pq of_int_100_pnormal)]; lia.
Qed.

(** [a / b * 100] against a bound [q * 100], for a ratio below or above
    the value that rounds to [q]. *)
Lemma percent_le (a b N D e : Z) :
  0 < a <= b -> 0 < b < 2 ^ 53 -> 0 < D -> 2 ^ 52 * D <= N -> -200 <= e ->
  nonneg (-116) 12 (round_pos N D e) ->
  a * 2 ^ 200 * D <= N * 2 ^ (e + 200) * b ->
  leb (mul (div (of_int a) (of_int b)) (of_int 100))
      (mul (round_pos N D e) (of_int 100)) = true.
Proof.
  intros Ha Hb HD HN He Hq HV.
  assert (2 ^ 53 < 2 ^ 63) as H63 by reflexivity.
  apply (mul_mono (-116) 12 (-46) (-45)); try lia.
  - apply percent_nonneg; lia.
  - exact Hq.
  - exact of_int_100_pnormal.
  - apply ratio_le; try assumption; lia.
Qed.

Lemma percent_ge (a b N D e : Z) :
  0 < a <= b -> 0 < b < 2 ^ 53 -> 0 < D -> 2 ^ 52 * D <= N -> -200 <= e ->
  nonneg (-116) 12 (round_pos N D e) ->
  N * 2 ^ (e + 200) * b <= a * 2 ^ 200 * D ->
  leb (mul (round_pos N D e) (of_int 100))
      (mul (div (of_int a) (of_int b)) (of_int 100)) = true.
Proof.
  intros Ha Hb HD HN He Hq HV.
  assert (2 ^ 53 < 2 ^ 63) as H63 by reflexivity.
  apply (mul_mono (-116) 12 (-46) (-45)); try lia.
  - exact Hq.
  - apply percent_nonneg; lia.
  - exact of_int_100_pnormal.
  - apply ratio_ge; try assumption; lia.
Qed.

(** Fewer than one cell in a thousand: below [0.1]. *)
Lemma below_0_1 (a b : Z) :
  0 <= a -> 0 < b < 2 ^ 53 -> 1000 * a < b ->
  ltb (mul (div (of_int a) (of_int b)) (of_int 100)) lit_0_1 = true.
Proof.
  intros Ha Hb H.
  assert (2 ^ 53 < 2 ^ 63) as H63 by reflexivity.
  destruct (Z.eq_dec a 0) as [->|Hne]; [now rewrite percent_zero by lia|].
  apply leb_ltb_trans
    with (mul (round_pos ((2 ^ 53 - 1) * 2 ^ 9) 1000 (-62)) (of_int 100));
    [|reflexivity].
  apply percent_le; try lia.
  vm_compute. right. repeat split; discriminate.
Qed.

(** At least one cell in a thousand: [0.1] or more. *)
Lemma above_0_1 (a b : Z) :
  a <= b -> 0 < b < 2 ^ 53 -> b <= 1000 * a ->
  leb lit_0_1 (mul (div (of_int a) (of_int b)) (of_int 100)) = true.
Proof.
  intros Ha Hb H.
  change lit_0_1 with (mul (round_pos (2 ^ 62) 1000 (-62)) (of_int 100)).
  apply percent_ge; try lia.
  vm_compute. right. repeat split; discriminate.
Qed.

(** Fewer than one cell in a hundred: below [1.0]. *)
Lemma below_1_0 (a b : Z) :
  0 <= a -> 0 < b < 2 ^ 53 -> 100 * a < b ->
  ltb (mul (div (of_int a) (of_int b)) (of_int 100)) lit_1_0 = true.
Proof.
  intros Ha Hb H.
  assert (2 ^ 53 < 2 ^ 63) as H63 by reflexivity.
  destruct (Z.eq_dec a 0) as [->|Hne]; [now rewrite percent_zero by lia|].
  apply leb_ltb_trans
    with (mul (round_pos ((2 ^ 53 - 1) * 2 ^ 6) 100 (-59)) (of_int 100));
    [|reflexivity].
  apply percent_le; try lia.
  vm_compute. right. repeat split; discriminate.
Qed.

(** At least one cell in a hundred: [1.0] or more. *)
Lemma above_1_0 (a b : Z) :
  a <= b -> 0 < b < 2 ^ 53 -> b <= 100 * a ->
  leb lit_1_0 (mul (div (of_int a) (of_int b)) (of_int 100)) = true.
Proof.
  intros Ha Hb H.
  change lit_1_0 with (mul (round_pos (2 ^ 59) 100 (-59)) (of_int 100)).
  apply percent_ge; try lia.
  vm_compute. right. repeat split; discriminate.
Qed.

(** Not every cell: below [100.0]. *)
Lemma below_100 (a b : Z) :
  0 <= a -> 0 < b < 2 ^ 53 -> a < b ->
  ltb (mul (div (of_int a) (of_int b)) (of_int 100)) (of_int 100) = true.
Proof.
  intros Ha Hb H.
  assert (2 ^ 53 < 2 ^ 63) as H63 by reflexivity.
  destruct (Z.eq_dec a 0) as [->|Hne]; [now rewrite percent_zero by lia|].
  apply leb_ltb_trans
    with (mul (round_pos (2 ^ 53 - 1) 1 (-53)) (of_int 100));
    [|reflexivity].
  apply percent_le; try lia.
  vm_compute. right. repeat split; discriminate.
Qed.

End Thresholds.

(** ** The rounded density keeps the order *)

Section Round4Order.
Import Float64.

Lemma nearest_int_mono (m1 m2 e1 e2 : Z) :
  2 ^ 52 <= m1 < 2 ^ 53 -> 2 ^ 52 <= m2 < 2 ^ 53 ->
  e1 < e2 \/ (e1 = e2 /\ m1 <= m2) ->
  nearest_int m1 e1 <= nearest_int m2 e2.
Proof.
  intros H1 H2 Hle. unfold nearest_int.
  assert (forall p, 2 <= 2 ^ Zpos p) as Hp2.
  { intros p. change 2 with (2 ^ 1) at 1. apply pow2_le. lia. }
  assert (forall k, 0 <= k -> m1 <= m2 * 2 ^ k * 2) as Hbig.
  { intros k Hk. pose proof (pow2_pos k Hk).
    change (2 ^ 53) with (2 ^ 52 * 2) in H1.
    assert (m2 * 1 <= m2 * 2 ^ k) by (apply Z.mul_le_mono_nonneg_l; lia). lia. }
  destruct e1 as [|p1|p1], e2 as [|p2|p2]; try lia.
  - apply (lex_value_le m1 m2 0 (Zpos p2) 0) in Hle; try lia.
    now rewrite !Z.add_0_r in Hle.
  - apply (lex_value_le m1 m2 (Zpos p1) (Zpos p2) 0) in Hle; try lia.
    now rewrite !Z.add_0_r in Hle.
  - apply rne_le; [apply pow2_pos; lia|].
    pose proof (Hbig 0 ltac:(lia)) as B. pose proof (Hp2 p1).
    rewrite Z.pow_0_r in *.
    apply Z.le_trans with (m2 * 1 * 2); [exact B|].
    apply Z.mul_le_mono_nonneg_l; lia.
  - apply rne_le; [apply pow2_pos; lia|].
    pose proof (Hbig (Zpos p2) ltac:(lia)) as B. pose proof (Hp2 p1).
    apply Z.le_trans with (m2 * 2 ^ Zpos p2 * 2); [exact B|].
    apply Z.mul_le_mono_nonneg_l; [|lia].
    pose proof (pow2_pos (Zpos p2) ltac:(lia)). nia.
  - apply rne_mono; try (apply pow2_pos; lia).
    destruct Hle as [Hlt|[He Hm]].
    + assert (2 * 2 ^ Zpos p2 <= 2 ^ Zpos p1) as Hpow.
      { rewrite <- pow2_succ by lia. apply pow2_le. lia. }
      pose proof (pow2_pos (Zpos p2) ltac:(lia)).
      apply Z.le_trans with (2 ^ 53 * 2 ^ Zpos p2).
      * apply Z.mul_le_mono_nonneg_r; lia.
      * change (2 ^ 53) with (2 ^ 52 * 2).
        apply Z.le_trans with (m2 * (2 * 2 ^ Zpos p2)).
        -- rewrite <- Z.mul_assoc. apply Z.mul_le_mono_nonneg_r; lia.
        -- apply Z.mul_le_mono_nonneg_l; lia.
    + injection He as ->. apply Z.mul_le_mono_nonneg_r; [|lia].
      pose proof (pow2_pos (Zpos p2) ltac:(lia)). lia.
Qed.

(** The integer [np.rint] returns for a double that is zero or positive. *)
Lemma rint_nonneg (lo hi : Z) (x : float) :
  nonneg lo hi x ->
  rint x = of_int (match x with
                   | S754_finite false m e => nearest_int (Zpos m) e
                   | _ => 0
                   end).
Proof.
  intros [->|H]; [reflexivity|]. now destruct x as [| | |[] m e].
Qed.

Lemma rint_mono (lo hi : Z) (x1 x2 : float) :
  nonneg lo hi x1 -> nonneg lo hi x2 ->
  leb x1 x2 = true -> leb x2 (of_int 1000000) = true ->
  exists k1 k2, 0 <= k1 <= k2 /\ k2 <= 1000000 /\
                rint x1 = of_int k1 /\ rint x2 = of_int k2.
Proof.
  intros N1 N2 Hle Hmax.
  rewrite (rint_nonneg _ _ _ N1), (rint_nonneg _ _ _ N2).
  destruct N2 as [->|P2].
  - destruct N1 as [->|P1]; [exists 0, 0; repeat split; lia|].
    now destruct x1 as [| | |[] m e].
  - destruct x2 as [| | |[] m2 e2]; cbn [pnormal] in P2; try tauto.
    destruct P2 as [Hm2 _].
    pose proof (nearest_int_le_1000000 m2 e2 Hm2 Hmax) as B2.
    destruct N1 as [->|P1]; [eexists _, _; repeat split; lia|].
    destruct x1 as [| | |[] m1 e1]; cbn [pnormal] in P1; try tauto.
    destruct P1 as [Hm1 _].
    apply leb_finite_pos_inv in Hle.
    pose proof (nearest_int_mono _ _ _ _ Hm1 Hm2 Hle) as M.
    assert (0 <= nearest_int (Zpos m1) e1).
    { unfold nearest_int. destruct e1 as [|p|p].
      - lia.
      - pose proof (pow2_pos (Zpos p) ltac:(lia)). nia.
      - apply rne_ge; [apply pow2_pos; lia|lia]. }
    eexists _, _; repeat split; lia.
Qed.

End Round4Order.

Section Round4Tiers.
Import Numpy Cv2 App.

Lemma round4_mono (d1 d2 : Float64.float) :
  Float64.nonneg (-110) 21 d1 -> Float64.nonneg (-110) 21 d2 ->
  Float64.leb d1 d2 = true -> Float64.leb d2 (Float64.of_int 100) = true ->
  Float64.leb (round4 d1) (round4 d2) = true.
Proof.
  intros N1 N2 Hle Hmax.
  assert (forall d, Float64.nonneg (-110) 21 d ->
            Float64.nonneg (-97) 36 (Float64.mul d (Float64.of_int 10000))) as Hx.
  { intros d [->|P]; [now left|right].
    eapply pnormal_weaken;
      [| |apply (mul_pnormal _ _ _ _ _ _ P of_int_10000_pnormal)]; lia. }
  assert (Float64.leb (Float64.mul d1 (Float64.of_int 10000))
                      (Float64.mul d2 (Float64.of_int 10000)) = true) as Hmul.
  { apply (mul_mono (-110) 21 (-39) (-39)); try lia; try assumption.
    exact of_int_10000_pnormal. }
  assert (Float64.leb (Float64.mul d2 (Float64.of_int 10000))
                      (Float64.of_int 1000000) = true) as Hcap.
  { change (Float64.of_int 1000000)
      with (Float64.mul (Float64.of_int 100) (Float64.of_int 10000)).
    apply (mul_mono (-110) 21 (-39) (-39)); try lia; try assumption.
    - right. eapply pnormal_weaken; [| |exact of_int_100_pnormal]; lia.
    - exact of_int_10000_pnormal. }
  destruct (rint_mono _ _ _ _ (Hx d1 N1) (Hx d2 N2) Hmul Hcap)
    as (k1 & k2 & Hk & Hk2 & E1 & E2).
  unfold round4. rewrite E1, E2.
  assert (2 ^ 20 < 2 ^ 63) as H63 by reflexivity.
  assert (1000000 < 2 ^ 20) as H20 by reflexivity.
  apply (div_mono (-52) 11 (-39) (-39)); try lia.
  - apply of_int_nonneg. lia.
  - apply of_int_nonneg. lia.
  - exact of_int_10000_pnormal.
  - apply of_int_mono; [lia|].
    destruct (Z.eq_dec k2 0) as [->|]; [cbn; lia|].
    assert (Z.log2 k2 < 20) by (apply Z.log2_lt_pow2; lia). lia.
Qed.

End Round4Tiers.

(** ** The report *)

Section ReportFacts.
Import Numpy Cv2 App Report.

Lemma for_in_returned {A B : Type} (body : A -> outcome B) (f : A -> B) (l : list A) :
  (forall x, In x l -> body x = Returned (f x)) ->
  for_in body l = Returned (List.map f l).
Proof.
  induction l as [|x rest IH]; intros H; [reflexivity|].
  cbn [for_in List.map]. rewrite (H x) by now left. cbn [bind].
  rewrite IH by (intros y Hy; apply H; now right). reflexivity.
Qed.

(** The guard of line 99 keeps the index inside the list. *)
Lemma column_returned (fe : frontend) (results_list : list result) (i j : nat) :
  column fe results_list i j
  = Returned (option_map (render fe (i + j)) (nth_error results_list (i + j))).
Proof.
  unfold column. destruct (i + j <? length results_list)%nat eqn:E.
  - apply Nat.ltb_lt in E. apply nth_error_Some in E.
    now destruct (nth_error results_list (i + j)).
  - apply Nat.ltb_ge in E. apply nth_error_None in E. now rewrite E.
Qed.

Lemma tab2_returned (fe : frontend) (results_list : list result) :
  tab2 fe results_list
  = Returned
      (List.map (fun i =>
         List.map (fun j => option_map (render fe (i + j)) (nth_error results_list (i + j)))
                  (seq 0 cols_per_row))
         (range_step (length results_list) cols_per_row)).
Proof.
  unfold tab2. apply for_in_returned. intros i _.
  apply for_in_returned. intros j _. apply column_returned.
Qed.

Lemma map_seq_offset {X : Type} (g : nat -> X) (a n : nat) :
  List.map (fun j => g (a + j)%nat) (seq 0 n) = List.map g (seq a n).
Proof.
  revert a. induction n as [|n IH]; intros a; [reflexivity|].
  cbn [seq List.map]. rewrite Nat.add_0_r. f_equal.
  rewrite <- seq_shift, List.map_map, <- IH.
  apply List.map_ext. intros j. f_equal. lia.
Qed.

(** Rows of [step] consecutive indices, one after the other, are the
    indices in order. *)
Lemma concat_rows {X : Type} (g : nat -> X) (step m : nat) :
  List.concat (List.map (fun i => List.map (fun j => g (i + j)%nat) (seq 0 step))
                        (List.map (fun k => (k * step)%nat) (seq 0 m)))
  = List.map g (seq 0 (m * step)).
Proof.
  induction m as [|m IH]; [reflexivity|].
  rewrite seq_S, !List.map_app, concat_app, IH. cbn [List.map List.concat].
  rewrite app_nil_r.
  replace (S m * step)%nat with (m * step + step)%nat by lia.
  rewrite seq_app, List.map_app. f_equal. cbn [Nat.add].
  apply map_seq_offset.
Qed.

Lemma ceil_bounds (n : nat) :
  (n <= (n + cols_per_row - 1) / cols_per_row * cols_per_row < n + cols_per_row)%nat.
Proof.
  unfold cols_per_row.
  pose proof (Nat.div_mod_eq (n + 3 - 1) 3) as E.
  pose proof (Nat.mod_upper_bound (n + 3 - 1) 3 ltac:(lia)) as B.
  lia.
Qed.

(** The columns inside the list hold the cards in order. *)
Lemma columns_inside {X : Type} (f : nat -> result -> X) (l : list result) (s : nat) :
  List.map (fun k => option_map (f k) (nth_error l (k - s))) (seq s (length l))
  = List.map Some (List.map (fun kr => f (fst kr) (snd kr)) (combine (seq s (length l)) l)).
Proof.
  revert s. induction l as [|a l IH]; intros s; [reflexivity|].
  cbn [length seq combine List.map fst snd]. rewrite Nat.sub_diag. cbn [nth_error option_map].
  f_equal. rewrite <- IH. apply List.map_ext_in. intros k Hk. apply in_seq in Hk.
  replace (k - s)%nat with (S (k - S s)) by lia. reflexivity.
Qed.

(** The columns past the list are empty. *)
Lemma columns_outside {X : Type} (f : nat -> result -> X) (l : list result) (d : nat) :
  List.map (fun k => option_map (f k) (nth_error l k)) (seq (length l) d)
  = repeat None d.
Proof.
  transitivity (List.map (fun _ : nat => @None X) (seq (length l) d)).
  - apply List.map_ext_in. intros k Hk. apply in_seq in Hk.
    assert (nth_error l k = None) as -> by (apply nth_error_None; lia). reflexivity.
  - now rewrite map_const, length_seq.
Qed.

Lemma concat_tab2 (fe : frontend) (results_list : list result) :
  exists grid,
    tab2 fe results_list = Returned grid /\
    length grid = ((length results_list + cols_per_row - 1) / cols_per_row)%nat /\
    Forall (fun r => length r = cols_per_row) grid /\
    List.concat grid
    = List.map Some (List.map (fun kr => render fe (fst kr) (snd kr)) (enumerate results_list))
      ++ repeat None (length grid * cols_per_row - length results_list).
Proof.
  eexists. split; [apply tab2_returned|].
  set (n := length results_list).
  set (m := ((n + cols_per_row - 1) / cols_per_row)%nat).
  pose proof (ceil_bounds n) as Hm. fold m in Hm.
  split; [|split].
  - unfold range_step. now rewrite !length_map, length_seq.
  - apply List.Forall_forall. intros r Hr. apply List.in_map_iff in Hr as (i & <- & _).
    now rewrite length_map, length_seq.
  - unfold range_step. fold m.
    rewrite (concat_rows (fun k => option_map (render fe k) (nth_error results_list k))).
    rewrite !length_map, length_seq.
    replace (m * cols_per_row)%nat with (n + (m * cols_per_row - n))%nat at 1 by lia.
    rewrite seq_app, List.map_app. f_equal.
    + unfold enumerate, n.
      rewrite <- (columns_inside (render fe) results_list 0).
      apply List.map_ext. intros k. now rewrite Nat.sub_0_r.
    + unfold n. rewrite Nat.add_0_l. apply columns_outside.
Qed.

Lemma cards_of_columns (l : list card) (d : nat) :
  flat_map (fun c : option card => match c with Some x => [x] | None => [] end)
           (List.map Some l ++ repeat None d) = l.
Proof.
  rewrite flat_map_app.
  assert (forall d, flat_map (fun c : option card => match c with Some x => [x] | None => [] end)
                      (repeat None d) = []) as ->
    by (intros k; induction k; [reflexivity|assumption]).
  rewrite app_nil_r. induction l as [|x l IH]; [reflexivity|].
  cbn [List.map flat_map]. now rewrite IH.
Qed.

(** *** Keys of the download buttons *)

Lemma to_uint_nonnil (n : nat) : Nat.to_uint n <> Decimal.Nil.
Proof.
  intros E. pose proof (DecimalNat.Unsigned.of_to n) as H. rewrite E in H.
  cbn in H. subst n. discriminate E.
Qed.

Lemma str_int_inj (a b : nat) : str_int a = str_int b -> a = b.
Proof.
  unfold str_int. intros E.
  apply DecimalNat.Unsigned.to_uint_inj.
  pose proof (NilZero.usu _ (to_uint_nonnil a)) as Ha.
  pose proof (NilZero.usu _ (to_uint_nonnil b)) as Hb.
  rewrite E in Ha. congruence.
Qed.

Lemma keys_of_enumerate {X : Type} (f : nat -> string) (l : list X) (s : nat) :
  List.map (fun kr : nat * X => f (fst kr)) (combine (seq s (length l)) l)
  = List.map f (seq s (length l)).
Proof.
  revert s. induction l as [|a l IH]; intros s; [reflexivity|].
  cbn [length seq combine List.map fst]. now rewrite IH.
Qed.

Lemma NoDup_map_inj {X Y : Type} (f : X -> Y) (l : list X) :
  (forall a b, f a = f b -> a = b) -> List.NoDup l -> List.NoDup (List.map f l).
Proof.
  intros Hf H. induction H as [|x l Hx _ IH]; [constructor|].
  cbn [List.map]. constructor; [|exact IH].
  intros Hin. apply List.in_map_iff in Hin as (y & Hy & Hin).
  apply Hf in Hy. now subst.
Qed.

End ReportFacts.

Section ReportFacts2.
Import Numpy Cv2 App Report.

Lemma decodable_images cv (files : list uploaded_file) :
  List.Forall (fun f => imdecode cv (file_bytes f) <> None) files ->
  exists imgs,
    Forall2 (fun f img => imdecode cv (file_bytes f) = Some img) files imgs.
Proof.
  induction 1 as [|f rest Hf _ [imgs IH]]; [exists []; constructor|].
  destruct (imdecode cv (file_bytes f)) as [img|] eqn:E; [|congruence].
  exists (img :: imgs). now constructor.
Qed.

Lemma names_of_results cv cfg (files : list uploaded_file) imgs :
  Forall2 (fun f img => imdecode cv (file_bytes f) = Some img) files imgs ->
  List.map res_name
    (List.map (fun fi => analyse_image cv cfg (file_name (fst fi)) (snd fi))
              (combine files imgs))
  = List.map file_name files.
Proof.
  induction 1 as [|f img rest imgs _ _ IH]; [reflexivity|].
  cbn [combine List.map fst snd]. rewrite IH. f_equal.
  apply analyse_image_fields.
Qed.

Lemma length_enumerate {X : Type} (l : list X) : length (enumerate l) = length l.
Proof. unfold enumerate. rewrite length_combine, length_seq. lia. Qed.

Lemma is_critical (s : status) :
  String.eqb (status_str s) "CRITICAL" = match s with CRITICAL => true | _ => false end.
Proof. now destruct s. Qed.

Lemma is_warning (s : status) :
  String.eqb (status_str s) "WARNING" = match s with WARNING => true | _ => false end.
Proof. now destruct s. Qed.

Lemma filter_enumerate {X : Type} (p : X -> bool) (l : list X) (s : nat) :
  length (List.filter (fun kr : nat * X => p (snd kr)) (combine (seq s (length l)) l))
  = length (List.filter p l).
Proof.
  revert s. induction l as [|a l IH]; intros s; [reflexivity|].
  cbn [length seq combine List.filter snd]. destruct (p a); cbn [length]; now rewrite IH.
Qed.

End ReportFacts2.


Section BatchComposition.
Import Numpy Cv2 App Report.

(** The records appended so far do not influence the rest of the loop. *)
Lemma for_each_acc cv cfg (files : list uploaded_file) (acc : list result) :
  for_each cv cfg files acc
  = bind (for_each cv cfg files []) (fun rs => Returned (acc ++ rs)).
Proof.
  revert acc. induction files as [|f rest IH]; intros acc.
  - cbn. now rewrite app_nil_r.
  - cbn [for_each]. destruct (analyse cv cfg f) as [r|e]; [|reflexivity].
    rewrite (IH (acc ++ [r])), (IH ([] ++ [r])).
    destruct (for_each cv cfg rest []) as [rs|e]; [|reflexivity].
    cbn [bind app]. now rewrite <- app_assoc.
Qed.

Lemma for_each_app cv cfg (files1 files2 : list uploaded_file) (acc : list result) :
  for_each cv cfg (files1 ++ files2) acc
  = bind (for_each cv cfg files1 acc) (fun rs => for_each cv cfg files2 rs).
Proof.
  revert acc. induction files1 as [|f rest IH]; intros acc; [reflexivity|].
  cbn [app for_each]. destruct (analyse cv cfg f) as [r|e]; [|reflexivity].
  apply IH.
Qed.

End BatchComposition.


Section CardFacts.
Import Numpy Cv2 App Report.

Lemma Forall2_cards (fe : frontend) (P : result -> card -> Prop) (l : list result) :
  (forall k res, P res (render fe k res)) ->
  List.Forall2 P l (List.map (fun kr => render fe (fst kr) (snd kr)) (enumerate l)).
Proof.
  intros H. unfold enumerate. generalize 0%nat.
  induction l as [|res rest IH]; intros s; [constructor|].
  cbn [length seq combine List.map fst snd]. constructor; [apply H|apply IH].
Qed.

End CardFacts.


(** ** Tiers and the exposed density *)

Section TierFacts.
Import Numpy Cv2 App.

(** A larger density is in no lower tier. *)
Lemma tier_mono (d1 d2 : Float64.float) :
  Float64.leb d1 d2 = true ->
  (tier d1 = CRITICAL -> tier d2 = CRITICAL) /\
  (tier d2 = SAFE -> tier d1 = SAFE).
Proof.
  intros Hle. unfold tier, risk.
  destruct (Float64.ltb d2 Float64.lit_0_1) eqn:A2.
  - rewrite (leb_ltb_trans _ _ _ Hle A2). cbn. split; [discriminate|reflexivity].
  - destruct (Float64.ltb d2 Float64.lit_1_0) eqn:B2.
    + assert (Float64.ltb d1 Float64.lit_1_0 = true) as B1
        by exact (leb_ltb_trans _ _ _ Hle B2).
      destruct (Float64.ltb d1 Float64.lit_0_1); rewrite ?B1; cbn;
        split; discriminate.
    + destruct (Float64.ltb d1 Float64.lit_0_1), (Float64.ltb d1 Float64.lit_1_0);
        cbn; split; try discriminate; reflexivity.
Qed.

Lemma round4_lit_0_1 : round4 Float64.lit_0_1 = Float64.lit_0_1.
Proof. reflexivity. Qed.

Lemma round4_lit_1_0 : round4 Float64.lit_1_0 = Float64.lit_1_0.
Proof. reflexivity. Qed.

Lemma round4_100 : round4 (Float64.of_int 100) = Float64.of_int 100.
Proof. reflexivity. Qed.

Lemma lit_nonneg :
  Float64.nonneg (-110) 21 Float64.lit_0_1 /\
  Float64.nonneg (-110) 21 Float64.lit_1_0 /\
  Float64.nonneg (-110) 21 (Float64.of_int 100) /\
  Float64.leb Float64.lit_0_1 (Float64.of_int 100) = true /\
  Float64.leb Float64.lit_1_0 (Float64.of_int 100) = true.
Proof.
  repeat split; try (right; vm_compute; repeat split; discriminate).
Qed.

(** The exposed density of a percentage is on the same side of the two
    thresholds as the raw density, and between 0 and 100. *)
Lemma round4_tier (d : Float64.float) :
  Float64.nonneg (-110) 21 d -> Float64.leb d (Float64.of_int 100) = true ->
  (tier d = SAFE -> Float64.leb (round4 d) Float64.lit_0_1 = true) /\
  (tier d = WARNING ->
     Float64.leb Float64.lit_0_1 (round4 d) = true /\
     Float64.leb (round4 d) Float64.lit_1_0 = true) /\
  (tier d = CRITICAL -> Float64.leb Float64.lit_1_0 (round4 d) = true) /\
  Float64.leb (Float64.of_int 0) (round4 d) = true /\
  Float64.leb (round4 d) (Float64.of_int 100) = true.
Proof.
  intros Hd Hmax.
  destruct lit_nonneg as (N01 & N10 & N100 & L01 & L10).
  pose proof (nonneg_number _ _ _ Hd) as Hnum.
  pose proof (leb_negb_ltb d Float64.lit_0_1 Hnum eq_refl) as E01.
  pose proof (leb_negb_ltb d Float64.lit_1_0 Hnum eq_refl) as E10.
  assert (Float64.ltb d Float64.lit_0_1 = true ->
          Float64.leb (round4 d) Float64.lit_0_1 = true) as Hlow.
  { intros H. rewrite <- round4_lit_0_1.
    apply round4_mono; try assumption.
    apply leb_key; try assumption; try reflexivity.
    apply lex_lt_le. apply ltb_key; try assumption. reflexivity. }
  assert (Float64.ltb d Float64.lit_1_0 = true ->
          Float64.leb (round4 d) Float64.lit_1_0 = true) as Hmid.
  { intros H. rewrite <- round4_lit_1_0.
    apply round4_mono; try assumption.
    apply leb_key; try assumption; try reflexivity.
    apply lex_lt_le. apply ltb_key; try assumption. reflexivity. }
  assert (Float64.leb Float64.lit_0_1 d = true ->
          Float64.leb Float64.lit_0_1 (round4 d) = true) as Hge01.
  { intros H. rewrite <- round4_lit_0_1 at 1. now apply round4_mono. }
  assert (Float64.leb Float64.lit_1_0 d = true ->
          Float64.leb Float64.lit_1_0 (round4 d) = true) as Hge10.
  { intros H. rewrite <- round4_lit_1_0 at 1. now apply round4_mono. }
  assert (Float64.leb (Float64.of_int 0) (round4 d) = true) as H0.
  { change (Float64.of_int 0) with (round4 (Float64.of_int 0)) at 1.
    apply round4_mono; try assumption; [now left|].
    now apply (leb_zero_nonneg (-110) 21). }
  assert (Float64.leb (round4 d) (Float64.of_int 100) = true) as H100.
  { rewrite <- round4_100. apply round4_mono; try assumption; reflexivity. }
  unfold tier, risk.
  destruct (Float64.ltb d Float64.lit_0_1) eqn:A;
    [|destruct (Float64.ltb d Float64.lit_1_0) eqn:B];
    cbn [fst negb] in *;
    (split; [|split; [|split; [|split]]]);
    try assumption; try (intros C; discriminate C); intros _; auto.
Qed.

(** Raising the sensitivity lowers the density of the edge mask. *)
Lemma density_antitone cv img (s1 s2 : Z) :
  0 <= s1 <= s2 -> s2 < 2 ^ 63 ->
  0 < Z.of_nat (rows img) * Z.of_nat (cols img) < 2 ^ 63 ->
  Float64.leb (density (edge_mask cv s2 img)) (density (edge_mask cv s1 img)) = true.
Proof.
  intros Hs Hs2 Hsize.
  destruct (thresholds_monotone s1 s2 Hs Hs2) as [Hlow Hhigh].
  set (blurred := GaussianBlur cv (cvtColor_BGR2GRAY cv img)).
  pose proof (Canny_antitone cv blurred _ _ _ _ Hlow Hhigh) as Hbelow.
  assert (sum_gt0 (edge_mask cv s2 img) <= sum_gt0 (edge_mask cv s1 img)) as Hcount.
  { unfold edge_mask. fold blurred.
    apply sum_gt0_dilate_monotone; [now rewrite !rows_Canny|now rewrite !cols_Canny|].
    exact Hbelow. }
  unfold density. rewrite !size_edge_mask.
  pose proof (sum_gt0_bounds (edge_mask cv s2 img)) as B2.
  pose proof (sum_gt0_bounds (edge_mask cv s1 img)) as B1.
  rewrite size_edge_mask in B1, B2.
  apply percent_mono; lia.
Qed.

Lemma density_percent (mask : ndarray Z) :
  0 < size mask < 2 ^ 63 ->
  Float64.nonneg (-110) 21 (density mask) /\
  Float64.leb (density mask) (Float64.of_int 100) = true.
Proof.
  intros Hsize. pose proof (sum_gt0_bounds mask) as Hc. split.
  - now apply percent_nonneg.
  - now apply percent_le_100.
Qed.

End TierFacts.

(** ** Numbering of the regions *)

Section LabelFacts.
Import Numpy Cv2 App Drawn.

Lemma to_int_nonnil (z : Z) :
  Z.to_int z <> Decimal.Pos Decimal.Nil /\ Z.to_int z <> Decimal.Neg Decimal.Nil.
Proof.
  split; intros E; pose proof (DecimalZ.of_to z) as H; rewrite E in H;
    cbn in H; subst z; discriminate E.
Qed.

Lemma label_inj (a b : Z) : label a = label b -> a = b.
Proof.
  unfold label. intros E. cbn [String.append] in E. injection E as E.
  change (NilZero.string_of_int (Z.to_int a) = NilZero.string_of_int (Z.to_int b)) in E.
  apply DecimalZ.to_int_inj.
  destruct (to_int_nonnil a) as [Ha1 Ha2], (to_int_nonnil b) as [Hb1 Hb2].
  pose proof (NilZero.isi _ Ha1 Ha2) as Ha.
  pose proof (NilZero.isi _ Hb1 Hb2) as Hb.
  rewrite E in Ha. congruence.
Qed.

Lemma draw_one_annotate cv min_area color cnt overlay count :
  draw_one cv min_area color cnt (overlay, count)
  = if above_min_area min_area cnt
    then (annotate cv color (count + 1) cnt overlay, count + 1)
    else (overlay, count).
Proof.
  unfold draw_one, annotate. destruct (above_min_area min_area cnt); [|reflexivity].
  now destruct (boundingRect cnt) as [[[x y] w] h].
Qed.

Lemma numbered_cons (count : Z) (cnt : contour) (regions : list contour) :
  numbered count (cnt :: regions) = (count + 1, cnt) :: numbered (count + 1) regions.
Proof.
  unfold numbered. cbn [length seq List.map combine]. f_equal.
  f_equal. rewrite <- seq_shift, List.map_map.
  apply List.map_ext. intros k. lia.
Qed.

Lemma draw_regions_numbered cv min_area color contours overlay count :
  draw_regions cv min_area color contours (overlay, count)
  = (fold_left (fun ov nc => annotate cv color (fst nc) (snd nc) ov)
               (numbered count (surviving min_area contours)) overlay,
     count + Z.of_nat (length (surviving min_area contours))).
Proof.
  revert overlay count. induction contours as [|cnt rest IH]; intros overlay count.
  - cbn. f_equal. lia.
  - rewrite draw_regions_cons, draw_one_annotate. unfold surviving in *.
    cbn [List.filter]. destruct (above_min_area min_area cnt).
    + rewrite IH, numbered_cons. cbn [fold_left fst snd length]. f_equal. lia.
    + apply IH.
Qed.

Lemma labels_numbered (count : Z) (regions : list contour) :
  List.map (fun nc : Z * contour => fst nc) (numbered count regions)
  = List.map (fun k => count + Z.of_nat k) (seq 1 (length regions)).
Proof.
  unfold numbered. generalize 1%nat.
  induction regions as [|cnt rest IH]; intros s; [reflexivity|].
  cbn [length seq List.map combine fst]. now rewrite IH.
Qed.

End LabelFacts.

(** ** Canny thresholds *)

Section ThresholdFacts.
Import Numpy Cv2 App.

(** For every position of the slider, [sensitivity] and
    [sensitivity * 2.5] sit between the doubles of two neighbouring
    integers as the exact values do. *)
Lemma slider_thresholds (s : Z) :
  20 <= s <= 200 ->
  Float64.leb (Float64.of_int s) (Float64.of_int s) = true /\
  Float64.ltb (Float64.of_int s) (Float64.of_int (s + 1)) = true /\
  Float64.leb (Float64.of_int (5 * s / 2))
              (Float64.mul (Float64.of_int s) Float64.lit_2_5) = true /\
  Float64.ltb (Float64.mul (Float64.of_int s) Float64.lit_2_5)
              (Float64.of_int (5 * s / 2 + 1)) = true /\
  Float64.ltb (Float64.of_int s)
              (Float64.mul (Float64.of_int s) Float64.lit_2_5) = true.
Proof.
  intros Hs.
  assert (forallb
            (fun k =>
               let s := 20 + Z.of_nat k in
               Float64.leb (Float64.of_int s) (Float64.of_int s)
               && Float64.ltb (Float64.of_int s) (Float64.of_int (s + 1))
               && Float64.leb (Float64.of_int (5 * s / 2))
                              (Float64.mul (Float64.of_int s) Float64.lit_2_5)
               && Float64.ltb (Float64.mul (Float64.of_int s) Float64.lit_2_5)
                              (Float64.of_int (5 * s / 2 + 1))
               && Float64.ltb (Float64.of_int s)
                              (Float64.mul (Float64.of_int s) Float64.lit_2_5))
            (seq 0 181) = true) as Hall by (vm_compute; reflexivity).
  rewrite forallb_forall in Hall.
  specialize (Hall (Z.to_nat (s - 20))).
  replace (20 + Z.of_nat (Z.to_nat (s - 20))) with s in Hall by lia.
  cbv zeta in Hall.
  rewrite !andb_true_iff in Hall.
  assert (In (Z.to_nat (s - 20)) (seq 0 181)) as Hin by (apply in_seq; lia).
  specialize (Hall Hin). tauto.
Qed.

Lemma exceeds_between (t : Float64.float) (k m : Z) :
  0 <= k < 2 ^ 63 -> 0 <= m < 2 ^ 63 ->
  Float64.leb (Float64.of_int k) t = true ->
  Float64.ltb t (Float64.of_int (k + 1)) = true ->
  exceeds t m = (k <? m).
Proof.
  intros Hk Hm Hlo Hhi. unfold exceeds.
  assert (Z.log2 m <= 1022) as Hlog.
  { destruct (Z.eq_dec m 0) as [->|]; [cbn; lia|].
    assert (Z.log2 m < 63) by (apply Z.log2_lt_pow2; lia). lia. }
  destruct (k <? m) eqn:E.
  - apply Z.ltb_lt in E.
    eapply ltb_leb_trans; [exact Hhi|]. apply of_int_mono; lia.
  - apply Z.ltb_ge in E.
    destruct (leb_number _ _ Hlo) as [_ Ht].
    assert (Float64.is_nan (Float64.of_int m) = false) as Hn
      by (apply (nonneg_number (-52) 11); apply of_int_nonneg; lia).
    apply ltb_false_leb; try assumption.
    eapply leb_trans; [|exact Hlo].
    apply of_int_mono; [lia|].
    destruct (Z.eq_dec k 0) as [->|]; [cbn; lia|].
    assert (Z.log2 k < 63) by (apply Z.log2_lt_pow2; lia). lia.
Qed.

End ThresholdFacts.

Section Uint8Facts.
Import Numpy Cv2 App.

Lemma get_uint8 (a : ndarray Z) (i j : Z) :
  is_uint8 a = true -> 0 <= get 0 a i j <= 255.
Proof.
  intros H. unfold get. destruct ((i <? 0) || (j <? 0)); [lia|].
  unfold is_uint8 in H. rewrite forallb_forall in H.
  destruct (nth_in_or_default (Z.to_nat i) a []) as [Hin|E].
  - specialize (H _ Hin). rewrite forallb_forall in H.
    destruct (nth_in_or_default (Z.to_nat j) (nth (Z.to_nat i) a []) 0) as [Hj|E];
      [|rewrite E; lia].
    specialize (H _ Hj). apply andb_true_iff in H as [H1 H2].
    apply Z.leb_le in H1, H2. lia.
  - rewrite E. destruct (Z.to_nat j); cbn; lia.
Qed.

Lemma magnitude_uint8 (a : ndarray Z) (i j : Z) :
  is_uint8 a = true -> 0 <= magnitude a i j <= 2040.
Proof.
  intros H. unfold magnitude, sobel_x, sobel_y, at_replicate.
  repeat match goal with
         | |- context [get 0 a ?x ?y] =>
             let B := fresh "B" in
             pose proof (get_uint8 a x y H) as B;
             generalize dependent (get 0 a x y); intros
         end.
  lia.
Qed.

(** The thresholds of the script on an 8-bit image: the pixels above
    the low threshold and the pixels above both, by integer
    comparisons. *)
Lemma candidates_int cv (a : ndarray Z) (s : Z) :
  20 <= s <= 200 -> is_uint8 a = true ->
  candidates cv a (Float64.of_int s)
  = tabulate (rows a) (cols a)
      (fun i j => (s <? magnitude a i j) && local_max cv a i j).
Proof.
  intros Hs Ha. unfold candidates. apply tabulate_ext. intros i j _ _.
  destruct (slider_thresholds s Hs) as (L1 & L2 & _).
  pose proof (magnitude_uint8 a i j Ha) as Hm.
  assert (2040 < 2 ^ 63) as H63 by reflexivity.
  rewrite (exceeds_between _ s (magnitude a i j)); try assumption; try lia.
  reflexivity.
Qed.

Lemma seeds_int cv (a : ndarray Z) (s : Z) :
  20 <= s <= 200 -> is_uint8 a = true ->
  seeds cv a (Float64.of_int s) (Float64.mul (Float64.of_int s) Float64.lit_2_5)
  = tabulate (rows a) (cols a)
      (fun i j => (s <? magnitude a i j) && local_max cv a i j
                  && (5 * s <? 2 * magnitude a i j)).
Proof.
  intros Hs Ha. unfold seeds. rewrite candidates_int by assumption.
  apply tabulate_ext. intros i j Hi Hj. rewrite get_tabulate by assumption.
  destruct (slider_thresholds s Hs) as (_ & _ & H1 & H2 & _).
  pose proof (magnitude_uint8 a i j Ha) as Hm.
  assert (2040 < 2 ^ 63) as H63 by reflexivity.
  assert (0 <= 5 * s / 2 < 2 ^ 63) as Hk by (Z.div_mod_to_equations; lia).
  rewrite (exceeds_between _ (5 * s / 2) (magnitude a i j) Hk ltac:(lia) H1 H2).
  f_equal.
  destruct (5 * s / 2 <? magnitude a i j) eqn:E1,
           (5 * s <? 2 * magnitude a i j) eqn:E2;
    rewrite ?Z.ltb_lt, ?Z.ltb_ge in *; try reflexivity;
    Z.div_mod_to_equations; lia.
Qed.

End Uint8Facts.
(** ** Risk tiers *)

(** C1. The tier is a function of the density alone, total on the
    doubles that are numbers: SAFE exactly when [d < 0.1], WARNING
    exactly when [0.1 <= d < 1.0], CRITICAL exactly when [d >= 1.0];
    [0.1] itself is WARNING and [1.0] itself is CRITICAL; the three
    conditions exclude one another.  (The density of a mask with at
    least one cell is a number, see [percent_nonneg]; NaN would
    fall through both comparisons, see [tier_nan].) *)
Theorem tier_by_thresholds (d : Float64.float) :
  Float64.is_nan d = false ->
  (App.tier d = App.SAFE <-> Float64.ltb d Float64.lit_0_1 = true) /\
  (App.tier d = App.WARNING <->
     Float64.leb Float64.lit_0_1 d = true /\ Float64.ltb d Float64.lit_1_0 = true) /\
  (App.tier d = App.CRITICAL <-> Float64.leb Float64.lit_1_0 d = true) /\
  App.tier Float64.lit_0_1 = App.WARNING /\
  App.tier Float64.lit_1_0 = App.CRITICAL /\
  (Float64.ltb d Float64.lit_0_1 = true ->
     ~ (Float64.leb Float64.lit_0_1 d = true) /\
     ~ (Float64.leb Float64.lit_1_0 d = true)) /\
  (Float64.leb Float64.lit_1_0 d = true -> ~ (Float64.ltb d Float64.lit_1_0 = true)).
Proof.
  intros Hn.
  rewrite (leb_negb_ltb d Float64.lit_0_1 Hn eq_refl).
  rewrite (leb_negb_ltb d Float64.lit_1_0 Hn eq_refl).
  assert (Float64.ltb d Float64.lit_0_1 = true -> Float64.ltb d Float64.lit_1_0 = true)
    as Hchain by (intros H; now apply (ltb_leb_trans d Float64.lit_0_1)).
  unfold App.tier, App.risk.
  destruct (Float64.ltb d Float64.lit_0_1) eqn:E1;
    [rewrite (Hchain eq_refl)|destruct (Float64.ltb d Float64.lit_1_0) eqn:E2];
    cbn [fst negb];
    repeat split; intros; try reflexivity; try discriminate; try tauto;
    intuition discriminate.
Qed.

Lemma tier_by_thresholds_witness :
  Float64.is_nan (S754_finite false 4503599627370496 (-53)) = false /\
  App.tier (S754_finite false 4503599627370496 (-53)) = App.WARNING.
Proof.
  split; [reflexivity|].
  destruct (tier_by_thresholds (S754_finite false 4503599627370496 (-53)) eq_refl)
    as (_ & Hwarning & _).
  apply Hwarning. split; reflexivity.
Defined.

(** ** Region extraction *)

(** C3, as the script has it.  The area the loop compares with
    [min_area] is [cv2.contourArea], the area enclosed by the vertices
    of the outer contour, not the number of pixels of the component.
    One iteration of the drawing loop leaves the overlay and the count
    as they are exactly when that area is at most [min_area], and draws
    the box and the label and counts one more exactly when it is above
    [min_area]; a contour whose area equals [min_area] is dropped.
    Over the whole loop the count is the number of contours whose area
    is above [min_area]. *)
Theorem discarded_iff_area_le_min_area
    (cv : Cv2.backend) (min_area : Z) (color : Cv2.pixel) (cnt : Cv2.contour)
    (overlay : Numpy.ndarray Cv2.pixel) (count : Z) :
  ((Cv2.contourArea cnt <= inject_Z min_area)%Q <->
     App.draw_one cv min_area color cnt (overlay, count) = (overlay, count)) /\
  ((inject_Z min_area < Cv2.contourArea cnt)%Q <->
     App.draw_one cv min_area color cnt (overlay, count) =
     (let '(x, y, w, h) := Cv2.boundingRect cnt in
      Cv2.putText cv
        (Cv2.rectangle cv overlay (x, y) (x + w, y + h) color 2)
        (App.label (count + 1)) (x, y - 5) color,
      count + 1)) /\
  ((Cv2.contourArea cnt == inject_Z min_area)%Q ->
     App.draw_one cv min_area color cnt (overlay, count) = (overlay, count)) /\
  (forall contours : list Cv2.contour,
     snd (App.draw_regions cv min_area color contours (overlay, 0)) =
     Z.of_nat (length (App.surviving min_area contours)) /\
     forall c, In c (App.surviving min_area contours) <->
               In c contours /\ (inject_Z min_area < Cv2.contourArea c)%Q).
Proof.
  pose proof (above_min_area_le min_area cnt) as Hle.
  pose proof (above_min_area_lt min_area cnt) as Hlt.
  assert (forall contours : list Cv2.contour,
     snd (App.draw_regions cv min_area color contours (overlay, 0)) =
     Z.of_nat (length (App.surviving min_area contours)) /\
     forall c, In c (App.surviving min_area contours) <->
               In c contours /\ (inject_Z min_area < Cv2.contourArea c)%Q) as Hloop.
  { intros contours. split.
    - rewrite draw_regions_count. lia.
    - intros c. unfold App.surviving. rewrite filter_In, above_min_area_lt. tauto. }
  unfold App.draw_one.
  destruct (App.above_min_area min_area cnt) eqn:E.
  - assert (inject_Z min_area < Cv2.contourArea cnt)%Q as Hgt by now apply Hlt.
    destruct (Cv2.boundingRect cnt) as [[[x y] w] h].
    split; [|split; [|split]].
    + split.
      * intros C. exfalso. exact (Qlt_not_le _ _ Hgt C).
      * intros C. injection C as _ C. lia.
    + split; auto.
    + intros C. exfalso. rewrite C in Hgt. exact (Qlt_irrefl _ Hgt).
    + exact Hloop.
  - assert (Cv2.contourArea cnt <= inject_Z min_area)%Q as Hle' by now apply Hle.
    split; [|split; [|split]].
    + split; auto.
    + split.
      * intros C. exfalso. exact (Qlt_not_le _ _ C Hle').
      * destruct (Cv2.boundingRect cnt) as [[[x y] w] h].
        intros C. injection C as _ C. lia.
    + reflexivity.
    + exact Hloop.
Qed.

(** C3 as stated fails: the pixel area of a component is not what the
    script measures.  A block of 3 x 3 pixels has 9 pixels and an outer
    contour of area 4: with [min_area = 5] the claim keeps it (9 > 5)
    and the script drops it.  A ring of 23 x 23 pixels, 3 pixels wide,
    has 240 pixels and an outer contour of area 484: with
    [min_area = 300] the claim drops it (240 <= 300) and the script
    boxes and counts it. *)
Lemma pixel_area_is_not_the_measure :
  Spec.pixel_area (Demo.foreground Demo.block_mask) = 9 /\
  List.incl Demo.block_contour (Demo.foreground Demo.block_mask) /\
  (Cv2.contourArea Demo.block_contour == 4)%Q /\
  Spec.discarded 5 (Demo.foreground Demo.block_mask) = false /\
  snd (App.draw_regions (Demo.with_contours [Demo.block_contour]) 5 (255, 0, 0)
         (Cv2.findContours (Demo.with_contours [Demo.block_contour]) Demo.block_mask)
         (Numpy.tabulate 5 5 (fun _ _ => (9, 9, 9)), 0)) = 0 /\
  Spec.pixel_area (Demo.foreground Demo.ring_mask) = 240 /\
  List.incl Demo.ring_contour (Demo.foreground Demo.ring_mask) /\
  (Cv2.contourArea Demo.ring_contour == 484)%Q /\
  Spec.discarded 300 (Demo.foreground Demo.ring_mask) = true /\
  snd (App.draw_regions (Demo.with_contours [Demo.ring_contour]) 300 (255, 0, 0)
         (Cv2.findContours (Demo.with_contours [Demo.ring_contour]) Demo.ring_mask)
         (Numpy.tabulate 25 25 (fun _ _ => (9, 9, 9)), 0)) = 1.
Proof.
  assert (forall (c l : list Cv2.point),
            forallb (fun p => existsb (fun q => (fst p =? fst q) && (snd p =? snd q)) l) c
            = true -> List.incl c l) as Hincl.
  { intros c l H p Hp. rewrite forallb_forall in H. specialize (H p Hp).
    apply existsb_exists in H as (q & Hq & E).
    apply andb_true_iff in E as [E1 E2]. apply Z.eqb_eq in E1, E2.
    destruct p, q. cbn in E1, E2. now subst. }
  split; [vm_compute; reflexivity|].
  split; [apply Hincl; vm_compute; reflexivity|].
  split; [reflexivity|].
  split; [vm_compute; reflexivity|].
  split; [vm_compute; reflexivity|].
  split; [vm_compute; reflexivity|].
  split; [apply Hincl; vm_compute; reflexivity|].
  split; [reflexivity|].
  split; [vm_compute; reflexivity|].
  vm_compute; reflexivity.
Qed.

(** C7. For a fixed image and edge mask, the region count does not grow
    when [min_area] is raised. *)
Theorem region_count_antitone_in_min_area
    (cv : Cv2.backend) (color : Cv2.pixel) (mask : Numpy.ndarray Z)
    (img_rgb : Numpy.ndarray Cv2.pixel) (min_area1 min_area2 : Z) :
  min_area1 <= min_area2 ->
  snd (App.draw_regions cv min_area2 color (Cv2.findContours cv mask) (img_rgb, 0))
  <= snd (App.draw_regions cv min_area1 color (Cv2.findContours cv mask) (img_rgb, 0)).
Proof.
  intros Hm. rewrite !draw_regions_count.
  pose proof (surviving_antitone min_area1 min_area2 (Cv2.findContours cv mask) Hm).
  lia.
Qed.

Lemma region_count_antitone_in_min_area_witness :
  snd (App.draw_regions (Demo.with_contours [Demo.square20; Demo.segment]) 500
         (255, 0, 0) [Demo.square20; Demo.segment] ([], 0))
  <= snd (App.draw_regions (Demo.with_contours [Demo.square20; Demo.segment]) 100
         (255, 0, 0) [Demo.square20; Demo.segment] ([], 0)).
Proof.
  apply (region_count_antitone_in_min_area
           (Demo.with_contours [Demo.square20; Demo.segment])
           (255, 0, 0) [] [] 100 500).
  lia.
Defined.

(** ** Failures and configuration *)

(** C4, as the script has it.  The loop has no handler: when the bytes
    of some uploaded image do not decode, [cv2.cvtColor] raises and the
    run ends with that error, so no record is produced for any image of
    the batch; when every image decodes, the run returns one record per
    image, in the order of submission. *)
Theorem decode_failure_ends_the_run
    (cv : Cv2.backend) (ui : App.widgets) (uploaded_files : list App.uploaded_file) :
  (Exists (fun f => Cv2.imdecode cv (App.file_bytes f) = None) uploaded_files ->
   App.run cv ui uploaded_files = App.Raised "cv2.error") /\
  (forall imgs,
     Forall2 (fun f img => Cv2.imdecode cv (App.file_bytes f) = Some img)
             uploaded_files imgs ->
     App.run cv ui uploaded_files =
     App.Returned
       (List.map (fun fi => App.analyse_image cv (App.sidebar ui)
                              (App.file_name (fst fi)) (snd fi))
                 (combine uploaded_files imgs))).
Proof.
  split.
  - apply for_each_raised.
  - intros imgs H. unfold App.run. now rewrite (for_each_returned _ _ _ imgs).
Qed.

(** C4 as stated fails: two images that decode, one between them that
    does not, and the run returns no record at all. *)
Lemma decode_failure_keeps_no_result :
  Cv2.imdecode Demo.cv (App.file_bytes Demo.good_file) <> None /\
  Cv2.imdecode Demo.cv (App.file_bytes Demo.corrupt_file) = None /\
  ~ (exists results,
       App.run Demo.cv Demo.defaults
         [Demo.good_file; Demo.corrupt_file; Demo.good_file]
       = App.Returned results).
Proof.
  split; [discriminate|]. split; [reflexivity|].
  intros [results H]. vm_compute in H. discriminate.
Qed.

(** C5, as the script has it.  The slider keeps [sensitivity] within
    [20, 200].  The number input confines [min_area] to the range
    Streamlit gives every integer input, from [-(2^53 - 1)] to
    [2^53 - 1], and to nothing narrower: an integer typed within that
    range, a negative one included, is delivered as typed (100 when
    the widget is untouched), and with a negative [min_area] every
    contour is kept. *)
Theorem min_area_is_taken_as_typed (ui : App.widgets) :
  (forall v, App.min_area_input ui = Some v ->
     - (2 ^ 53 - 1) <= v <= 2 ^ 53 - 1 ->
     App.min_area (App.sidebar ui) = v) /\
  (App.min_area_input ui = None -> App.min_area (App.sidebar ui) = 100) /\
  - (2 ^ 53 - 1) <= App.min_area (App.sidebar ui) <= 2 ^ 53 - 1 /\
  20 <= App.sensitivity (App.sidebar ui) <= 200 /\
  (App.min_area (App.sidebar ui) < 0 ->
   forall cv color contours img_rgb,
     snd (App.draw_regions cv (App.min_area (App.sidebar ui)) color contours
            (img_rgb, 0))
     = Z.of_nat (length contours)).
Proof.
  assert (100 < 2 ^ 53 - 1) as H100 by reflexivity.
  unfold App.sidebar, App.number_input. cbn [App.min_area App.sensitivity].
  split; [|split; [|split; [|split]]].
  - intros v -> Hv.
    destruct (- (2 ^ 53 - 1) <=? v) eqn:E1, (v <=? 2 ^ 53 - 1) eqn:E2;
      cbn [andb]; rewrite ?Z.leb_le, ?Z.leb_gt in *; try reflexivity; lia.
  - now intros ->.
  - destruct (App.min_area_input ui) as [v|]; [|lia].
    destruct (- (2 ^ 53 - 1) <=? v) eqn:E1, (v <=? 2 ^ 53 - 1) eqn:E2;
      cbn [andb]; rewrite ?Z.leb_le, ?Z.leb_gt in *; lia.
  - unfold App.slider. destruct (App.sensitivity_input ui); lia.
  - intros Hneg cv color contours img_rgb.
    rewrite draw_regions_count, surviving_all by exact Hneg. lia.
Qed.

(** C5 as stated fails: the user types -5, the run goes through with
    [min_area = -5], and a contour of area zero is boxed and counted. *)
Lemma negative_min_area_reaches_the_pipeline :
  App.min_area
    (App.sidebar {| App.sensitivity_input := None; App.min_area_input := Some (-5) |})
  = -5 /\
  (Cv2.contourArea Demo.segment == 0)%Q /\
  List.map App.res_count
    (match App.run (Demo.with_contours [Demo.segment])
             {| App.sensitivity_input := None; App.min_area_input := Some (-5) |}
             [Demo.good_file] with
     | App.Returned results => results
     | App.Raised _ => []
     end) = [1].
Proof. split; [reflexivity|]. split; [reflexivity|]. vm_compute. reflexivity. Qed.

(** ** The annotated image *)

(** C6. With [img_rgb] an array object of the heap, lines 61-68 leave
    that object as it was: the overlay is a new object of the same
    shape, no other object is written, and every pixel of the overlay
    that no box border and no label covers equals the pixel of
    [img_rgb] at the same place. *)
Theorem overlay_is_an_annotated_copy
    (cv : Cv2.backend) (min_area : Z) (color : Cv2.pixel)
    (contours : list Cv2.contour) (img_rgb : App.loc) (h : App.heap)
    (a : Numpy.ndarray Cv2.pixel) :
  h !! img_rgb = Some a ->
  exists (overlay : App.loc) (count : Z) (h' : App.heap) (b : Numpy.ndarray Cv2.pixel),
    App.extract_regions cv min_area color contours img_rgb h
      = Some (overlay, count, h') /\
    overlay <> img_rgb /\
    h' !! img_rgb = Some a /\
    (forall l : App.loc, l <> overlay -> h' !! l = h !! l) /\
    h' !! overlay = Some b /\
    (b, count) = App.draw_regions cv min_area color contours (a, 0) /\
    Numpy.rows b = Numpy.rows a /\ Numpy.cols b = Numpy.cols a /\
    forall i j, Numpy.inside a i j ->
      Drawn.covered cv min_area contours 0 j i = false ->
      Numpy.get (0, 0, 0) b i j = Numpy.get (0, 0, 0) a i j.
Proof.
  intros Ha.
  set (overlay := fresh (dom h)).
  assert (h !! overlay = None) as Hfresh
    by (apply not_elem_of_dom; apply is_fresh).
  assert (overlay <> img_rgb) as Hne by congruence.
  pose proof (draw_regions_frame cv min_area color contours a 0) as (Hr & Hc & Hpx).
  exists overlay, (snd (App.draw_regions cv min_area color contours (a, 0))),
    (<[overlay := fst (App.draw_regions cv min_area color contours (a, 0))]> h),
    (fst (App.draw_regions cv min_area color contours (a, 0))).
  split.
  { unfold App.extract_regions, App.copy. rewrite Ha. fold overlay.
    rewrite (draw_regions_at_spec _ _ _ _ _ _ _ a) by apply lookup_insert_eq.
    now rewrite insert_insert_eq. }
  split; [exact Hne|].
  split; [now rewrite lookup_insert_ne|].
  split; [intros l Hl; now rewrite lookup_insert_ne|].
  split; [apply lookup_insert_eq|].
  split; [now destruct (App.draw_regions cv min_area color contours (a, 0))|].
  auto.
Qed.

Lemma overlay_is_an_annotated_copy_witness :
  exists (overlay : App.loc) (count : Z) (h' : App.heap) (b : Numpy.ndarray Cv2.pixel),
    App.extract_regions Demo.cv 100 (255, 0, 0) [Demo.square20; Demo.segment] 1%positive
      {[ 1%positive := Numpy.tabulate 30 30 (fun _ _ => (9, 9, 9)) ]}
      = Some (overlay, count, h') /\
    overlay <> 1%positive /\
    h' !! 1%positive = Some (Numpy.tabulate 30 30 (fun _ _ => (9, 9, 9))) /\
    (forall l : App.loc, l <> overlay ->
       h' !! l = ({[ 1%positive := Numpy.tabulate 30 30 (fun _ _ => (9, 9, 9)) ]} : App.heap) !! l) /\
    h' !! overlay = Some b /\
    (b, count) = App.draw_regions Demo.cv 100 (255, 0, 0) [Demo.square20; Demo.segment]
                   (Numpy.tabulate 30 30 (fun _ _ => (9, 9, 9)), 0) /\
    Numpy.rows b = Numpy.rows (Numpy.tabulate 30 30 (fun _ _ => (9, 9, 9))) /\
    Numpy.cols b = Numpy.cols (Numpy.tabulate 30 30 (fun _ _ => (9, 9, 9))) /\
    forall i j, Numpy.inside (Numpy.tabulate 30 30 (fun _ _ => (9, 9, 9))) i j ->
      Drawn.covered Demo.cv 100 [Demo.square20; Demo.segment] 0 j i = false ->
      Numpy.get (0, 0, 0) b i j =
      Numpy.get (0, 0, 0) (Numpy.tabulate 30 30 (fun _ _ => (9, 9, 9))) i j.
Proof.
  apply (overlay_is_an_annotated_copy Demo.cv 100 (255, 0, 0)
           [Demo.square20; Demo.segment] 1%positive
           {[ 1%positive := Numpy.tabulate 30 30 (fun _ _ => (9, 9, 9)) ]}).
  apply lookup_singleton_eq.
Defined.

(** ** Sensitivity *)

(** C8. For a fixed image, raising [sensitivity] (the low threshold of
    Canny is [sensitivity], the high one [sensitivity * 2.5]) adds no
    pixel to the edge mask, so the count of edge pixels does not grow,
    and the density does not grow either. *)
Theorem edge_pixels_antitone_in_sensitivity
    (cv : Cv2.backend) (img : Numpy.ndarray Cv2.pixel)
    (sensitivity1 sensitivity2 : Z) :
  0 <= sensitivity1 <= sensitivity2 -> sensitivity2 < 2 ^ 63 ->
  0 < Z.of_nat (Numpy.rows img) * Z.of_nat (Numpy.cols img) < 2 ^ 63 ->
  Cv2.below (App.edge_mask cv sensitivity2 img) (App.edge_mask cv sensitivity1 img) /\
  Numpy.sum_gt0 (App.edge_mask cv sensitivity2 img)
    <= Numpy.sum_gt0 (App.edge_mask cv sensitivity1 img) /\
  Float64.leb (App.density (App.edge_mask cv sensitivity2 img))
              (App.density (App.edge_mask cv sensitivity1 img)) = true.
Proof.
  intros Hs Hs2 Hsize.
  destruct (thresholds_monotone sensitivity1 sensitivity2 Hs Hs2) as [Hlow Hhigh].
  set (blurred := Cv2.GaussianBlur cv (Cv2.cvtColor_BGR2GRAY cv img)).
  pose proof (Canny_antitone cv blurred _ _ _ _ Hlow Hhigh) as Hbelow.
  assert (Numpy.sum_gt0 (App.edge_mask cv sensitivity2 img)
          <= Numpy.sum_gt0 (App.edge_mask cv sensitivity1 img)) as Hcount.
  { unfold App.edge_mask. fold blurred.
    apply sum_gt0_dilate_monotone; [now rewrite !rows_Canny|now rewrite !cols_Canny|].
    exact Hbelow. }
  split; [|split; [exact Hcount|]].
  - unfold App.edge_mask. fold blurred. unfold Cv2.dilate.
    rewrite !rows_Canny, !cols_Canny. intros i j.
    rewrite !get_tabulate_pos. intros [Hin H]. split; [exact Hin|].
    eapply dilate_pixel_monotone; eassumption.
  - unfold App.density. rewrite !size_edge_mask.
    pose proof (sum_gt0_bounds (App.edge_mask cv sensitivity2 img)) as B2.
    pose proof (sum_gt0_bounds (App.edge_mask cv sensitivity1 img)) as B1.
    rewrite size_edge_mask in B1, B2.
    apply percent_mono; lia.
Qed.

Lemma edge_pixels_antitone_in_sensitivity_witness :
  Cv2.below (App.edge_mask Demo.cv 200 (Numpy.tabulate 6 6 (fun _ j => if j <? 3 then (0, 0, 0) else (120, 120, 120))))
            (App.edge_mask Demo.cv 100 (Numpy.tabulate 6 6 (fun _ j => if j <? 3 then (0, 0, 0) else (120, 120, 120)))) /\
  Numpy.sum_gt0 (App.edge_mask Demo.cv 200 (Numpy.tabulate 6 6 (fun _ j => if j <? 3 then (0, 0, 0) else (120, 120, 120))))
    <= Numpy.sum_gt0 (App.edge_mask Demo.cv 100 (Numpy.tabulate 6 6 (fun _ j => if j <? 3 then (0, 0, 0) else (120, 120, 120)))) /\
  Float64.leb
    (App.density (App.edge_mask Demo.cv 200 (Numpy.tabulate 6 6 (fun _ j => if j <? 3 then (0, 0, 0) else (120, 120, 120)))))
    (App.density (App.edge_mask Demo.cv 100 (Numpy.tabulate 6 6 (fun _ j => if j <? 3 then (0, 0, 0) else (120, 120, 120)))))
  = true.
Proof.
  apply (edge_pixels_antitone_in_sensitivity Demo.cv
           (Numpy.tabulate 6 6 (fun _ j => if j <? 3 then (0, 0, 0) else (120, 120, 120)))
           100 200); [lia|lia|].
  vm_compute. split; reflexivity.
Defined.

(** ** Density *)

(** C2. For a mask with at least one cell (and fewer than [2^63], the
    range of NumPy's index type), the density is the number of cells
    above zero, divided by the number of cells, times 100, in double
    arithmetic, and it lies between 0 and 100. *)
Theorem density_is_a_percentage (mask : Numpy.ndarray Z) :
  0 < Numpy.size mask < 2 ^ 63 ->
  App.density mask =
    Float64.mul
      (Float64.div
         (Float64.of_int
            (Z.of_nat (length (List.filter (fun v => 0 <? v) (concat mask)))))
         (Float64.of_int (Z.of_nat (length (concat mask)))))
      (Float64.of_int 100) /\
  Float64.is_nan (App.density mask) = false /\
  Float64.leb (Float64.of_int 0) (App.density mask) = true /\
  Float64.leb (App.density mask) (Float64.of_int 100) = true.
Proof.
  intros Hsize. pose proof (sum_gt0_bounds mask) as Hc.
  destruct (percent_nonneg _ _ Hc Hsize) as [_ Hd].
  split; [reflexivity|]. split; [|split].
  - exact (nonneg_number _ _ _ Hd).
  - exact (leb_zero_nonneg _ _ _ Hd).
  - now apply percent_le_100.
Qed.

Lemma density_is_a_percentage_witness :
  App.density [[0; 255; 255]; [0; 0; 255]] =
    Float64.mul
      (Float64.div
         (Float64.of_int
            (Z.of_nat (length (List.filter (fun v => 0 <? v)
                                 (concat [[0; 255; 255]; [0; 0; 255]])))))
         (Float64.of_int (Z.of_nat (length (concat [[0; 255; 255]; [0; 0; 255]])))))
      (Float64.of_int 100) /\
  Float64.is_nan (App.density [[0; 255; 255]; [0; 0; 255]]) = false /\
  Float64.leb (Float64.of_int 0) (App.density [[0; 255; 255]; [0; 0; 255]]) = true /\
  Float64.leb (App.density [[0; 255; 255]; [0; 0; 255]]) (Float64.of_int 100) = true.
Proof.
  apply (density_is_a_percentage [[0; 255; 255]; [0; 0; 255]]).
  vm_compute. split; reflexivity.
Defined.

(** ** Uniform images *)

(** C9. For an image of one colour (any size with at least one pixel,
    any setting of the sidebar), the edge mask is zero everywhere, the
    density is 0.0, the tier is SAFE and no region is counted, given
    that every contour the tracer returns passes through a foreground
    pixel of the mask. *)
Theorem uniform_image_is_safe
    (cv : Cv2.backend) (ui : App.widgets) (name : string)
    (r c : nat) (p : Cv2.pixel) :
  (forall mask cnt, In cnt (Cv2.findContours cv mask) ->
     exists x y, In (x, y) cnt /\ 0 < Numpy.get 0 mask y x) ->
  (0 < r)%nat -> (0 < c)%nat -> Z.of_nat r * Z.of_nat c < 2 ^ 63 ->
  App.edge_mask cv (App.sensitivity (App.sidebar ui)) (Numpy.tabulate r c (fun _ _ => p))
    = Numpy.tabulate r c (fun _ _ => 0) /\
  (forall i j,
     Numpy.get 0 (App.edge_mask cv (App.sensitivity (App.sidebar ui))
                    (Numpy.tabulate r c (fun _ _ => p))) i j = 0) /\
  App.density (App.edge_mask cv (App.sensitivity (App.sidebar ui))
                 (Numpy.tabulate r c (fun _ _ => p))) = S754_zero false /\
  App.tier (App.density (App.edge_mask cv (App.sensitivity (App.sidebar ui))
                           (Numpy.tabulate r c (fun _ _ => p)))) = App.SAFE /\
  App.res_density (App.analyse_image cv (App.sidebar ui) name
                     (Numpy.tabulate r c (fun _ _ => p))) = S754_zero false /\
  App.res_status (App.analyse_image cv (App.sidebar ui) name
                    (Numpy.tabulate r c (fun _ _ => p))) = App.SAFE /\
  App.res_count (App.analyse_image cv (App.sidebar ui) name
                   (Numpy.tabulate r c (fun _ _ => p))) = 0.
Proof.
  intros Hlaw Hr Hc Hsize.
  pose proof (sensitivity_range ui) as Hs.
  assert (App.edge_mask cv (App.sensitivity (App.sidebar ui))
            (Numpy.tabulate r c (fun _ _ => p))
          = Numpy.tabulate r c (fun _ _ => 0)) as Hmask
    by (apply edge_mask_uniform; lia).
  assert (App.density (Numpy.tabulate r c (fun _ _ => 0)) = S754_zero false) as Hd
    by (apply density_zero_mask; lia).
  unfold App.analyse_image. rewrite Hmask, Hd.
  rewrite (no_contours_in_zero_mask cv r c Hlaw).
  repeat split; try reflexivity. intros i j. apply get_all_zero.
Qed.

Lemma uniform_image_is_safe_witness :
  App.edge_mask Demo.cv (App.sensitivity (App.sidebar Demo.defaults))
    (Numpy.tabulate 4 5 (fun _ _ => (255, 255, 255)))
    = Numpy.tabulate 4 5 (fun _ _ => 0) /\
  (forall i j,
     Numpy.get 0 (App.edge_mask Demo.cv (App.sensitivity (App.sidebar Demo.defaults))
                    (Numpy.tabulate 4 5 (fun _ _ => (255, 255, 255)))) i j = 0) /\
  App.density (App.edge_mask Demo.cv (App.sensitivity (App.sidebar Demo.defaults))
                 (Numpy.tabulate 4 5 (fun _ _ => (255, 255, 255)))) = S754_zero false /\
  App.tier (App.density (App.edge_mask Demo.cv (App.sensitivity (App.sidebar Demo.defaults))
                           (Numpy.tabulate 4 5 (fun _ _ => (255, 255, 255))))) = App.SAFE /\
  App.res_density (App.analyse_image Demo.cv (App.sidebar Demo.defaults) "white.png"
                     (Numpy.tabulate 4 5 (fun _ _ => (255, 255, 255)))) = S754_zero false /\
  App.res_status (App.analyse_image Demo.cv (App.sidebar Demo.defaults) "white.png"
                    (Numpy.tabulate 4 5 (fun _ _ => (255, 255, 255)))) = App.SAFE /\
  App.res_count (App.analyse_image Demo.cv (App.sidebar Demo.defaults) "white.png"
                   (Numpy.tabulate 4 5 (fun _ _ => (255, 255, 255)))) = 0.
Proof.
  apply (uniform_image_is_safe Demo.cv Demo.defaults "white.png" 4 5 (255, 255, 255)).
  - exact pixel_contours_sound.
  - lia.
  - lia.
  - vm_compute. reflexivity.
Defined.

(** ** The exposed density *)

(** C10, as the script has it.  The record holds [round(density, 4)],
    which NumPy computes by scaling with [10**4], rounding to the
    nearest integer (ties to even) and dividing again: the exposed
    density is the double nearest to [k / 10000] for an integer [k]
    between 0 and 1000000, and two raw densities give the same exposed
    value whenever their scaled values round to the same integer.  The
    tier of the record is the tier of the raw density. *)
Theorem exposed_density_is_rounded
    (cv : Cv2.backend) (cfg : App.config) (name : string)
    (img : Numpy.ndarray Cv2.pixel) :
  0 < Z.of_nat (Numpy.rows img) * Z.of_nat (Numpy.cols img) < 2 ^ 63 ->
  App.res_density (App.analyse_image cv cfg name img)
    = Float64.div
        (Float64.rint
           (Float64.mul (App.density (App.edge_mask cv (App.sensitivity cfg) img))
                        (Float64.of_int 10000)))
        (Float64.of_int 10000) /\
  (exists k, 0 <= k <= 1000000 /\
     App.res_density (App.analyse_image cv cfg name img)
       = Float64.div (Float64.of_int k) (Float64.of_int 10000)) /\
  (forall d1 d2,
     Float64.rint (Float64.mul d1 (Float64.of_int 10000))
       = Float64.rint (Float64.mul d2 (Float64.of_int 10000)) ->
     App.round4 d1 = App.round4 d2) /\
  App.res_status (App.analyse_image cv cfg name img)
    = App.tier (App.density (App.edge_mask cv (App.sensitivity cfg) img)).
Proof.
  intros Hsize.
  destruct (analyse_image_fields cv cfg name img) as (_ & Hd & Hs & _).
  pose proof (sum_gt0_bounds (App.edge_mask cv (App.sensitivity cfg) img)) as Hc.
  rewrite size_edge_mask in Hc.
  split; [exact Hd|]. split; [|split; [|exact Hs]].
  - rewrite Hd. unfold App.density. rewrite size_edge_mask.
    apply round4_percent.
    + now apply percent_nonneg.
    + now apply percent_le_100.
  - intros d1 d2 H. unfold App.round4. now rewrite H.
Qed.

Lemma exposed_density_is_rounded_witness :
  App.res_density (App.analyse_image Demo.cv (App.sidebar Demo.defaults) "wall.png"
                     (Numpy.tabulate 6 6 (fun _ j => if j <? 3 then (0, 0, 0) else (255, 255, 255))))
    = Float64.div
        (Float64.rint
           (Float64.mul
              (App.density
                 (App.edge_mask Demo.cv (App.sensitivity (App.sidebar Demo.defaults))
                    (Numpy.tabulate 6 6 (fun _ j => if j <? 3 then (0, 0, 0) else (255, 255, 255)))))
              (Float64.of_int 10000)))
        (Float64.of_int 10000) /\
  (exists k, 0 <= k <= 1000000 /\
     App.res_density (App.analyse_image Demo.cv (App.sidebar Demo.defaults) "wall.png"
                        (Numpy.tabulate 6 6 (fun _ j => if j <? 3 then (0, 0, 0) else (255, 255, 255))))
       = Float64.div (Float64.of_int k) (Float64.of_int 10000)) /\
  (forall d1 d2,
     Float64.rint (Float64.mul d1 (Float64.of_int 10000))
       = Float64.rint (Float64.mul d2 (Float64.of_int 10000)) ->
     App.round4 d1 = App.round4 d2) /\
  App.res_status (App.analyse_image Demo.cv (App.sidebar Demo.defaults) "wall.png"
                    (Numpy.tabulate 6 6 (fun _ j => if j <? 3 then (0, 0, 0) else (255, 255, 255))))
    = App.tier
        (App.density
           (App.edge_mask Demo.cv (App.sensitivity (App.sidebar Demo.defaults))
              (Numpy.tabulate 6 6 (fun _ j => if j <? 3 then (0, 0, 0) else (255, 255, 255))))).
Proof.
  apply (exposed_density_is_rounded Demo.cv (App.sidebar Demo.defaults) "wall.png"
           (Numpy.tabulate 6 6 (fun _ j => if j <? 3 then (0, 0, 0) else (255, 255, 255)))).
  vm_compute. split; reflexivity.
Defined.


(** C10 as stated fails.  Two masks of 1000 x 1600 cells with 10 and 11
    cells set have the raw densities 0.000625 and 0.0006875, equal up
    to the fourth decimal place, and the records show 0.0006 and
    0.0007.  And a mask of 3 x 667 cells with 2 cells set is SAFE by
    its raw density 0.09995..., while the exposed 0.1 would be
    WARNING. *)
Lemma same_four_decimals_different_records :
  Float64.floor_scaled 10000 (App.density (Demo.sparse_mask 1000 1600 10)) = Some 6 /\
  Float64.floor_scaled 10000 (App.density (Demo.sparse_mask 1000 1600 11)) = Some 6 /\
  App.round4 (App.density (Demo.sparse_mask 1000 1600 10))
    = Float64.div (Float64.of_int 6) (Float64.of_int 10000) /\
  App.round4 (App.density (Demo.sparse_mask 1000 1600 11))
    = Float64.div (Float64.of_int 7) (Float64.of_int 10000) /\
  Float64.div (Float64.of_int 6) (Float64.of_int 10000)
    <> Float64.div (Float64.of_int 7) (Float64.of_int 10000) /\
  App.tier (App.density (Demo.sparse_mask 3 667 2)) = App.SAFE /\
  App.tier (App.round4 (App.density (Demo.sparse_mask 3 667 2))) = App.WARNING.
Proof.
  split; [vm_compute; reflexivity|].
  split; [vm_compute; reflexivity|].
  split; [vm_compute; reflexivity|].
  split; [vm_compute; reflexivity|].
  split; [vm_compute; discriminate|].
  split; vm_compute; reflexivity.
Qed.

(* ================================================================== *)
(** * Further properties of the script *)
(* ================================================================== *)

(** ** The risk logic in exact arithmetic *)

(** The double arithmetic of lines 51-57 decides as the exact
    proportion would.  For a mask with at least one cell and fewer
    than [2^53], of which [count] are above zero: the tier is SAFE
    exactly when fewer than one cell in a thousand is set
    ([1000 * count < size]), CRITICAL exactly when at least one cell in
    a hundred is set ([100 * count >= size]), and WARNING in between;
    no rounding of the division or of the product moves a mask across
    a threshold. *)
Theorem tier_by_exact_proportion (mask : Numpy.ndarray Z) :
  0 < Numpy.size mask < 2 ^ 53 ->
  (App.tier (App.density mask) = App.SAFE <->
     1000 * Numpy.sum_gt0 mask < Numpy.size mask) /\
  (App.tier (App.density mask) = App.WARNING <->
     Numpy.size mask <= 1000 * Numpy.sum_gt0 mask /\
     100 * Numpy.sum_gt0 mask < Numpy.size mask) /\
  (App.tier (App.density mask) = App.CRITICAL <->
     Numpy.size mask <= 100 * Numpy.sum_gt0 mask).
Proof.
  intros Hsize. pose proof (sum_gt0_bounds mask) as Hc.
  assert (2 ^ 53 < 2 ^ 63) as H63 by reflexivity.
  assert (Float64.is_nan (App.density mask) = false) as Hnum.
  { apply (nonneg_number (-110) 21). apply percent_nonneg; lia. }
  unfold App.tier, App.risk, App.density in *.
  set (count := Numpy.sum_gt0 mask) in *. set (size := Numpy.size mask) in *.
  destruct (Z_lt_ge_dec (1000 * count) size) as [H1|H1].
  - rewrite (below_0_1 count size) by lia. cbn [fst].
    repeat split; intros; try discriminate; try lia.
  - pose proof (above_0_1 count size ltac:(lia) Hsize ltac:(lia)) as A.
    rewrite (leb_negb_ltb _ Float64.lit_0_1 Hnum eq_refl) in A.
    apply negb_true_iff in A. rewrite A.
    destruct (Z_lt_ge_dec (100 * count) size) as [H2|H2].
    + rewrite (below_1_0 count size) by lia. cbn [fst].
      repeat split; intros; try discriminate; try lia.
    + pose proof (above_1_0 count size ltac:(lia) Hsize ltac:(lia)) as B.
      rewrite (leb_negb_ltb _ Float64.lit_1_0 Hnum eq_refl) in B.
      apply negb_true_iff in B. rewrite B. cbn [fst].
      repeat split; intros; try discriminate; try lia.
Qed.

Lemma tier_by_exact_proportion_witness :
  (App.tier (App.density [[0; 255; 255]; [0; 0; 255]]) = App.SAFE <->
     1000 * Numpy.sum_gt0 [[0; 255; 255]; [0; 0; 255]]
     < Numpy.size [[0; 255; 255]; [0; 0; 255]]) /\
  (App.tier (App.density [[0; 255; 255]; [0; 0; 255]]) = App.WARNING <->
     Numpy.size [[0; 255; 255]; [0; 0; 255]]
     <= 1000 * Numpy.sum_gt0 [[0; 255; 255]; [0; 0; 255]] /\
     100 * Numpy.sum_gt0 [[0; 255; 255]; [0; 0; 255]]
     < Numpy.size [[0; 255; 255]; [0; 0; 255]]) /\
  (App.tier (App.density [[0; 255; 255]; [0; 0; 255]]) = App.CRITICAL <->
     Numpy.size [[0; 255; 255]; [0; 0; 255]]
     <= 100 * Numpy.sum_gt0 [[0; 255; 255]; [0; 0; 255]]).
Proof.
  apply (tier_by_exact_proportion [[0; 255; 255]; [0; 0; 255]]).
  vm_compute. split; reflexivity.
Defined.

(** The ends of the scale (line 51).  For a mask with at least one
    cell and fewer than [2^53]: the density is [0.0] exactly when no
    cell is above zero, [100.0] exactly when every cell is, and
    strictly between the two otherwise. *)
Theorem density_ends (mask : Numpy.ndarray Z) :
  0 < Numpy.size mask < 2 ^ 53 ->
  (App.density mask = S754_zero false <-> Numpy.sum_gt0 mask = 0) /\
  (App.density mask = Float64.of_int 100 <-> Numpy.sum_gt0 mask = Numpy.size mask) /\
  (0 < Numpy.sum_gt0 mask < Numpy.size mask ->
   Float64.ltb (S754_zero false) (App.density mask) = true /\
   Float64.ltb (App.density mask) (Float64.of_int 100) = true).
Proof.
  intros Hsize. pose proof (sum_gt0_bounds mask) as Hc.
  assert (2 ^ 53 < 2 ^ 63) as H63 by reflexivity.
  unfold App.density.
  set (count := Numpy.sum_gt0 mask) in *. set (size := Numpy.size mask) in *.
  assert (0 < count ->
          Float64.ltb (S754_zero false)
            (Float64.mul (Float64.div (Float64.of_int count) (Float64.of_int size))
                         (Float64.of_int 100)) = true) as Hpos.
  { intros H. pose proof (percent_pos count size ltac:(lia) ltac:(lia)) as P.
    now destruct (Float64.mul _ _) as [| | |[] m e]. }
  split; [|split].
  - split.
    + intros E. destruct (Z.eq_dec count 0) as [|Hne]; [assumption|exfalso].
      specialize (Hpos ltac:(lia)). rewrite E in Hpos. discriminate.
    + intros ->. apply percent_zero. lia.
  - split.
    + intros E. destruct (Z.eq_dec count size) as [|Hne]; [assumption|exfalso].
      pose proof (below_100 count size ltac:(lia) Hsize ltac:(lia)) as H.
      rewrite E in H. discriminate.
    + intros ->. rewrite (div_self _ _ _ (of_int_pos_pnormal size ltac:(lia))).
      reflexivity.
  - intros H. split; [apply Hpos; lia|apply below_100; lia].
Qed.

Lemma density_ends_witness :
  (App.density [[0; 255; 255]; [0; 0; 255]] = S754_zero false <->
     Numpy.sum_gt0 [[0; 255; 255]; [0; 0; 255]] = 0) /\
  (App.density [[0; 255; 255]; [0; 0; 255]] = Float64.of_int 100 <->
     Numpy.sum_gt0 [[0; 255; 255]; [0; 0; 255]]
     = Numpy.size [[0; 255; 255]; [0; 0; 255]]) /\
  (0 < Numpy.sum_gt0 [[0; 255; 255]; [0; 0; 255]]
     < Numpy.size [[0; 255; 255]; [0; 0; 255]] ->
   Float64.ltb (S754_zero false) (App.density [[0; 255; 255]; [0; 0; 255]]) = true /\
   Float64.ltb (App.density [[0; 255; 255]; [0; 0; 255]]) (Float64.of_int 100) = true).
Proof.
  apply (density_ends [[0; 255; 255]; [0; 0; 255]]).
  vm_compute. split; reflexivity.
Defined.

(** ** The record against its status *)

(** The density and the status of a record never contradict each other
    (lines 52-57 and 72), although the status is taken from the raw
    density and the record holds the rounded one: a SAFE record shows
    at most [0.1], a WARNING record a value from [0.1] to [1.0], a
    CRITICAL record at least [1.0]; and the density of every record is
    between 0 and 100. *)
Theorem record_density_agrees_with_status
    (cv : Cv2.backend) (cfg : App.config) (name : string)
    (img : Numpy.ndarray Cv2.pixel) :
  0 < Z.of_nat (Numpy.rows img) * Z.of_nat (Numpy.cols img) < 2 ^ 63 ->
  (App.res_status (App.analyse_image cv cfg name img) = App.SAFE ->
   Float64.leb (App.res_density (App.analyse_image cv cfg name img))
               Float64.lit_0_1 = true) /\
  (App.res_status (App.analyse_image cv cfg name img) = App.WARNING ->
   Float64.leb Float64.lit_0_1
               (App.res_density (App.analyse_image cv cfg name img)) = true /\
   Float64.leb (App.res_density (App.analyse_image cv cfg name img))
               Float64.lit_1_0 = true) /\
  (App.res_status (App.analyse_image cv cfg name img) = App.CRITICAL ->
   Float64.leb Float64.lit_1_0
               (App.res_density (App.analyse_image cv cfg name img)) = true) /\
  Float64.leb (Float64.of_int 0)
              (App.res_density (App.analyse_image cv cfg name img)) = true /\
  Float64.leb (App.res_density (App.analyse_image cv cfg name img))
              (Float64.of_int 100) = true.
Proof.
  intros Hsize.
  destruct (analyse_image_fields cv cfg name img) as (_ & -> & -> & _).
  rewrite <- (size_edge_mask cv (App.sensitivity cfg)) in Hsize.
  destruct (density_percent _ Hsize) as [Hd Hmax].
  now apply round4_tier.
Qed.

Lemma record_density_agrees_with_status_witness :
  (App.res_status (App.analyse_image Demo.cv (App.sidebar Demo.defaults) "wall.png"
                     (Numpy.tabulate 6 6 (fun _ j => if j <? 3 then (0, 0, 0) else (255, 255, 255))))
   = App.SAFE ->
   Float64.leb (App.res_density (App.analyse_image Demo.cv (App.sidebar Demo.defaults) "wall.png"
                                   (Numpy.tabulate 6 6 (fun _ j => if j <? 3 then (0, 0, 0) else (255, 255, 255)))))
               Float64.lit_0_1 = true) /\
  (App.res_status (App.analyse_image Demo.cv (App.sidebar Demo.defaults) "wall.png"
                     (Numpy.tabulate 6 6 (fun _ j => if j <? 3 then (0, 0, 0) else (255, 255, 255))))
   = App.WARNING ->
   Float64.leb Float64.lit_0_1
               (App.res_density (App.analyse_image Demo.cv (App.sidebar Demo.defaults) "wall.png"
                                   (Numpy.tabulate 6 6 (fun _ j => if j <? 3 then (0, 0, 0) else (255, 255, 255)))))
   = true /\
   Float64.leb (App.res_density (App.analyse_image Demo.cv (App.sidebar Demo.defaults) "wall.png"
                                   (Numpy.tabulate 6 6 (fun _ j => if j <? 3 then (0, 0, 0) else (255, 255, 255)))))
               Float64.lit_1_0 = true) /\
  (App.res_status (App.analyse_image Demo.cv (App.sidebar Demo.defaults) "wall.png"
                     (Numpy.tabulate 6 6 (fun _ j => if j <? 3 then (0, 0, 0) else (255, 255, 255))))
   = App.CRITICAL ->
   Float64.leb Float64.lit_1_0
               (App.res_density (App.analyse_image Demo.cv (App.sidebar Demo.defaults) "wall.png"
                                   (Numpy.tabulate 6 6 (fun _ j => if j <? 3 then (0, 0, 0) else (255, 255, 255)))))
   = true) /\
  Float64.leb (Float64.of_int 0)
              (App.res_density (App.analyse_image Demo.cv (App.sidebar Demo.defaults) "wall.png"
                                  (Numpy.tabulate 6 6 (fun _ j => if j <? 3 then (0, 0, 0) else (255, 255, 255)))))
  = true /\
  Float64.leb (App.res_density (App.analyse_image Demo.cv (App.sidebar Demo.defaults) "wall.png"
                                  (Numpy.tabulate 6 6 (fun _ j => if j <? 3 then (0, 0, 0) else (255, 255, 255)))))
              (Float64.of_int 100) = true.
Proof.
  apply (record_density_agrees_with_status Demo.cv (App.sidebar Demo.defaults) "wall.png"
           (Numpy.tabulate 6 6 (fun _ j => if j <? 3 then (0, 0, 0) else (255, 255, 255)))).
  vm_compute. split; reflexivity.
Defined.

(** ** Sensitivity and the record *)

(** Moving the sensitivity slider up never makes the record of an
    image more severe (lines 24, 47-57 and 72): for the same image, a
    record that is CRITICAL at the higher setting is CRITICAL at the
    lower one, a record that is SAFE at the lower setting is SAFE at
    the higher one, and the density of the record at the higher
    setting is at most that at the lower one.  This holds for every
    position of the two widgets. *)
Theorem status_antitone_in_sensitivity
    (cv : Cv2.backend) (ui1 ui2 : App.widgets) (name : string)
    (img : Numpy.ndarray Cv2.pixel) :
  App.sensitivity (App.sidebar ui1) <= App.sensitivity (App.sidebar ui2) ->
  0 < Z.of_nat (Numpy.rows img) * Z.of_nat (Numpy.cols img) < 2 ^ 63 ->
  (App.res_status (App.analyse_image cv (App.sidebar ui2) name img) = App.CRITICAL ->
   App.res_status (App.analyse_image cv (App.sidebar ui1) name img) = App.CRITICAL) /\
  (App.res_status (App.analyse_image cv (App.sidebar ui1) name img) = App.SAFE ->
   App.res_status (App.analyse_image cv (App.sidebar ui2) name img) = App.SAFE) /\
  Float64.leb (App.res_density (App.analyse_image cv (App.sidebar ui2) name img))
              (App.res_density (App.analyse_image cv (App.sidebar ui1) name img)) = true.
Proof.
  intros Hs Hsize.
  pose proof (sensitivity_range ui1) as R1. pose proof (sensitivity_range ui2) as R2.
  assert (200 < 2 ^ 63) as H63 by reflexivity.
  pose proof (density_antitone cv img (App.sensitivity (App.sidebar ui1))
                (App.sensitivity (App.sidebar ui2)) ltac:(lia) ltac:(lia) Hsize) as Hle.
  destruct (analyse_image_fields cv (App.sidebar ui1) name img) as (_ & -> & -> & _).
  destruct (analyse_image_fields cv (App.sidebar ui2) name img) as (_ & -> & -> & _).
  destruct (tier_mono _ _ Hle) as [Hc Hsafe].
  pose proof Hsize as Hsize1. pose proof Hsize as Hsize2.
  rewrite <- (size_edge_mask cv (App.sensitivity (App.sidebar ui1))) in Hsize1.
  rewrite <- (size_edge_mask cv (App.sensitivity (App.sidebar ui2))) in Hsize2.
  destruct (density_percent _ Hsize1) as [Hd1 Hmax1].
  destruct (density_percent _ Hsize2) as [Hd2 Hmax2].
  split; [exact Hc|]. split; [exact Hsafe|].
  now apply round4_mono.
Qed.

Lemma status_antitone_in_sensitivity_witness :
  (App.res_status
     (App.analyse_image Demo.cv
        (App.sidebar {| App.sensitivity_input := Some 200; App.min_area_input := None |})
        "wall.png"
        (Numpy.tabulate 6 6 (fun _ j => if j <? 3 then (0, 0, 0) else (120, 120, 120))))
   = App.CRITICAL ->
   App.res_status
     (App.analyse_image Demo.cv (App.sidebar Demo.defaults) "wall.png"
        (Numpy.tabulate 6 6 (fun _ j => if j <? 3 then (0, 0, 0) else (120, 120, 120))))
   = App.CRITICAL) /\
  (App.res_status
     (App.analyse_image Demo.cv (App.sidebar Demo.defaults) "wall.png"
        (Numpy.tabulate 6 6 (fun _ j => if j <? 3 then (0, 0, 0) else (120, 120, 120))))
   = App.SAFE ->
   App.res_status
     (App.analyse_image Demo.cv
        (App.sidebar {| App.sensitivity_input := Some 200; App.min_area_input := None |})
        "wall.png"
        (Numpy.tabulate 6 6 (fun _ j => if j <? 3 then (0, 0, 0) else (120, 120, 120))))
   = App.SAFE) /\
  Float64.leb
    (App.res_density
       (App.analyse_image Demo.cv
          (App.sidebar {| App.sensitivity_input := Some 200; App.min_area_input := None |})
          "wall.png"
          (Numpy.tabulate 6 6 (fun _ j => if j <? 3 then (0, 0, 0) else (120, 120, 120)))))
    (App.res_density
       (App.analyse_image Demo.cv (App.sidebar Demo.defaults) "wall.png"
          (Numpy.tabulate 6 6 (fun _ j => if j <? 3 then (0, 0, 0) else (120, 120, 120)))))
  = true.
Proof.
  apply (status_antitone_in_sensitivity Demo.cv Demo.defaults
           {| App.sensitivity_input := Some 200; App.min_area_input := None |}
           "wall.png"
           (Numpy.tabulate 6 6 (fun _ j => if j <? 3 then (0, 0, 0) else (120, 120, 120)))).
  - vm_compute. discriminate.
  - vm_compute. split; reflexivity.
Defined.

(** ** The thresholds of the edge detector *)

(** What the script hands to Canny (lines 24 and 45-48), in integers.
    For every position of the slider and every image whose blurred
    gray version is 8-bit, the edge mask is the dilation of the
    hysteresis that starts from the pixels whose gradient magnitude
    [m] is a local maximum with [m > sensitivity] and
    [2 * m > 5 * sensitivity], and grows through the local maxima with
    [m > sensitivity]: the low threshold is [sensitivity], the high one
    exactly 2.5 times as much, neither is moved by the double
    arithmetic of [sensitivity * 2.5], and the high threshold is
    strictly above the low one. *)
Theorem canny_thresholds_are_exact
    (cv : Cv2.backend) (ui : App.widgets) (img : Numpy.ndarray Cv2.pixel) :
  Numpy.is_uint8 (Cv2.GaussianBlur cv (Cv2.cvtColor_BGR2GRAY cv img)) = true ->
  App.edge_mask cv (App.sensitivity (App.sidebar ui)) img
  = Cv2.dilate
      (Numpy.map2d (fun b : bool => if b then 255 else 0)
         (Cv2.hysteresis
            (Numpy.tabulate (Numpy.rows img) (Numpy.cols img)
               (fun i j =>
                  (App.sensitivity (App.sidebar ui)
                   <? Cv2.magnitude (Cv2.GaussianBlur cv (Cv2.cvtColor_BGR2GRAY cv img)) i j)
                  && Cv2.local_max cv (Cv2.GaussianBlur cv (Cv2.cvtColor_BGR2GRAY cv img)) i j))
            (Numpy.tabulate (Numpy.rows img) (Numpy.cols img)
               (fun i j =>
                  (App.sensitivity (App.sidebar ui)
                   <? Cv2.magnitude (Cv2.GaussianBlur cv (Cv2.cvtColor_BGR2GRAY cv img)) i j)
                  && Cv2.local_max cv (Cv2.GaussianBlur cv (Cv2.cvtColor_BGR2GRAY cv img)) i j
                  && (5 * App.sensitivity (App.sidebar ui)
                      <? 2 * Cv2.magnitude (Cv2.GaussianBlur cv (Cv2.cvtColor_BGR2GRAY cv img)) i j))))) /\
  Float64.ltb
    (Float64.of_int (App.sensitivity (App.sidebar ui)))
    (Float64.mul (Float64.of_int (App.sensitivity (App.sidebar ui))) Float64.lit_2_5)
  = true.
Proof.
  intros H8. pose proof (sensitivity_range ui) as Hs.
  set (s := App.sensitivity (App.sidebar ui)) in *.
  split.
  - unfold App.edge_mask, Cv2.Canny.
    rewrite (candidates_int cv _ s Hs H8), (seeds_int cv _ s Hs H8).
    now rewrite rows_blurred, cols_blurred.
  - now destruct (slider_thresholds s Hs) as (_ & _ & _ & _ & Hlt).
Qed.

Lemma canny_thresholds_are_exact_witness :
  App.edge_mask Demo.cv (App.sensitivity (App.sidebar Demo.defaults))
    (Numpy.tabulate 6 6 (fun _ j => if j <? 3 then (0, 0, 0) else (255, 255, 255)))
  = Cv2.dilate
      (Numpy.map2d (fun b : bool => if b then 255 else 0)
         (Cv2.hysteresis
            (Numpy.tabulate
               (Numpy.rows (Numpy.tabulate 6 6 (fun _ j => if j <? 3 then (0, 0, 0) else (255, 255, 255))))
               (Numpy.cols (Numpy.tabulate 6 6 (fun _ j => if j <? 3 then (0, 0, 0) else (255, 255, 255))))
               (fun i j =>
                  (App.sensitivity (App.sidebar Demo.defaults)
                   <? Cv2.magnitude
                        (Cv2.GaussianBlur Demo.cv
                           (Cv2.cvtColor_BGR2GRAY Demo.cv
                              (Numpy.tabulate 6 6 (fun _ j => if j <? 3 then (0, 0, 0) else (255, 255, 255))))) i j)
                  && Cv2.local_max Demo.cv
                       (Cv2.GaussianBlur Demo.cv
                          (Cv2.cvtColor_BGR2GRAY Demo.cv
                             (Numpy.tabulate 6 6 (fun _ j => if j <? 3 then (0, 0, 0) else (255, 255, 255))))) i j))
            (Numpy.tabulate
               (Numpy.rows (Numpy.tabulate 6 6 (fun _ j => if j <? 3 then (0, 0, 0) else (255, 255, 255))))
               (Numpy.cols (Numpy.tabulate 6 6 (fun _ j => if j <? 3 then (0, 0, 0) else (255, 255, 255))))
               (fun i j =>
                  (App.sensitivity (App.sidebar Demo.defaults)
                   <? Cv2.magnitude
                        (Cv2.GaussianBlur Demo.cv
                           (Cv2.cvtColor_BGR2GRAY Demo.cv
                              (Numpy.tabulate 6 6 (fun _ j => if j <? 3 then (0, 0, 0) else (255, 255, 255))))) i j)
                  && Cv2.local_max Demo.cv
                       (Cv2.GaussianBlur Demo.cv
                          (Cv2.cvtColor_BGR2GRAY Demo.cv
                             (Numpy.tabulate 6 6 (fun _ j => if j <? 3 then (0, 0, 0) else (255, 255, 255))))) i j
                  && (5 * App.sensitivity (App.sidebar Demo.defaults)
                      <? 2 * Cv2.magnitude
                             (Cv2.GaussianBlur Demo.cv
                                (Cv2.cvtColor_BGR2GRAY Demo.cv
                                   (Numpy.tabulate 6 6 (fun _ j => if j <? 3 then (0, 0, 0) else (255, 255, 255))))) i j))))) /\
  Float64.ltb
    (Float64.of_int (App.sensitivity (App.sidebar Demo.defaults)))
    (Float64.mul (Float64.of_int (App.sensitivity (App.sidebar Demo.defaults))) Float64.lit_2_5)
  = true.
Proof.
  apply (canny_thresholds_are_exact Demo.cv Demo.defaults
           (Numpy.tabulate 6 6 (fun _ j => if j <? 3 then (0, 0, 0) else (255, 255, 255)))).
  vm_compute. reflexivity.
Defined.

(** ** The numbering of the regions *)

(** The boxes are numbered in the order of the contours (lines 62-68).
    The loop draws, for the first, second, ... contour whose area is
    above [min_area] and for no other, its box and then the label
    "Crack 1", "Crack 2", ..., each on top of what was drawn before;
    the number of a region does not depend on how many contours were
    discarded before it, the labels are pairwise distinct, and the
    count of the record is the number of the last label. *)
Theorem regions_are_numbered_in_order
    (cv : Cv2.backend) (min_area : Z) (color : Cv2.pixel)
    (contours : list Cv2.contour) (img_rgb : Numpy.ndarray Cv2.pixel) :
  App.draw_regions cv min_area color contours (img_rgb, 0)
  = (fold_left (fun overlay nc => Drawn.annotate cv color (fst nc) (snd nc) overlay)
               (Drawn.numbered 0 (App.surviving min_area contours)) img_rgb,
     Z.of_nat (length (App.surviving min_area contours))) /\
  List.map snd (Drawn.numbered 0 (App.surviving min_area contours))
  = App.surviving min_area contours /\
  List.map fst (Drawn.numbered 0 (App.surviving min_area contours))
  = List.map Z.of_nat (seq 1 (length (App.surviving min_area contours))) /\
  List.NoDup (List.map (fun nc => App.label (fst nc))
                       (Drawn.numbered 0 (App.surviving min_area contours))).
Proof.
  split; [apply draw_regions_numbered|]. split.
  { unfold Drawn.numbered. generalize 1%nat.
    induction (App.surviving min_area contours) as [|cnt rest IH]; intros s; [reflexivity|].
    cbn [length seq List.map combine snd]. now rewrite IH. }
  assert (List.map fst (Drawn.numbered 0 (App.surviving min_area contours))
          = List.map Z.of_nat (seq 1 (length (App.surviving min_area contours)))) as Hfst.
  { rewrite (labels_numbered 0). apply List.map_ext. intros k. lia. }
  split; [exact Hfst|].
  rewrite <- (List.map_map fst App.label), Hfst.
  apply NoDup_map_inj; [exact label_inj|].
  apply NoDup_map_inj; [intros a b; lia|apply seq_NoDup].
Qed.

(** ** The report *)

(** The grid tab (lines 95-121) is built without an [IndexError] for
    every list of results.  It has one row for every three results,
    rounded up, and every row has exactly three columns.  Read row by
    row, the columns hold the card of [results_list[0]], of
    [results_list[1]], and so on in the order of the list, each result
    once, and then the empty columns that fill the last row, fewer
    than three. *)
Theorem grid_shows_every_result_once
    (fe : Report.frontend) (results_list : list App.result) :
  exists grid,
    Report.tab2 fe results_list = App.Returned grid /\
    length grid = ((length results_list + 2) / 3)%nat /\
    List.Forall (fun r => length r = 3%nat) grid /\
    List.concat grid
    = List.map Some
        (List.map (fun kr => Report.render fe (fst kr) (snd kr))
                  (Report.enumerate results_list))
      ++ repeat None (length grid * 3 - length results_list) /\
    (length grid * 3 - length results_list < 3)%nat /\
    Report.cards grid
    = List.map (fun kr => Report.render fe (fst kr) (snd kr))
               (Report.enumerate results_list).
Proof.
  destruct (concat_tab2 fe results_list) as (grid & Hgrid & Hlen & Hrows & Hcat).
  exists grid. unfold Report.cols_per_row in *.
  replace (length results_list + 3 - 1)%nat with (length results_list + 2)%nat in Hlen by lia.
  pose proof (ceil_bounds (length results_list)) as Hb. unfold Report.cols_per_row in Hb.
  replace (length results_list + 3 - 1)%nat with (length results_list + 2)%nat in Hb by lia.
  rewrite <- Hlen in Hb.
  repeat split; try assumption; try lia.
  unfold Report.cards. rewrite Hcat. apply cards_of_columns.
Qed.

(** The download buttons of the grid (lines 119-121) have pairwise
    distinct keys [dl_0], [dl_1], ..., whatever the results are, two
    uploads of the same name included; the file name offered by the
    button of a card is [result_] followed by the name of its upload,
    so that it repeats when a name does. *)
Theorem download_keys_are_distinct
    (fe : Report.frontend) (results_list : list App.result) :
  exists grid,
    Report.tab2 fe results_list = App.Returned grid /\
    List.NoDup (List.map (fun c => Report.button_key (Report.card_button c))
                         (Report.cards grid)) /\
    List.map (fun c => Report.button_key (Report.card_button c)) (Report.cards grid)
    = List.map (fun k => String.append "dl_" (Report.str_int k))
               (seq 0 (length results_list)) /\
    List.map (fun c => Report.button_file_name (Report.card_button c)) (Report.cards grid)
    = List.map (fun res => String.append "result_" (App.res_name res)) results_list.
Proof.
  destruct (concat_tab2 fe results_list) as (grid & Hgrid & _ & _ & Hcat).
  exists grid. split; [exact Hgrid|].
  assert (Report.cards grid
          = List.map (fun kr => Report.render fe (fst kr) (snd kr))
                     (Report.enumerate results_list)) as ->
    by (unfold Report.cards; rewrite Hcat; apply cards_of_columns).
  rewrite !List.map_map. cbn [Report.render Report.card_button Report.button_key
                              Report.button_file_name].
  unfold Report.enumerate.
  rewrite (keys_of_enumerate (fun k => String.append "dl_" (Report.str_int k))).
  split; [|split; [reflexivity|]].
  - apply NoDup_map_inj; [|apply seq_NoDup].
    intros a b E. cbn [String.append] in E. injection E as E. now apply str_int_inj.
  - clear Hgrid Hcat. generalize 0%nat. induction results_list as [|res rest IH]; intros s; [reflexivity|].
    cbn [length seq combine List.map snd]. now rewrite IH.
Qed.

(** The summary tab and the grid tab (lines 84-89 and 95-121) agree.
    The cards of the grid go with the results one to one, in the order
    of the list: the card of a result shows its image, and it is shown
    with [st.error] exactly when the result is CRITICAL, with
    [st.warning] exactly when it is WARNING, and with [st.success],
    and then without a density, exactly when it is SAFE.  "Total
    Images" is the number of cards, and "Critical Risks" is the number
    of cards shown with [st.error], which is the number of results
    whose status is CRITICAL and at most the total; the table has one
    row per result, in the order of the list. *)
Theorem summary_agrees_with_grid
    (fe : Report.frontend) (results_list : list App.result) :
  exists grid,
    Report.tab2 fe results_list = App.Returned grid /\
    List.Forall2
      (fun res c =>
         Report.card_image c = App.res_img res /\
         ((exists body, Report.card_alert c = Report.error body)
          <-> App.res_status res = App.CRITICAL) /\
         ((exists body, Report.card_alert c = Report.warning body)
          <-> App.res_status res = App.WARNING) /\
         ((exists body, Report.card_alert c = Report.success body)
          <-> App.res_status res = App.SAFE) /\
         (App.res_status res = App.SAFE ->
          Report.card_alert c = Report.success "🟢 SAFE"))
      results_list (Report.cards grid) /\
    Report.total_images (Report.tab1 fe results_list)
    = Z.of_nat (length (Report.cards grid)) /\
    Report.critical_risks (Report.tab1 fe results_list)
    = Z.of_nat (length (List.filter
                          (fun c => match Report.card_alert c with
                                    | Report.error _ => true
                                    | _ => false
                                    end)
                          (Report.cards grid))) /\
    Report.critical_risks (Report.tab1 fe results_list)
    = Z.of_nat (length (List.filter
                          (fun res => match App.res_status res with
                                      | App.CRITICAL => true
                                      | _ => false
                                      end)
                          results_list)) /\
    0 <= Report.critical_risks (Report.tab1 fe results_list)
      <= Report.total_images (Report.tab1 fe results_list) /\
    length (List.filter
              (fun c => match Report.card_alert c with
                        | Report.success _ => true
                        | _ => false
                        end)
              (Report.cards grid))
    = length (List.filter
                (fun res => match App.res_status res with
                            | App.SAFE => true
                            | _ => false
                            end)
                results_list) /\
    List.map Report.row_name (Report.dataframe (Report.tab1 fe results_list))
    = List.map App.res_name results_list.
Proof.
  destruct (concat_tab2 fe results_list) as (grid & Hgrid & _ & _ & Hcat).
  exists grid. split; [exact Hgrid|].
  assert (Report.cards grid
          = List.map (fun kr => Report.render fe (fst kr) (snd kr))
                     (Report.enumerate results_list)) as ->
    by (unfold Report.cards; rewrite Hcat; apply cards_of_columns).
  cbn [Report.tab1 Report.total_images Report.critical_risks Report.dataframe].
  assert (forall p q : App.result -> bool,
            (forall res, p res = q res) ->
            length (List.filter p results_list) = length (List.filter q results_list)) as Hext
    by (intros p q E; now rewrite (List.filter_ext _ _ E)).
  assert (forall (a : Report.card -> bool) (p : App.result -> bool),
            (forall k res, a (Report.render fe k res) = p res) ->
            length (List.filter a
                      (List.map (fun kr => Report.render fe (fst kr) (snd kr))
                                (Report.enumerate results_list)))
            = length (List.filter p results_list)) as Hcards.
  { intros a p E. unfold Report.enumerate.
    rewrite <- (filter_enumerate p results_list 0).
    generalize (combine (seq 0 (length results_list)) results_list). intros l.
    induction l as [|[k res] l IH]; [reflexivity|].
    cbn [List.map List.filter fst snd]. rewrite E.
    destruct (p res); cbn [length]; now rewrite IH. }
  split.
  { apply Forall2_cards. intros k res.
    cbn [Report.render Report.card_image Report.card_alert].
    rewrite is_critical, is_warning.
    destruct (App.res_status res); repeat split;
      try (intros [body E]; discriminate E); try (intros E; discriminate E);
      try (intros _; eexists; reflexivity). }
  split; [now rewrite length_map, length_enumerate|].
  split.
  { f_equal. symmetry. apply Hcards. intros k res.
    cbn [Report.render Report.card_alert]. rewrite is_critical, is_warning.
    now destruct (App.res_status res). }
  split; [f_equal; apply Hext; intros res; apply is_critical|].
  split.
  { pose proof (List.filter_length_le
                  (fun res => String.eqb (Report.status_str (App.res_status res)) "CRITICAL")
                  results_list). lia. }
  split.
  { apply Hcards. intros k res.
    cbn [Report.render Report.card_alert]. rewrite is_critical, is_warning.
    now destruct (App.res_status res). }
  rewrite List.map_map. reflexivity.
Qed.

(** What the script shows (lines 33-123).  With no upload it shows the
    hint and analyses nothing.  With uploads of which one does not
    decode it ends with the error of [cv2.cvtColor] and shows no
    report.  With uploads that all decode it shows the two tabs: the
    report is never computed over an empty list, "Total Images" is the
    number of uploads, the table lists the uploads by name in the
    order of submission, and the grid holds one card per upload. *)
Theorem hint_error_or_report
    (cv : Cv2.backend) (fe : Report.frontend) (ui : App.widgets)
    (uploaded_files : list App.uploaded_file) :
  (uploaded_files = [] ->
   Report.main cv fe ui uploaded_files
   = App.Returned (Report.Hint "Upload images to view the interactive inspection grid.")) /\
  (List.Exists (fun f => Cv2.imdecode cv (App.file_bytes f) = None) uploaded_files ->
   Report.main cv fe ui uploaded_files = App.Raised "cv2.error") /\
  (uploaded_files <> [] ->
   List.Forall (fun f => Cv2.imdecode cv (App.file_bytes f) <> None) uploaded_files ->
   exists report grid,
     Report.main cv fe ui uploaded_files = App.Returned (Report.Tabs report grid) /\
     Report.total_images report = Z.of_nat (length uploaded_files) /\
     1 <= Report.total_images report /\
     List.map Report.row_name (Report.dataframe report)
     = List.map App.file_name uploaded_files /\
     length (Report.cards grid) = length uploaded_files).
Proof.
  split; [intros ->; reflexivity|]. split.
  - intros H. destruct uploaded_files as [|f rest]; [inversion H|].
    unfold Report.main, App.run. now rewrite for_each_raised.
  - intros Hne Hall.
    destruct (decodable_images cv uploaded_files Hall) as [imgs Himgs].
    pose proof (for_each_returned cv (App.sidebar ui) uploaded_files imgs [] Himgs) as Hrun.
    cbn [app] in Hrun.
    set (results_list :=
           List.map (fun fi => App.analyse_image cv (App.sidebar ui)
                                 (App.file_name (fst fi)) (snd fi))
                    (combine uploaded_files imgs)) in *.
    assert (length results_list = length uploaded_files) as Hlen.
    { unfold results_list. rewrite length_map, length_combine.
      pose proof (List.Forall2_length Himgs). lia. }
    destruct (concat_tab2 fe results_list) as (grid & Hgrid & _ & _ & Hcat).
    exists (Report.tab1 fe results_list), grid.
    split.
    { destruct uploaded_files as [|f rest]; [congruence|].
      unfold Report.main, App.run. rewrite Hrun. cbn [Report.bind].
      now rewrite Hgrid. }
    cbn [Report.tab1 Report.total_images Report.dataframe].
    split; [now rewrite Hlen|]. split.
    { destruct uploaded_files; [congruence|]. rewrite Hlen. cbn [length]. lia. }
    split.
    { rewrite List.map_map. cbn [Report.drop_img Report.row_name].
      now apply names_of_results. }
    unfold Report.cards. rewrite Hcat, cards_of_columns.
    now rewrite length_map, length_enumerate.
Qed.

(** ** The batch *)

(** The loop keeps no state from one image to the next (lines 36-76):
    the run on a batch is the run on its first part followed by the
    run on the rest, the records of the two put one after the other,
    and an error of either part is the error of the whole; so the
    record of a file is the same whether the file is uploaded alone or
    in a batch, and at whatever position. *)
Theorem batch_is_analysed_file_by_file
    (cv : Cv2.backend) (ui : App.widgets) (files1 files2 : list App.uploaded_file) :
  App.run cv ui (files1 ++ files2)
  = Report.bind (App.run cv ui files1) (fun results1 =>
    Report.bind (App.run cv ui files2) (fun results2 =>
    App.Returned (results1 ++ results2))) /\
  (forall results,
     App.run cv ui (files1 ++ files2) = App.Returned results ->
     List.Forall2 (fun f r => App.run cv ui [f] = App.Returned [r])
                  (files1 ++ files2) results).
Proof.
  split.
  - unfold App.run. rewrite for_each_app.
    destruct (App.for_each cv (App.sidebar ui) files1 []) as [rs|e]; [|reflexivity].
    cbn [Report.bind]. apply for_each_acc.
  - generalize (files1 ++ files2). intros files. unfold App.run.
    induction files as [|f rest IH]; intros results H.
    + cbn in H. injection H as <-. constructor.
    + cbn [App.for_each] in H |- *.
      destruct (App.analyse cv (App.sidebar ui) f) as [r|e] eqn:E; [|discriminate].
      rewrite for_each_acc in H.
      destruct (App.for_each cv (App.sidebar ui) rest []) as [rs|e]; [|discriminate].
      cbn [Report.bind app] in H. injection H as <-.
      constructor; [cbn [App.for_each]; now rewrite E|]. now apply IH.
Qed.
